(** * visa_check: the scan orchestration core, verified against its Python source

    A shallow embedding of the parts of [backend/] that carry state and
    ordering invariants:

    - [auth/otp_handler.py]          ([Module OtpHandler])
    - [core/proxy_manager.py]        ([Module ProxyManager])
    - [scanner/screen_detector.py]   ([Module ScreenDetector])
    - [scanner/availability_checker.py] ([Module AvailabilityChecker])
    - [core/session_manager.py]      ([Module SessionManager])

    together with the page classifier of [scanner/screen_detector.py]
    ([Module Detection]), the text-message store of [auth/sms_webhook.py]
    ([Module SmsWebhook]), the pure helpers of [utils/helpers.py]
    ([Module Helpers]) and [notifications/notifier.py] ([Module Notifier]).

    Python objects become records, dictionaries become [gmap]s keyed by
    strings, and a method that mutates [self] returns the new object next
    to its result.  Python's unbounded [int] is [Z].  A [str] is a
    [string] of bytes (the UTF-8 encoding of the text), which is exact for
    equality, concatenation and splitting on ASCII separators. *)

From Stdlib Require Import ZArith Lia Ascii.
From stdpp Require Import base option list gmap strings pretty.

Local Open Scope Z_scope.

(** ** Python built-ins used by the modelled code *)

Module Py.

(** The exceptions the modelled code can raise itself. *)
Inductive exn := IndexError | KeyError | ValueError.

(** Outcome of an expression that may raise. *)
Inductive result (A : Type) :=
| Ok (a : A)
| Raise (e : exn).
Arguments Ok {A} a.
Arguments Raise {A} e.

(** [str.isspace] on the ASCII range: TAB, LF, VT, FF, CR, the four
    separators FS GS RS US, and the blank.  The white space Unicode has
    beyond ASCII is left to the text: no modelled input holds any. *)
Definition is_space (c : ascii) : bool :=
  let n := Z.of_nat (nat_of_ascii c) in
  ((9 <=? n) && (n <=? 13)) || ((28 <=? n) && (n <=? 32)).

(** The white space [int] skips around an ASCII literal (C's
    [isspace]): TAB, LF, VT, FF, CR and the blank. *)
Definition is_c_space (c : ascii) : bool :=
  let n := Z.of_nat (nat_of_ascii c) in
  ((9 <=? n) && (n <=? 13)) || (n =? 32).

Fixpoint lstrip_by (white : ascii -> bool) (s : string) : string :=
  match s with
  | String c r => if white c then lstrip_by white r else s
  | EmptyString => EmptyString
  end.

(** Stripping on the right by structural recursion: a character is kept
    unless it is white and everything after it was stripped. *)
Fixpoint rstrip_by (white : ascii -> bool) (s : string) : string :=
  match s with
  | String c r =>
      match rstrip_by white r with
      | EmptyString => if white c then EmptyString else String c EmptyString
      | r' => String c r'
      end
  | EmptyString => EmptyString
  end.

(** [s.strip()] *)
Definition strip (s : string) : string :=
  rstrip_by is_space (lstrip_by is_space s).

(** [s.split(sep)] for a one-character separator: the pieces between the
    separators, empty pieces kept, never the empty list. *)
Fixpoint split_go (sep : ascii) (cur : string) (s : string) : list string :=
  match s with
  | EmptyString => [String.rev cur]
  | String c r =>
      if bool_decide (c = sep) then String.rev cur :: split_go sep EmptyString r
      else split_go sep (String c cur) r
  end.

Definition split (sep : ascii) (s : string) : list string :=
  split_go sep EmptyString s.

Definition is_digit (c : ascii) : bool :=
  let n := Z.of_nat (nat_of_ascii c) in (48 <=? n) && (n <=? 57).

Definition digit_val (c : ascii) : Z := Z.of_nat (nat_of_ascii c) - 48.

(** The digits of an [int] literal: at least one digit, a single
    underscore allowed between two digits. *)
Fixpoint int_digits (acc : Z) (after_digit : bool) (s : string) : option Z :=
  match s with
  | EmptyString => if after_digit then Some acc else None
  | String c r =>
      if is_digit c then int_digits (10 * acc + digit_val c) true r
      else if bool_decide (c = "_"%char) && after_digit then
        match r with
        | String d _ => if is_digit d then int_digits acc false r else None
        | EmptyString => None
        end
      else None
  end.

(** The digits in a literal, underscores, sign and white space apart. *)
Fixpoint count_digits (s : string) : Z :=
  match s with
  | EmptyString => 0
  | String c r => (if is_digit c then 1 else 0) + count_digits r
  end.

(** [sys.get_int_max_str_digits()], the interpreter's default. *)
Definition int_max_str_digits : Z := 4300.

(** [int(s)] in base ten on ASCII text: surrounding white space (the
    separators FS to US are not skipped here), an optional sign, then the
    digits, no more of them than [int_max_str_digits].  [None] is the
    [ValueError]. *)
Definition int (s : string) : option Z :=
  let literal := rstrip_by is_c_space (lstrip_by is_c_space s) in
  if int_max_str_digits <? count_digits literal then None
  else
    match literal with
    | String "-" r => Z.opp <$> int_digits 0 false r
    | String "+" r => int_digits 0 false r
    | r => int_digits 0 false r
    end.

(** [str(n)] for an [int]. *)
Definition str_int (n : Z) : string := pretty n.

(** [l[i]] for a list: negative indices count from the end; out of range
    is the [IndexError]. *)
Definition getitem {A} (l : list A) (i : Z) : option A :=
  let n := Z.of_nat (length l) in
  if (0 <=? i) && (i <? n) then l !! Z.to_nat i
  else if (- n <=? i) && (i <? 0) then l !! Z.to_nat (n + i)
  else None.

(** [l.index(x)]: position of the first occurrence, [None] for the
    [ValueError]. *)
Fixpoint index (x : string) (l : list string) : option Z :=
  match l with
  | [] => None
  | y :: r => if bool_decide (y = x) then Some 0 else Z.succ <$> index x r
  end.

(** [x in l] for a list of strings. *)
Definition contains (x : string) (l : list string) : bool :=
  bool_decide (x ∈ l).

(** [t in s] for two strings: [t] occurs in [s] as a substring. *)
Fixpoint startswith (s t : string) : bool :=
  match t, s with
  | EmptyString, _ => true
  | String a t', String b s' => bool_decide (a = b) && startswith s' t'
  | String _ _, EmptyString => false
  end.

Fixpoint str_in (t s : string) : bool :=
  startswith s t ||
  match s with
  | String _ s' => str_in t s'
  | EmptyString => false
  end.

(** [s.lower()] on ASCII text; other bytes are left as they are. *)
Fixpoint lower_ascii (s : string) : string :=
  match s with
  | EmptyString => EmptyString
  | String c r =>
      let n := nat_of_ascii c in
      String (if (65 <=? n)%nat && (n <=? 90)%nat then ascii_of_nat (n + 32) else c)
        (lower_ascii r)
  end.

(** Truth value of a string ([if s:], [a or b]). *)
Definition nonempty (s : string) : bool :=
  match s with EmptyString => false | _ => true end.

(** Truth value of a list ([if l:]). *)
Definition truthy {A} (l : list A) : bool :=
  match l with [] => false | _ => true end.

(** [len(s)] *)
Definition len (s : string) : Z := Z.of_nat (String.length s).

Fixpoint take (n : nat) (s : string) : string :=
  match n, s with
  | S n', String c r => String c (take n' r)
  | _, _ => EmptyString
  end.

Fixpoint drop (n : nat) (s : string) : string :=
  match n, s with
  | S n', String _ r => drop n' r
  | _, _ => s
  end.

(** [s[:k]]: a negative bound counts from the end. *)
Definition slice_to (s : string) (k : Z) : string :=
  if k <? 0 then take (Z.to_nat (len s + k)) s else take (Z.to_nat k) s.

(** [s[k:]]: a negative bound counts from the end. *)
Definition slice_from (s : string) (k : Z) : string :=
  if k <? 0 then drop (Z.to_nat (len s + k)) s else drop (Z.to_nat k) s.

(** [c * n] for a one-character string [c]: empty when [n <= 0]. *)
Definition repeat_char (c : ascii) (n : Z) : string :=
  Nat.iter (Z.to_nat n) (String c) EmptyString.

(** [s.split(sep, 1)] when [sep] occurs in [s]: what stands before the
    first [sep] and what stands after it; [None] when it does not
    occur. *)
Fixpoint split_once (sep : ascii) (s : string) : option (string * string) :=
  match s with
  | EmptyString => None
  | String c r =>
      if bool_decide (c = sep) then Some (EmptyString, r)
      else match split_once sep r with
           | Some (a, b) => Some (String c a, b)
           | None => None
           end
  end.

(** The characters [\w] matches in ASCII text: letters, digits and the
    underscore. *)
Definition is_word (c : ascii) : bool :=
  let n := Z.of_nat (nat_of_ascii c) in
  ((48 <=? n) && (n <=? 57)) || ((65 <=? n) && (n <=? 90)) ||
  ((97 <=? n) && (n <=? 122)) || (n =? 95).

(** Text of the ASCII range: every character is one byte below 128, the
    length is the number of characters, and the library's character
    classes are the ones above. *)
Fixpoint is_ascii (s : string) : bool :=
  match s with
  | EmptyString => true
  | String c r => (Z.of_nat (nat_of_ascii c) <? 128) && is_ascii r
  end.

End Py.

Example strip_blank :
  Py.strip (String " " (String (ascii_of_nat 9) ("a b" +:+ String (ascii_of_nat 10) " ")))
  = "a b".
Proof. reflexivity. Qed.

Example split_lines : Py.split ":" "h:80:u:p" = ["h"; "80"; "u"; "p"]
  /\ Py.split ":" "" = [""] /\ Py.split ":" "a:" = ["a"; ""].
Proof. repeat split; reflexivity. Qed.

Example int_examples :
  Py.int " 8080 " = Some 8080 /\ Py.int "-1_0" = Some (-10) /\
  Py.int "80a" = None /\ Py.int "" = None /\ Py.int "_1" = None /\
  Py.int "1__0" = None /\ Py.int "+ 5" = None /\ Py.int "0080" = Some 80 /\
  Py.int (String (ascii_of_nat 28) "80") = None /\
  Py.int (String (ascii_of_nat 9) "80") = Some 80 /\ Py.str_int 8080 = "8080".
Proof. repeat split; reflexivity. Qed.

(** ** auth/otp_handler.py *)

Module OtpHandler.

(** [class OTPChannel(Enum)] with its [.value]. *)
Inductive OTPChannel := SMS | EMAIL.

Definition channel_value (c : OTPChannel) : string :=
  match c with SMS => "sms" | EMAIL => "email" end.

(** [class OTPStatus(Enum)] *)
Inductive OTPStatus := PENDING | VERIFIED | EXPIRED | INVALID | MAX_ATTEMPTS_EXCEEDED.

Definition status_value (s : OTPStatus) : string :=
  match s with
  | PENDING => "pending"
  | VERIFIED => "verified"
  | EXPIRED => "expired"
  | INVALID => "invalid"
  | MAX_ATTEMPTS_EXCEEDED => "max_attempts_exceeded"
  end.

(** [@dataclass OTPRecord].  A [datetime] is its number of microseconds
    on the UTC time line; only its order and [+ timedelta] are used. *)
Record OTPRecord := mkOTPRecord {
  otp_hash : string;
  channel : OTPChannel;
  created_at : Z;
  expires_at : Z;
  attempts : Z;
  verified : bool
}.

(** The fields of [OTPHandler.__init__]. *)
Record OTPHandler := mkOTPHandler {
  otp_length : Z;
  expiry_minutes : Z;
  max_attempts : Z;
  _otp_store : gmap string OTPRecord
}.

Definition DEFAULT_OTP_LENGTH : Z := 6.
Definition DEFAULT_EXPIRY_MINUTES : Z := 5.
Definition MAX_VERIFICATION_ATTEMPTS : Z := 3.

(** [OTPHandler()] with the default arguments. *)
Definition new_handler : OTPHandler :=
  mkOTPHandler DEFAULT_OTP_LENGTH DEFAULT_EXPIRY_MINUTES MAX_VERIFICATION_ATTEMPTS ∅.

Definition set_store (h : OTPHandler) (m : gmap string OTPRecord) : OTPHandler :=
  mkOTPHandler (otp_length h) (expiry_minutes h) (max_attempts h) m.

(** [timedelta(minutes=m)] in microseconds. *)
Definition minutes (m : Z) : Z := m * 60 * 1000000.

(** [_get_storage_key]: [f"{channel.value}:{identifier}"] *)
Definition _get_storage_key (identifier : string) (ch : OTPChannel) : string :=
  channel_value ch +:+ ":" +:+ identifier.

(** [_invalidate_otp]: delete the key when present. *)
Definition _invalidate_otp (h : OTPHandler) (storage_key : string) : OTPHandler :=
  match _otp_store h !! storage_key with
  | Some _ => set_store h (delete storage_key (_otp_store h))
  | None => h
  end.

(** The dictionary [verify_otp] returns; [remaining_attempts] is a key
    of the last branch only. *)
Record VerifyResult := mkVerifyResult {
  r_verified : bool;
  r_status : OTPStatus;
  r_message : string;
  r_remaining_attempts : option Z
}.

Section WithDigest.

(** [_hash_otp]: [hashlib.sha256(otp.encode()).hexdigest()], a function
    of the library; the code only compares its values. *)
Variable _hash_otp : string -> string.

(** [generate_and_send_otp], the store it leaves and the delivery status.
    [otp] is the code [_generate_otp] drew, [now] is [datetime.utcnow()],
    and [send_callback identifier otp channel] answers [None] when it
    returns and [Some e] when it raises [e]. *)
Definition generate_and_send_otp (h : OTPHandler) (now : Z) (otp : string)
    (identifier : string) (ch : OTPChannel)
    (send_callback : option (string -> string -> OTPChannel -> option string))
    : string * OTPHandler :=
  let otp_hash := _hash_otp otp in
  let expires_at := now + minutes (expiry_minutes h) in
  let storage_key := _get_storage_key identifier ch in
  let h' := set_store h
    (<[storage_key := mkOTPRecord otp_hash ch now expires_at 0 false]> (_otp_store h)) in
  let delivery_status :=
    match send_callback with
    | None => "pending"
    | Some send =>
        match send identifier otp ch with
        | None => "sent"
        | Some e => "failed: " +:+ e
        end
    end in
  (delivery_status, h').

(** [verify_otp].  [record] is a reference into the store, so the two
    assignments to its fields are updates of the stored record. *)
Definition verify_otp (h : OTPHandler) (now : Z)
    (identifier : string) (ch : OTPChannel) (otp : string)
    : VerifyResult * OTPHandler :=
  let storage_key := _get_storage_key identifier ch in
  match _otp_store h !! storage_key with
  | None =>
      (mkVerifyResult false INVALID "No OTP found for this identifier" None, h)
  | Some record =>
      if verified record then
        (mkVerifyResult false INVALID "OTP has already been used" None, h)
      else if expires_at record <? now then
        (mkVerifyResult false EXPIRED "OTP has expired" None,
         _invalidate_otp h storage_key)
      else if max_attempts h <=? attempts record then
        (mkVerifyResult false MAX_ATTEMPTS_EXCEEDED
           "Maximum verification attempts exceeded" None,
         _invalidate_otp h storage_key)
      else
        let record1 :=
          mkOTPRecord (otp_hash record) (channel record) (created_at record)
            (expires_at record) (attempts record + 1) (verified record) in
        if bool_decide (_hash_otp otp = otp_hash record1) then
          let record2 :=
            mkOTPRecord (otp_hash record1) (channel record1) (created_at record1)
              (expires_at record1) (attempts record1) true in
          (mkVerifyResult true VERIFIED "OTP verified successfully" None,
           set_store h (<[storage_key := record2]> (_otp_store h)))
        else
          let remaining_attempts := max_attempts h - attempts record1 in
          (mkVerifyResult false INVALID
             ("Invalid OTP. " +:+ Py.str_int remaining_attempts +:+ " attempts remaining")
             (Some remaining_attempts),
           set_store h (<[storage_key := record1]> (_otp_store h)))
  end.

(** [resend_otp]: invalidate, then issue. *)
Definition resend_otp (h : OTPHandler) (now : Z) (otp : string)
    (identifier : string) (ch : OTPChannel)
    (send_callback : option (string -> string -> OTPChannel -> option string))
    : string * OTPHandler :=
  generate_and_send_otp (_invalidate_otp h (_get_storage_key identifier ch))
    now otp identifier ch send_callback.

(** The record stored for a key. *)
Definition lookup_record (h : OTPHandler) (identifier : string) (ch : OTPChannel)
    : option OTPRecord :=
  _otp_store h !! _get_storage_key identifier ch.

(** A run of [verify_otp] calls for one key, each with its own clock
    reading and candidate; the results in call order and the final
    handler. *)
Fixpoint verify_all (h : OTPHandler) (identifier : string) (ch : OTPChannel)
    (calls : list (Z * string)) : list VerifyResult * OTPHandler :=
  match calls with
  | [] => ([], h)
  | (now, otp) :: rest =>
      let '(r, h1) := verify_otp h now identifier ch otp in
      let '(rs, h2) := verify_all h1 identifier ch rest in
      (r :: rs, h2)
  end.

End WithDigest.

(** A stand-in digest for running the model on concrete inputs: any
    injective function behaves like the real one under comparison. *)
Definition toy_digest (s : string) : string := "#" +:+ s.

(** The scenario of the specification: a code issued for
    "+905551234567" over SMS at time 0 by a default handler. *)
Definition phone : string := "+905551234567".

Definition issued : OTPHandler :=
  (generate_and_send_otp toy_digest new_handler 0 "123456" phone SMS None).2.

(** *** Properties of the verification code store *)

Section OtpFacts.

Variable _hash_otp : string -> string.

(** Two (identifier, channel) pairs with the same storage key are the
    same pair: no record is shared between channels or identifiers. *)
Theorem storage_key_inj (id1 id2 : string) (ch1 ch2 : OTPChannel) :
  _get_storage_key id1 ch1 = _get_storage_key id2 ch2 -> id1 = id2 /\ ch1 = ch2.
Proof.
  destruct ch1, ch2; cbn; intros H; inversion H; auto.
Qed.

Lemma invalidate_store h key :
  _otp_store (_invalidate_otp h key) = delete key (_otp_store h).
Proof.
  unfold _invalidate_otp. destruct (_otp_store h !! key) eqn:E; [reflexivity|].
  symmetry. apply delete_id. exact E.
Qed.

Lemma invalidate_expiry_minutes h key :
  expiry_minutes (_invalidate_otp h key) = expiry_minutes h.
Proof. unfold _invalidate_otp. destruct (_ !! _); reflexivity. Qed.

Lemma invalidate_max_attempts h key :
  max_attempts (_invalidate_otp h key) = max_attempts h.
Proof. unfold _invalidate_otp. destruct (_ !! _); reflexivity. Qed.

(** C3: [verify_otp] fails closed, read as the cascade the code runs: no
    record for the key gives INVALID; a verified record gives INVALID;
    otherwise a clock past [expires_at] gives EXPIRED and the record is
    removed; otherwise [attempts >= max_attempts] gives
    MAX_ATTEMPTS_EXCEEDED and the record is removed; otherwise the stored
    counter goes up by one whatever the candidate is, and a wrong candidate
    gives INVALID with [remaining_attempts = max_attempts - attempts] for
    the counter just incremented. *)
Theorem verify_otp_fails_closed (h : OTPHandler) (now : Z)
    (identifier : string) (ch : OTPChannel) (otp : string) :
  let key := _get_storage_key identifier ch in
  let out := verify_otp _hash_otp h now identifier ch otp in
  (_otp_store h !! key = None ->
     r_verified out.1 = false /\ r_status out.1 = INVALID /\ out.2 = h) /\
  (forall record, _otp_store h !! key = Some record ->
     (verified record = true ->
        r_verified out.1 = false /\ r_status out.1 = INVALID /\ out.2 = h) /\
     (verified record = false -> expires_at record < now ->
        r_verified out.1 = false /\ r_status out.1 = EXPIRED /\
        _otp_store out.2 = delete key (_otp_store h)) /\
     (verified record = false -> now <= expires_at record ->
      max_attempts h <= attempts record ->
        r_verified out.1 = false /\ r_status out.1 = MAX_ATTEMPTS_EXCEEDED /\
        _otp_store out.2 = delete key (_otp_store h)) /\
     (verified record = false -> now <= expires_at record ->
      attempts record < max_attempts h ->
        (exists record', _otp_store out.2 !! key = Some record' /\
           attempts record' = attempts record + 1 /\
           (_hash_otp otp <> otp_hash record ->
              verified record' = false /\
              r_verified out.1 = false /\ r_status out.1 = INVALID /\
              r_remaining_attempts out.1 = Some (max_attempts h - attempts record'))))).
Proof.
  intros key out. subst out. unfold verify_otp. fold key. split.
  - intros ->. auto.
  - intros record ->. split; [|split; [|split]].
    + intros ->. auto.
    + intros -> Hexp. apply Z.ltb_lt in Hexp. rewrite Hexp. cbn.
      split; [reflexivity|]. split; [reflexivity|]. apply invalidate_store.
    + intros -> Hexp Hmax. apply Z.ltb_ge in Hexp. apply Z.leb_le in Hmax.
      rewrite Hexp, Hmax. cbn.
      split; [reflexivity|]. split; [reflexivity|]. apply invalidate_store.
    + intros Hv Hexp Hmax. apply Z.ltb_ge in Hexp. apply Z.leb_gt in Hmax.
      rewrite Hv, Hexp, Hmax. cbn [otp_hash attempts].
      case_bool_decide as Hd; cbn.
      * eexists. rewrite lookup_insert_eq. split; [reflexivity|].
        split; [reflexivity|]. intros Hne. congruence.
      * eexists. rewrite lookup_insert_eq. split; [reflexivity|].
        split; [reflexivity|]. intros _. cbn. auto.
Qed.

(** The stored record with its counter set to [a]. *)
Definition with_attempts (r : OTPRecord) (a : Z) : OTPRecord :=
  mkOTPRecord (otp_hash r) (channel r) (created_at r) (expires_at r) a (verified r).

(** What a wrong candidate gets back when the counter has reached [a]. *)
Definition wrong_result (m a : Z) : VerifyResult :=
  mkVerifyResult false INVALID
    ("Invalid OTP. " +:+ Py.str_int (m - a) +:+ " attempts remaining") (Some (m - a)).

Fixpoint wrong_results (m a : Z) (n : nat) : list VerifyResult :=
  match n with
  | O => []
  | S n' => wrong_result m (a + 1) :: wrong_results m (a + 1) n'
  end.

Lemma wrong_results_lookup m a n j r :
  wrong_results m a n !! j = Some r ->
  r = wrong_result m (a + Z.of_nat (S j)).
Proof.
  revert a j. induction n as [|n IH]; intros a j; [discriminate|].
  destruct j as [|j]; cbn [wrong_results lookup list_lookup].
  - intros [= <-]. f_equal; lia.
  - intros H. apply IH in H. subst r. f_equal; lia.
Qed.

Lemma wrong_results_length m a n : length (wrong_results m a n) = n.
Proof. revert a. induction n; intros; cbn; auto. Qed.

(** One wrong candidate inside the window and under the cap: the counter
    goes up by one and nothing else changes. *)
Lemma verify_wrong_step h now id ch otp r :
  _otp_store h !! _get_storage_key id ch = Some r ->
  verified r = false -> now <= expires_at r -> attempts r < max_attempts h ->
  _hash_otp otp <> otp_hash r ->
  verify_otp _hash_otp h now id ch otp =
    (wrong_result (max_attempts h) (attempts r + 1),
     set_store h (<[_get_storage_key id ch := with_attempts r (attempts r + 1)]>
                    (_otp_store h))).
Proof.
  intros Hl Hv Hexp Hmax Hne. unfold verify_otp. rewrite Hl, Hv.
  apply Z.ltb_ge in Hexp. apply Z.leb_gt in Hmax. rewrite Hexp, Hmax.
  cbn [otp_hash attempts]. rewrite bool_decide_eq_false_2 by exact Hne.
  unfold wrong_result, with_attempts. rewrite Hv. reflexivity.
Qed.

(** A run of wrong candidates that stays under the cap only counts. *)
Lemma verify_all_wrong calls : forall h id ch r,
  _otp_store h !! _get_storage_key id ch = Some r ->
  verified r = false ->
  attempts r + Z.of_nat (length calls) <= max_attempts h ->
  Forall (fun c => c.1 <= expires_at r /\ _hash_otp c.2 <> otp_hash r) calls ->
  verify_all _hash_otp h id ch calls =
    (wrong_results (max_attempts h) (attempts r) (length calls),
     match calls with
     | [] => h
     | _ => set_store h
              (<[_get_storage_key id ch :=
                   with_attempts r (attempts r + Z.of_nat (length calls))]>
                 (_otp_store h))
     end).
Proof.
  induction calls as [|[now otp] rest IH]; intros h id ch r Hl Hv Hle Hall.
  - reflexivity.
  - inversion Hall as [|? ? [Hexp Hne] Hrest]; subst. cbn in Hexp, Hne.
    cbn [length] in Hle. cbn [verify_all].
    rewrite (verify_wrong_step h now id ch otp r) by (auto; lia).
    set (r1 := with_attempts r (attempts r + 1)).
    set (h1 := set_store h _).
    assert (Hl1 : _otp_store h1 !! _get_storage_key id ch = Some r1)
      by (subst h1; cbn; apply lookup_insert_eq).
    rewrite (IH h1 id ch r1 Hl1) by (subst r1; cbn; auto; lia).
    cbn [wrong_results length]. f_equal.
    destruct rest as [|c rest'].
    + subst h1 r1. reflexivity.
    + subst h1 r1. unfold set_store, with_attempts. cbn -[Z.of_nat].
      rewrite insert_insert_eq. do 3 f_equal. lia.
Qed.

(** The record [generate_and_send_otp] stores. *)
Lemma issued_record h now0 code id ch cb :
  let h0 := (generate_and_send_otp _hash_otp h now0 code id ch cb).2 in
  max_attempts h0 = max_attempts h /\
  lookup_record h0 id ch =
    Some (mkOTPRecord (_hash_otp code) ch now0 (now0 + minutes (expiry_minutes h)) 0 false).
Proof.
  cbn. split; [reflexivity|]. unfold lookup_record. cbn. apply lookup_insert_eq.
Qed.

(** A verify on a key that has no record changes nothing. *)
Lemma verify_unknown h now id ch otp :
  lookup_record h id ch = None ->
  verify_otp _hash_otp h now id ch otp =
    (mkVerifyResult false INVALID "No OTP found for this identifier" None, h).
Proof. unfold lookup_record, verify_otp. intros ->. reflexivity. Qed.

(** C5, as the code has it: after [max_attempts] consecutive wrong
    candidates for an issued record, all inside the validity window, the
    [j]-th of them was answered INVALID with
    [remaining_attempts = max_attempts - j] (2, 1, 0 for the default cap
    of 3), and the record is still in the store with its counter at the
    cap: the last wrong try purges nothing.  The next verify, whatever its
    candidate, is never VERIFIED: it answers MAX_ATTEMPTS_EXCEEDED (EXPIRED
    once the clock is past the expiry) and that call removes the record;
    every verify after it answers INVALID. *)
Theorem exhausted_attempts_purged_on_next_verify
    (h : OTPHandler) (now0 : Z) (code identifier : string) (ch : OTPChannel)
    (cb : option (string -> string -> OTPChannel -> option string))
    (calls : list (Z * string)) :
  Z.of_nat (length calls) = max_attempts h ->
  Forall (fun c => c.1 <= now0 + minutes (expiry_minutes h) /\
                   _hash_otp c.2 <> _hash_otp code) calls ->
  let h0 := (generate_and_send_otp _hash_otp h now0 code identifier ch cb).2 in
  let run := verify_all _hash_otp h0 identifier ch calls in
  (forall j r, run.1 !! j = Some r ->
     r_verified r = false /\ r_status r = INVALID /\
     r_remaining_attempts r = Some (max_attempts h - Z.of_nat (S j))) /\
  length run.1 = length calls /\
  (exists record, lookup_record run.2 identifier ch = Some record /\
     attempts record = max_attempts h /\ verified record = false) /\
  (forall now otp,
     let out := verify_otp _hash_otp run.2 now identifier ch otp in
     r_verified out.1 = false /\
     r_status out.1 =
       (if now0 + minutes (expiry_minutes h) <? now then EXPIRED
        else MAX_ATTEMPTS_EXCEEDED) /\
     lookup_record out.2 identifier ch = None /\
     (forall now' otp',
        let out' := verify_otp _hash_otp out.2 now' identifier ch otp' in
        r_verified out'.1 = false /\ r_status out'.1 = INVALID /\
        out'.2 = out.2)).
Proof.
  intros Hlen Hall h0 run.
  destruct (issued_record h now0 code identifier ch cb) as [Hmax Hl0].
  fold h0 in Hmax, Hl0. set (r0 := mkOTPRecord _ _ _ _ _ _) in Hl0.
  assert (Hrun : run =
    (wrong_results (max_attempts h) 0 (length calls),
     match calls with
     | [] => h0
     | _ => set_store h0
              (<[_get_storage_key identifier ch :=
                   with_attempts r0 (0 + Z.of_nat (length calls))]>
                 (_otp_store h0))
     end)).
  { subst run. rewrite <- Hmax.
    apply (verify_all_wrong calls h0 identifier ch r0 Hl0 eq_refl).
    - cbn [attempts r0]. lia.
    - exact Hall. }
  assert (Hfin : lookup_record run.2 identifier ch =
                 Some (with_attempts r0 (max_attempts h)) /\
                 max_attempts run.2 = max_attempts h).
  { rewrite Hrun. cbn [snd]. destruct calls as [|c rest].
    - cbn [length] in Hlen. rewrite Hl0, Hmax. split; [|reflexivity].
      unfold with_attempts. subst r0. cbn. do 2 f_equal. lia.
    - unfold lookup_record. cbn [_otp_store set_store max_attempts].
      rewrite lookup_insert_eq, Hmax. split; [|reflexivity].
      do 2 f_equal. lia. }
  destruct Hfin as [Hfin Hmax1].
  split; [|split; [|split]].
  - intros j r Hj. rewrite Hrun in Hj. cbn [fst] in Hj.
    apply wrong_results_lookup in Hj. subst r. cbn.
    repeat split.
  - rewrite Hrun. cbn. apply wrong_results_length.
  - eexists. split; [exact Hfin|]. split; reflexivity.
  - intros now otp out.
    assert (Hout : r_verified out.1 = false /\
              r_status out.1 =
                (if now0 + minutes (expiry_minutes h) <? now then EXPIRED
                 else MAX_ATTEMPTS_EXCEEDED) /\
              _otp_store out.2 =
                delete (_get_storage_key identifier ch) (_otp_store run.2)).
    { subst out. unfold verify_otp. unfold lookup_record in Hfin.
      rewrite Hfin. cbn [verified with_attempts r0 expires_at attempts].
      destruct (now0 + minutes (expiry_minutes h) <? now).
      - cbn. repeat split. apply invalidate_store.
      - rewrite Hmax1, Z.leb_refl. cbn. repeat split. apply invalidate_store. }
    destruct Hout as (Hv & Hs & Hst).
    assert (Hnone : lookup_record out.2 identifier ch = None).
    { unfold lookup_record. rewrite Hst. apply lookup_delete_eq. }
    split; [exact Hv|]. split; [exact Hs|]. split; [exact Hnone|].
    intros now' otp' out'. subst out'.
    rewrite (verify_unknown _ _ _ _ _ Hnone). repeat split.
Qed.

(** C6, as the code has it: a verify that returns [verified = true] keeps
    the record in the store, with the flag set and the counter one up;
    every later verify for the key is then rejected as INVALID and changes
    nothing, so the code is never accepted twice; and a reissue
    ([generate_and_send_otp] or [resend_otp]) puts a fresh, unverified
    record in its place. *)
Theorem verified_record_kept_and_rejected
    (h : OTPHandler) (now : Z) (identifier : string) (ch : OTPChannel)
    (otp : string) :
  r_verified (verify_otp _hash_otp h now identifier ch otp).1 = true ->
  let h' := (verify_otp _hash_otp h now identifier ch otp).2 in
  (exists record,
     lookup_record h identifier ch = Some record /\
     lookup_record h' identifier ch =
       Some (mkOTPRecord (otp_hash record) (channel record) (created_at record)
               (expires_at record) (attempts record + 1) true)) /\
  (forall now' otp',
     verify_otp _hash_otp h' now' identifier ch otp' =
       (mkVerifyResult false INVALID "OTP has already been used" None, h')) /\
  (forall now' code cb,
     let fresh :=
       mkOTPRecord (_hash_otp code) ch now' (now' + minutes (expiry_minutes h)) 0 false in
     lookup_record (generate_and_send_otp _hash_otp h' now' code identifier ch cb).2
       identifier ch = Some fresh /\
     lookup_record (resend_otp _hash_otp h' now' code identifier ch cb).2
       identifier ch = Some fresh).
Proof.
  unfold verify_otp, lookup_record.
  destruct (_otp_store h !! _get_storage_key identifier ch) as [record|] eqn:Hl;
    [|discriminate].
  destruct (verified record); [discriminate|].
  destruct (expires_at record <? now); [discriminate|].
  destruct (max_attempts h <=? attempts record); [discriminate|].
  cbn [otp_hash attempts channel created_at expires_at].
  case_bool_decide; [|discriminate].
  intros _. cbn [snd _otp_store set_store]. split; [|split].
  - exists record. split; [reflexivity|]. apply lookup_insert_eq.
  - intros now' otp'. rewrite lookup_insert_eq. reflexivity.
  - intros now' code cb. split.
    + apply (issued_record (set_store h _) now' code identifier ch cb).
    + unfold resend_otp.
      destruct (issued_record
                  (_invalidate_otp (set_store h
                     (<[_get_storage_key identifier ch :=
                          mkOTPRecord (otp_hash record) (channel record)
                            (created_at record) (expires_at record)
                            (attempts record + 1) true]> (_otp_store h)))
                     (_get_storage_key identifier ch))
                  now' code identifier ch cb) as [_ Hfresh].
      rewrite invalidate_expiry_minutes in Hfresh. exact Hfresh.
Qed.

End OtpFacts.

(** Three wrong candidates inside the five minutes of the scenario. *)
Definition three_wrong : list (Z * string) :=
  [(1000, "000000"); (2000, "111111"); (3000, "222222")].

Lemma storage_key_inj_witness : phone = phone /\ SMS = SMS.
Proof. exact (storage_key_inj phone phone SMS SMS eq_refl). Defined.

(** C3 on the scenario: the record is live, so a wrong candidate is
    INVALID with two attempts left and the counter at one. *)
Lemma verify_otp_fails_closed_witness :
  exists record',
    _otp_store (verify_otp toy_digest issued 1000 phone SMS "000000").2
      !! _get_storage_key phone SMS = Some record' /\
    attempts record' = 0 + 1 /\
    (toy_digest "000000" <> toy_digest "123456" ->
     verified record' = false /\
     r_verified (verify_otp toy_digest issued 1000 phone SMS "000000").1 = false /\
     r_status (verify_otp toy_digest issued 1000 phone SMS "000000").1 = INVALID /\
     r_remaining_attempts (verify_otp toy_digest issued 1000 phone SMS "000000").1
       = Some (3 - attempts record')).
Proof.
  destruct (verify_otp_fails_closed toy_digest issued 1000 phone SMS "000000")
    as [_ H].
  destruct (H (mkOTPRecord (toy_digest "123456") SMS 0 300000000 0 false) eq_refl)
    as (_ & _ & _ & H4).
  apply H4; [reflexivity | discriminate | reflexivity].
Defined.

(** C5 refuted as stated: after exactly three wrong tries (remaining
    attempts 2, 1, 0) the record is still in the store, counter at 3;
    and a verify that comes after the five minutes, right code or not, is
    answered EXPIRED, neither INVALID nor MAX_ATTEMPTS_EXCEEDED. *)
Lemma third_wrong_try_does_not_purge :
  map r_remaining_attempts (verify_all toy_digest issued phone SMS three_wrong).1
    = [Some 2; Some 1; Some 0] /\
  lookup_record (verify_all toy_digest issued phone SMS three_wrong).2 phone SMS
    = Some (mkOTPRecord (toy_digest "123456") SMS 0 300000000 3 false) /\
  r_status (verify_otp toy_digest
              (verify_all toy_digest issued phone SMS three_wrong).2
              300000001 phone SMS "123456").1 = EXPIRED.
Proof. repeat split; reflexivity. Qed.

(** C5 on the scenario: the fourth verify, with the right code, is
    MAX_ATTEMPTS_EXCEEDED and removes the record. *)
Lemma exhausted_attempts_purged_on_next_verify_witness :
  let h3 := (verify_all toy_digest issued phone SMS three_wrong).2 in
  r_verified (verify_otp toy_digest h3 4000 phone SMS "123456").1 = false /\
  r_status (verify_otp toy_digest h3 4000 phone SMS "123456").1
    = MAX_ATTEMPTS_EXCEEDED /\
  lookup_record (verify_otp toy_digest h3 4000 phone SMS "123456").2 phone SMS
    = None.
Proof.
  assert (Hall : Forall (fun c : Z * string =>
            c.1 <= 0 + minutes (expiry_minutes new_handler) /\
            toy_digest c.2 <> toy_digest "123456") three_wrong).
  { repeat constructor; discriminate. }
  destruct (exhausted_attempts_purged_on_next_verify toy_digest new_handler 0
              "123456" phone SMS None three_wrong eq_refl Hall)
    as (_ & _ & _ & H4).
  destruct (H4 4000 "123456") as (Hv & Hs & Hn & _).
  split; [exact Hv|]. split; [exact Hs|exact Hn].
Defined.

(** C6 refuted as stated: the verify that succeeds leaves the record in
    the store, flagged as verified. *)
Lemma successful_verify_keeps_record :
  r_verified (verify_otp toy_digest issued 1000 phone SMS "123456").1 = true /\
  lookup_record (verify_otp toy_digest issued 1000 phone SMS "123456").2 phone SMS
    = Some (mkOTPRecord (toy_digest "123456") SMS 0 300000000 1 true).
Proof. split; reflexivity. Qed.

(** C6 on the scenario: the same code presented again is INVALID. *)
Lemma verified_record_kept_and_rejected_witness :
  let h1 := (verify_otp toy_digest issued 1000 phone SMS "123456").2 in
  verify_otp toy_digest h1 2000 phone SMS "123456" =
    (mkVerifyResult false INVALID "OTP has already been used" None, h1).
Proof.
  destruct (verified_record_kept_and_rejected toy_digest issued 1000 phone SMS
              "123456" eq_refl) as (_ & H & _).
  exact (H 2000 "123456").
Defined.

(** *** The rest of the handler and the dual-channel coordinator *)

(** The dictionary [get_otp_status] returns: no record, or the report on
    the record ([expires_at] as the time itself). *)
Inductive StatusReport :=
| NotFound
| Found (status : OTPStatus) (is_verified : bool)
        (attempts_used attempts_remaining : Z) (expiry : Z) (is_expired : bool).

(** [get_otp_status] *)
Definition get_otp_status (h : OTPHandler) (now : Z)
    (identifier : string) (ch : OTPChannel) : StatusReport :=
  match _otp_store h !! _get_storage_key identifier ch with
  | None => NotFound
  | Some record =>
      let is_expired := expires_at record <? now in
      Found (if is_expired then EXPIRED else PENDING) (verified record)
        (attempts record) (Z.max 0 (max_attempts h - attempts record))
        (expires_at record) is_expired
  end.

(** [_mask_identifier] *)
Definition _mask_identifier (identifier : string) (ch : OTPChannel) : string :=
  match ch with
  | SMS =>
      if 4 <? Py.len identifier
      then Py.slice_to identifier 2 +:+ "***" +:+ Py.slice_from identifier (-4)
      else "***"
  | EMAIL =>
      match Py.split_once "@" identifier with
      | Some (local, domain) =>
          if 1 <? Py.len local
          then Py.slice_to local 1 +:+ "***@" +:+ domain
          else "***@" +:+ domain
      | None => "***"
      end
  end.

(** One call of a public method that can change the store. *)
Inductive Call :=
| CallGenerate (now : Z) (otp identifier : string) (ch : OTPChannel)
    (send_callback : option (string -> string -> OTPChannel -> option string))
| CallResend (now : Z) (otp identifier : string) (ch : OTPChannel)
    (send_callback : option (string -> string -> OTPChannel -> option string))
| CallVerify (now : Z) (identifier : string) (ch : OTPChannel) (otp : string).

(** The (identifier, channel) pair a call is made for. *)
Definition target (c : Call) : string * OTPChannel :=
  match c with
  | CallGenerate _ _ identifier ch _
  | CallResend _ _ identifier ch _
  | CallVerify _ identifier ch _ => (identifier, ch)
  end.

Section Coordinator.

Variable _hash_otp : string -> string.

(** [SMSEmailOTPCoordinator.verify_dual_channel] on the coordinator's
    handler: the SMS verify first, then the email verify, each with its
    own clock reading; [fully_verified] and the two results. *)
Definition verify_dual_channel (h : OTPHandler) (now_sms now_email : Z)
    (phone_number sms_otp email email_otp : string)
    : (bool * VerifyResult * VerifyResult) * OTPHandler :=
  let '(sms_result, h1) := verify_otp _hash_otp h now_sms phone_number SMS sms_otp in
  let '(email_result, h2) := verify_otp _hash_otp h1 now_email email EMAIL email_otp in
  ((r_verified sms_result && r_verified email_result, sms_result, email_result), h2).

Definition call (h : OTPHandler) (c : Call) : OTPHandler :=
  match c with
  | CallGenerate now otp identifier ch cb =>
      (generate_and_send_otp _hash_otp h now otp identifier ch cb).2
  | CallResend now otp identifier ch cb =>
      (resend_otp _hash_otp h now otp identifier ch cb).2
  | CallVerify now identifier ch otp =>
      (verify_otp _hash_otp h now identifier ch otp).2
  end.

(** A sequence of calls, first to last. *)
Definition calls (h : OTPHandler) (cs : list Call) : OTPHandler :=
  fold_left call cs h.

Lemma storage_key_ne id1 ch1 id2 ch2 :
  (id1, ch1) <> (id2, ch2) -> _get_storage_key id1 ch1 <> _get_storage_key id2 ch2.
Proof.
  intros Hne Heq. apply Hne.
  destruct ch1, ch2; cbn in Heq; inversion Heq as [H0];
    change (id1 = id2) in H0; subst; reflexivity.
Qed.

Lemma verify_store_cases h now id ch otp :
  _otp_store (verify_otp _hash_otp h now id ch otp).2 = _otp_store h \/
  _otp_store (verify_otp _hash_otp h now id ch otp).2
    = delete (_get_storage_key id ch) (_otp_store h) \/
  exists r, _otp_store (verify_otp _hash_otp h now id ch otp).2
    = <[_get_storage_key id ch := r]> (_otp_store h).
Proof.
  unfold verify_otp. destruct (_otp_store h !! _) as [r|]; [|auto].
  destruct (verified r); [auto|].
  destruct (_ <? _); [right; left; apply invalidate_store|].
  destruct (_ <=? _); [right; left; apply invalidate_store|].
  case_bool_decide; cbn; right; right; eauto.
Qed.

Lemma verify_keeps_parameters h now id ch otp :
  max_attempts (verify_otp _hash_otp h now id ch otp).2 = max_attempts h /\
  expiry_minutes (verify_otp _hash_otp h now id ch otp).2 = expiry_minutes h.
Proof.
  unfold verify_otp. destruct (_otp_store h !! _) as [r|]; [|auto].
  destruct (verified r); [auto|].
  destruct (_ <? _); [split; [apply invalidate_max_attempts|apply invalidate_expiry_minutes]|].
  destruct (_ <=? _); [split; [apply invalidate_max_attempts|apply invalidate_expiry_minutes]|].
  case_bool_decide; cbn; auto.
Qed.

(** A record that is flagged verified rejects every candidate. *)
Lemma verify_on_verified h now id ch otp r :
  lookup_record h id ch = Some r -> verified r = true ->
  verify_otp _hash_otp h now id ch otp =
    (mkVerifyResult false INVALID "OTP has already been used" None, h).
Proof.
  unfold lookup_record, verify_otp. intros -> ->. reflexivity.
Qed.

Lemma otp_call_frame (h : OTPHandler) (c : Call) (identifier' : string) (ch' : OTPChannel) :
  target c <> (identifier', ch') ->
  lookup_record (call h c) identifier' ch' = lookup_record h identifier' ch'.
Proof.
  unfold lookup_record.
  destruct c as [now otp id ch cb|now otp id ch cb|now id ch otp];
    intros Hne; apply storage_key_ne in Hne; cbn [call].
  - cbn. apply lookup_insert_ne. exact Hne.
  - unfold resend_otp. cbn. rewrite lookup_insert_ne by exact Hne.
    rewrite invalidate_store. apply lookup_delete_ne. exact Hne.
  - destruct (verify_store_cases h now id ch otp) as [->|[->|[r ->]]].
    + reflexivity.
    + apply lookup_delete_ne. exact Hne.
    + apply lookup_insert_ne. exact Hne.
Qed.

(** Calls for one (identifier, channel) pair leave the record of every
    other pair as it is, however many there are: [verify_otp],
    [generate_and_send_otp] and [resend_otp] read and write the entry of
    their own storage key only. *)
Theorem other_keys_untouched (h : OTPHandler) (cs : list Call)
    (identifier' : string) (ch' : OTPChannel) :
  Forall (fun c => target c <> (identifier', ch')) cs ->
  lookup_record (calls h cs) identifier' ch' = lookup_record h identifier' ch'.
Proof.
  unfold calls. revert h.
  induction cs as [|c cs IH]; intros h Hall; [reflexivity|].
  inversion Hall as [|? ? Hc Hcs]; subst. cbn [fold_left].
  rewrite (IH _ Hcs). apply otp_call_frame. exact Hc.
Qed.


(** A code that was issued is accepted the first time it is presented
    inside its validity window, also after wrong candidates, as long as
    fewer than [max_attempts] of them came first; the record then holds
    one attempt per call and the verified flag. *)
Theorem issued_code_accepted_after_wrong_tries
    (h : OTPHandler) (now0 : Z) (code identifier : string) (ch : OTPChannel)
    (cb : option (string -> string -> OTPChannel -> option string))
    (wrong : list (Z * string)) (now : Z) :
  Z.of_nat (length wrong) < max_attempts h ->
  Forall (fun c => c.1 <= now0 + minutes (expiry_minutes h) /\
                   _hash_otp c.2 <> _hash_otp code) wrong ->
  now <= now0 + minutes (expiry_minutes h) ->
  let h0 := (generate_and_send_otp _hash_otp h now0 code identifier ch cb).2 in
  let h1 := (verify_all _hash_otp h0 identifier ch wrong).2 in
  let out := verify_otp _hash_otp h1 now identifier ch code in
  r_verified out.1 = true /\ r_status out.1 = VERIFIED /\
  lookup_record out.2 identifier ch =
    Some (mkOTPRecord (_hash_otp code) ch now0 (now0 + minutes (expiry_minutes h))
            (Z.of_nat (length wrong) + 1) true).
Proof.
  intros Hlen Hall Hnow h0 h1 out.
  destruct (issued_record _hash_otp h now0 code identifier ch cb) as [Hmax Hl0].
  fold h0 in Hmax, Hl0. set (r0 := mkOTPRecord _ _ _ _ _ _) in Hl0.
  assert (Hrun : lookup_record h1 identifier ch
                   = Some (with_attempts r0 (Z.of_nat (length wrong))) /\
                 max_attempts h1 = max_attempts h).
  { subst h1.
    rewrite (verify_all_wrong _hash_otp wrong h0 identifier ch r0 Hl0 eq_refl)
      by (rewrite ?Hmax; cbn [attempts r0]; auto; lia).
    cbn [snd]. destruct wrong as [|c rest].
    - rewrite Hl0, Hmax. auto.
    - unfold lookup_record. cbn [set_store _otp_store max_attempts].
      rewrite lookup_insert_eq, Hmax. auto. }
  destruct Hrun as [Hl1 Hmax1]. subst out. unfold verify_otp, lookup_record.
  unfold lookup_record in Hl1. rewrite Hl1.
  cbn [verified with_attempts r0 expires_at attempts otp_hash channel created_at].
  apply Z.ltb_ge in Hnow. rewrite Hnow.
  rewrite Hmax1. apply Z.leb_gt in Hlen. rewrite Hlen.
  rewrite bool_decide_eq_true_2 by reflexivity. cbn.
  rewrite lookup_insert_eq. auto.
Qed.

(** What every stored record satisfies in a handler with parameters
    [m] (the attempt cap) and [e] (minutes of validity). *)
Definition record_ok (m e : Z) (key : string) (r : OTPRecord) : Prop :=
  0 <= attempts r <= m /\
  (verified r = true -> 1 <= attempts r) /\
  expires_at r = created_at r + minutes e /\
  exists identifier, key = _get_storage_key identifier (channel r).

Definition store_ok (m e : Z) (h : OTPHandler) : Prop :=
  max_attempts h = m /\ expiry_minutes h = e /\
  forall key r, _otp_store h !! key = Some r -> record_ok m e key r.

Lemma call_keeps_store_ok m e h c :
  0 <= m -> store_ok m e h -> store_ok m e (call h c).
Proof.
  intros Hm (Hmax & Hexp & Hst).
  assert (Hgen : forall h' now otp id ch cb, store_ok m e h' ->
            store_ok m e (generate_and_send_otp _hash_otp h' now otp id ch cb).2).
  { intros h' now otp id ch cb (Hmax' & Hexp' & Hst'). cbn.
    split; [exact Hmax'|]. split; [exact Hexp'|].
    intros key r. cbn [generate_and_send_otp snd set_store _otp_store].
    destruct (decide (key = _get_storage_key id ch)) as [->|Hk].
    - rewrite lookup_insert_eq. intros [= <-]. unfold record_ok. cbn.
      rewrite Hexp'. split; [lia|]. split; [discriminate|]. eauto.
    - rewrite lookup_insert_ne by congruence. apply Hst'. }
  assert (Hinv : forall key, store_ok m e (_invalidate_otp h key)).
  { intros key. split; [rewrite invalidate_max_attempts; exact Hmax|].
    split; [rewrite invalidate_expiry_minutes; exact Hexp|].
    intros key' r. rewrite invalidate_store. intros Hl.
    apply lookup_delete_Some in Hl as [_ Hl]. exact (Hst _ _ Hl). }
  destruct c as [now otp id ch cb|now otp id ch cb|now id ch otp]; cbn [call].
  - apply Hgen. split; auto.
  - unfold resend_otp. apply Hgen, Hinv.
  - unfold verify_otp.
    destruct (_otp_store h !! _get_storage_key id ch) as [r|] eqn:Hl;
      [|split; auto].
    destruct (verified r) eqn:Hv; [split; auto|].
    destruct (_ <? _); [apply Hinv|].
    destruct (max_attempts h <=? attempts r) eqn:Hcap; [apply Hinv|].
    apply Z.leb_gt in Hcap. destruct (Hst _ _ Hl) as (Ha & _ & He & Hk).
    cbn [otp_hash attempts channel created_at expires_at verified].
    case_bool_decide; (split; [exact Hmax|]); (split; [exact Hexp|]);
      intros key r'; cbn [snd set_store _otp_store];
      (destruct (decide (key = _get_storage_key id ch)) as [->|Hne];
        [rewrite lookup_insert_eq; intros [= <-]; unfold record_ok; cbn;
           repeat split; auto; try lia; try congruence
        |rewrite lookup_insert_ne by congruence; apply Hst]).
Qed.

Lemma calls_keep_store_ok m e cs : forall h,
  0 <= m -> store_ok m e h -> store_ok m e (calls h cs).
Proof.
  unfold calls. induction cs as [|c cs IH]; intros h Hm Hok; [exact Hok|].
  cbn [fold_left]. apply IH; [exact Hm|]. apply call_keeps_store_ok; auto.
Qed.

(** In a handler that started with an empty store and a cap
    [max_attempts >= 0], whatever calls were made since, every stored
    record has between 0 and [max_attempts] attempts (at least one when
    it is flagged verified), belongs to the channel it is filed under and
    expires [expiry_minutes] after its creation; so [get_otp_status]
    reports [attempts_used + attempts_remaining = max_attempts]. *)
Theorem attempts_within_cap (h : OTPHandler) (cs : list Call)
    (identifier : string) (ch : OTPChannel) (r : OTPRecord) (now : Z) :
  _otp_store h = ∅ -> 0 <= max_attempts h ->
  lookup_record (calls h cs) identifier ch = Some r ->
  0 <= attempts r <= max_attempts h /\
  (verified r = true -> 1 <= attempts r) /\
  channel r = ch /\
  expires_at r = created_at r + minutes (expiry_minutes h) /\
  exists st e x,
    get_otp_status (calls h cs) now identifier ch
      = Found st (verified r) (attempts r) (max_attempts h - attempts r) e x.
Proof.
  intros Hempty Hm Hl.
  assert (Hok : store_ok (max_attempts h) (expiry_minutes h) (calls h cs)).
  { apply calls_keep_store_ok; [exact Hm|].
    split; [reflexivity|]. split; [reflexivity|].
    intros key r'. rewrite Hempty, lookup_empty. discriminate. }
  destruct Hok as (Hmax & _ & Hst). unfold lookup_record in Hl.
  destruct (Hst _ _ Hl) as (Ha & Hv & He & id' & Hk).
  split; [exact Ha|]. split; [exact Hv|]. split.
  { destruct ch, (channel r); cbn in Hk; inversion Hk; reflexivity. }
  split; [exact He|].
  unfold get_otp_status. rewrite Hl, Hmax. do 3 eexists.
  rewrite Z.max_r by lia. reflexivity.
Qed.

(** A dual-channel verification in which the SMS code was right and the
    email code was not is lost for good: the SMS record is spent, so no
    later [verify_dual_channel] for the same phone number is fully
    verified, whatever codes it presents, until the SMS code is
    reissued. *)
Theorem dual_channel_partial_failure_spends_sms
    (h : OTPHandler) (now_sms now_email : Z)
    (phone_number sms_otp email email_otp : string) :
  let out := verify_dual_channel h now_sms now_email phone_number sms_otp email email_otp in
  r_verified out.1.1.2 = true -> r_verified out.1.2 = false ->
  out.1.1.1 = false /\
  forall now_sms' now_email' sms_otp' email' email_otp',
    (verify_dual_channel out.2 now_sms' now_email' phone_number sms_otp'
       email' email_otp').1.1.1 = false.
Proof.
  unfold verify_dual_channel.
  destruct (verify_otp _hash_otp h now_sms phone_number SMS sms_otp)
    as [sms_result h1] eqn:Hsms.
  destruct (verify_otp _hash_otp h1 now_email email EMAIL email_otp)
    as [email_result h2] eqn:Hemail.
  cbn [fst snd]. intros Hs He. rewrite Hs, He. split; [reflexivity|].
  assert (Hrec : exists r, lookup_record h2 phone_number SMS = Some r /\
                           verified r = true).
  { assert (H1 : exists r, lookup_record h1 phone_number SMS = Some r /\
                           verified r = true).
    { replace h1 with (verify_otp _hash_otp h now_sms phone_number SMS sms_otp).2
        by (rewrite Hsms; reflexivity).
      replace sms_result
        with (verify_otp _hash_otp h now_sms phone_number SMS sms_otp).1 in Hs
        by (rewrite Hsms; reflexivity).
      clear Hsms Hemail. revert Hs. unfold verify_otp, lookup_record.
      destruct (_otp_store h !! _) as [r|]; [|discriminate].
      destruct (verified r); [discriminate|].
      destruct (_ <? _); [discriminate|]. destruct (_ <=? _); [discriminate|].
      case_bool_decide; [|discriminate]. intros _. cbn.
      rewrite lookup_insert_eq. eauto. }
    destruct H1 as (r & Hl & Hv). exists r. split; [|exact Hv].
    replace h2 with (call h1 (CallVerify now_email email EMAIL email_otp))
      by (cbn; rewrite Hemail; reflexivity).
    rewrite <- Hl. apply otp_call_frame. cbn. congruence. }
  destruct Hrec as (r & Hl & Hv).
  intros now_sms' now_email' sms_otp' email' email_otp'.
  rewrite (verify_on_verified h2 now_sms' phone_number SMS sms_otp' r Hl Hv).
  destruct (verify_otp _hash_otp h2 now_email' email' EMAIL email_otp')
    as [email_result' h3].
  reflexivity.
Qed.

End Coordinator.

Lemma other_keys_untouched_witness :
  lookup_record
    (calls toy_digest issued
       [CallVerify 1000 phone EMAIL "123456";
        CallGenerate 2000 "654321" "+905550000000" SMS None;
        CallResend 3000 "111111" "a@b.c" EMAIL None]) phone SMS
    = lookup_record issued phone SMS.
Proof.
  apply (other_keys_untouched toy_digest issued).
  repeat constructor; discriminate.
Defined.

Lemma issued_code_accepted_after_wrong_tries_witness :
  let h1 := (verify_all toy_digest issued phone SMS
               [(1000, "000000"); (2000, "111111")]).2 in
  r_verified (verify_otp toy_digest h1 3000 phone SMS "123456").1 = true /\
  r_status (verify_otp toy_digest h1 3000 phone SMS "123456").1 = VERIFIED /\
  lookup_record (verify_otp toy_digest h1 3000 phone SMS "123456").2 phone SMS =
    Some (mkOTPRecord (toy_digest "123456") SMS 0 (0 + minutes 5) (2 + 1) true).
Proof.
  apply (issued_code_accepted_after_wrong_tries toy_digest new_handler 0 "123456"
           phone SMS None [(1000, "000000"); (2000, "111111")] 3000).
  - reflexivity.
  - repeat constructor; discriminate.
  - discriminate.
Defined.

Lemma attempts_within_cap_witness :
  let r := mkOTPRecord (toy_digest "123456") SMS 0 300000000 1 false in
  let cs := [CallGenerate 0 "123456" phone SMS None;
             CallVerify 1000 phone SMS "000000"] in
  0 <= attempts r <= max_attempts new_handler /\
  (verified r = true -> 1 <= attempts r) /\
  channel r = SMS /\
  expires_at r = created_at r + minutes (expiry_minutes new_handler) /\
  exists st e x,
    get_otp_status (calls toy_digest new_handler cs) 2000 phone SMS
      = Found st (verified r) (attempts r) (max_attempts new_handler - attempts r) e x.
Proof.
  intros r cs.
  apply (attempts_within_cap toy_digest new_handler cs phone SMS r 2000).
  - reflexivity.
  - discriminate.
  - reflexivity.
Defined.

(** A handler holding a code for each channel. *)
Definition both_issued : OTPHandler :=
  calls toy_digest new_handler
    [CallGenerate 0 "123456" phone SMS None;
     CallGenerate 0 "654321" "user@example.com" EMAIL None].

Lemma dual_channel_partial_failure_spends_sms_witness :
  let out := verify_dual_channel toy_digest both_issued 1000 1000
               phone "123456" "user@example.com" "000000" in
  out.1.1.1 = false /\
  (verify_dual_channel toy_digest out.2 2000 2000
     phone "123456" "user@example.com" "654321").1.1.1 = false.
Proof.
  intros out.
  destruct (dual_channel_partial_failure_spends_sms toy_digest both_issued 1000 1000
              phone "123456" "user@example.com" "000000" eq_refl eq_refl)
    as [H1 H2].
  split; [exact H1|]. apply H2.
Defined.

(** For SMS the mask shows the first two and the last four characters
    around three stars, nine characters in all, whenever the identifier
    has more than four; an identifier of five or six characters can so be
    read back in full from its mask. *)
Theorem sms_mask_shows_short_identifiers (identifier : string) :
  Py.is_ascii identifier = true ->
  4 < Py.len identifier <= 6 ->
  Py.len (_mask_identifier identifier SMS) = 9 /\
  identifier =
    Py.slice_to (_mask_identifier identifier SMS) 2 +:+
    Py.slice_from (_mask_identifier identifier SMS) (11 - Py.len identifier).
Proof.
  intros _ Hlen. unfold Py.len in Hlen.
  destruct identifier as [|c1 [|c2 [|c3 [|c4 [|c5 [|c6 [|c7 rest]]]]]]];
    cbn [String.length] in Hlen; try lia.
  - split; reflexivity.
  - split; reflexivity.
Qed.

Lemma sms_mask_shows_short_identifiers_witness :
  Py.len (_mask_identifier "12345" SMS) = 9 /\
  "12345" =
    Py.slice_to (_mask_identifier "12345" SMS) 2 +:+
    Py.slice_from (_mask_identifier "12345" SMS) (11 - Py.len "12345").
Proof.
  apply (sms_mask_shows_short_identifiers "12345"); [reflexivity|].
  split; [reflexivity|discriminate].
Defined.

Example mask_examples :
  _mask_identifier phone SMS = "+9***4567" /\
  _mask_identifier "12345" SMS = "12***2345" /\
  _mask_identifier "1234" SMS = "***" /\
  _mask_identifier "user@example.com" EMAIL = "u***@example.com" /\
  _mask_identifier "u@example.com" EMAIL = "***@example.com" /\
  _mask_identifier "a@b@c" EMAIL = "***@b@c" /\
  _mask_identifier "nobody" EMAIL = "***".
Proof. repeat split; reflexivity. Qed.

End OtpHandler.

(** ** core/proxy_manager.py *)

Module ProxyManager.

(** [@dataclass Proxy] *)
Record Proxy := mkProxy {
  host : string;
  port : Z;
  username : string;
  password : string
}.

(** [Proxy.__str__]: [f"{self.host}:{self.port}"] *)
Definition proxy_str (p : Proxy) : string :=
  host p +:+ ":" +:+ Py.str_int (port p).

(** The fields of [ProxyManager.__init__]. *)
Record ProxyManager := mkProxyManager {
  api_url : string;
  proxies : list Proxy;
  country_proxy_index : gmap string Z;
  used_proxies : gmap string (list string)
}.

Definition new_manager (url : string) : ProxyManager :=
  mkProxyManager url [] ∅ ∅.

Definition set_proxies (pm : ProxyManager) (ps : list Proxy) : ProxyManager :=
  mkProxyManager (api_url pm) ps (country_proxy_index pm) (used_proxies pm).

Definition set_index (pm : ProxyManager) (m : gmap string Z) : ProxyManager :=
  mkProxyManager (api_url pm) (proxies pm) m (used_proxies pm).

Definition set_used (pm : ProxyManager) (m : gmap string (list string)) : ProxyManager :=
  mkProxyManager (api_url pm) (proxies pm) (country_proxy_index pm) m.

(** What [await client.get(self.api_url)] can do: raise an [Exception]
    (connection error, timeout), raise something that is no [Exception]
    ([asyncio.CancelledError], [KeyboardInterrupt]), or answer with a
    status code and a body.  Opening and closing the client are taken not
    to raise. *)
Inductive HttpOutcome :=
| HttpRaises
| HttpCancelled
| HttpResponse (status_code : Z) (text : string).

(** How a call of [fetch_proxies] ends: it returns its [bool], or what was
    raised passes the [except Exception] clause and reaches the caller. *)
Inductive FetchResult :=
| FetchReturns (ok : bool)
| FetchPropagates.

Definition LF : ascii := ascii_of_nat 10.

(** The [for line in lines] loop of [fetch_proxies] over the pool built
    so far.  The flag says that [int(parts[1])] raised: the loop stops
    there, with the pool as the lines before it left it. *)
Fixpoint parse_lines (lines : list string) (pool : list Proxy) : list Proxy * bool :=
  match lines with
  | [] => (pool, false)
  | line :: rest =>
      let line := Py.strip line in
      if bool_decide (line = "") then parse_lines rest pool
      else
        match Py.split ":" line with
        | p0 :: p1 :: p2 :: p3 :: _ =>
            match Py.int p1 with
            | Some n => parse_lines rest (pool ++ [mkProxy p0 n p2 p3])
            | None => (pool, true)
            end
        | _ => parse_lines rest pool
        end
  end.

(** [fetch_proxies]: how it ends and the manager it leaves.  A status
    other than 200 returns before the pool is touched; after that
    [self.proxies = []] runs before any line is read, and the [except]
    clause returns [False] with the pool as it stands. *)
Definition fetch_proxies (pm : ProxyManager) (answer : HttpOutcome)
    : FetchResult * ProxyManager :=
  match answer with
  | HttpRaises => (FetchReturns false, pm)
  | HttpCancelled => (FetchPropagates, pm)
  | HttpResponse status_code text =>
      if negb (status_code =? 200) then (FetchReturns false, pm)
      else
        let pm0 := set_proxies pm [] in
        let lines := Py.split LF (Py.strip text) in
        let '(pool, raised) := parse_lines lines (proxies pm0) in
        if raised then (FetchReturns false, set_proxies pm pool)
        else (FetchReturns (0 <? Z.of_nat (length pool)), set_proxies pm pool)
  end.

(** What a line of the body adds to the pool, in the words of the claim:
    nothing when it has fewer than four [:]-separated fields, and the
    proxy of its first four fields when it has them and the second reads
    as a port number. *)
Inductive line_gives : string -> list Proxy -> Prop :=
| short_line (line : string) :
    (length (Py.split ":" (Py.strip line)) < 4)%nat ->
    line_gives line []
| record_line (line p0 p1 p2 p3 : string) (more : list string) (n : Z) :
    Py.split ":" (Py.strip line) = p0 :: p1 :: p2 :: p3 :: more ->
    Py.int p1 = Some n ->
    line_gives line [mkProxy p0 n p2 p3].

(** The fixed ordering of known tenant keys. *)
Definition country_codes : list string :=
  ["fra"; "dnk"; "hrv"; "cze"; "nld"; "lux"; "bel"; "swe"; "ltu"; "fin"; "bgr"].

(** [country_codes.index(country_code)], 0 on [ValueError]. *)
Definition offset_of (country_code : string) : Z :=
  match Py.index country_code country_codes with
  | Some i => i
  | None => 0
  end.

(** [get_proxy_for_country] *)
Definition get_proxy_for_country (pm : ProxyManager) (country_code : string)
    : Py.result (option Proxy) * ProxyManager :=
  if negb (Py.truthy (proxies pm)) then (Py.Ok None, pm)
  else
    let pm1 :=
      match country_proxy_index pm !! country_code with
      | None =>
          let offset := offset_of country_code in
          let pm' := set_index pm
            (<[country_code := offset `mod` Z.of_nat (length (proxies pm))]>
               (country_proxy_index pm)) in
          set_used pm' (<[country_code := []]> (used_proxies pm'))
      | Some _ => pm
      end in
    match country_proxy_index pm1 !! country_code with
    | None => (Py.Raise Py.KeyError, pm1)
    | Some index =>
        match Py.getitem (proxies pm1) index with
        | None => (Py.Raise Py.IndexError, pm1)
        | Some proxy => (Py.Ok (Some proxy), pm1)
        end
    end.

(** [rotate_proxy_for_country] *)
Definition rotate_proxy_for_country (pm : ProxyManager) (country_code : string)
    : Py.result (option Proxy) * ProxyManager :=
  if negb (Py.truthy (proxies pm)) then (Py.Ok None, pm)
  else
    match country_proxy_index pm !! country_code with
    | None => get_proxy_for_country pm country_code
    | Some current_index =>
        match Py.getitem (proxies pm) current_index with
        | None => (Py.Raise Py.IndexError, pm)
        | Some current_proxy =>
            let pm1 :=
              match used_proxies pm !! country_code with
              | None => set_used pm (<[country_code := []]> (used_proxies pm))
              | Some _ => pm
              end in
            let history := default [] (used_proxies pm1 !! country_code) in
            let pm2 := set_used pm1
              (<[country_code := history ++ [proxy_str current_proxy]]>
                 (used_proxies pm1)) in
            let next_index := (current_index + 1) `mod` Z.of_nat (length (proxies pm)) in
            let pm3 := set_index pm2
              (<[country_code := next_index]> (country_proxy_index pm2)) in
            match Py.getitem (proxies pm3) next_index with
            | None => (Py.Raise Py.IndexError, pm3)
            | Some proxy => (Py.Ok (Some proxy), pm3)
            end
        end
    end.

(** [reset_country_rotation] *)
Definition reset_country_rotation (pm : ProxyManager) (country_code : string)
    : ProxyManager :=
  set_used (set_index pm (delete country_code (country_proxy_index pm)))
    (delete country_code (used_proxies pm)).

(** [n] successive [rotate_proxy_for_country] calls for one tenant: what
    each returned, in call order, and the manager they leave. *)
Fixpoint rotate_times (n : nat) (pm : ProxyManager) (country_code : string)
    : list (Py.result (option Proxy)) * ProxyManager :=
  match n with
  | O => ([], pm)
  | S n' =>
      let '(r, pm1) := rotate_proxy_for_country pm country_code in
      let '(rs, pm2) := rotate_times n' pm1 country_code in
      (r :: rs, pm2)
  end.

(** The history of a tenant, empty when it has none. *)
Definition history (pm : ProxyManager) (country_code : string) : list string :=
  default [] (used_proxies pm !! country_code).

(** A pool of three identities for the scenarios. *)
Definition pool3 : list Proxy :=
  [mkProxy "10.0.0.1" 8001 "u1" "p1";
   mkProxy "10.0.0.2" 8002 "u2" "p2";
   mkProxy "10.0.0.3" 8003 "u3" "p3"].

Definition manager3 : ProxyManager := set_proxies (new_manager "https://proxy.example/list") pool3.

#[global] Instance proxy_inhabited : Inhabited Proxy := populate (mkProxy "" 0 "" "").

(** The pool entry at an index already reduced modulo the pool size. *)
Definition nth_proxy (pm : ProxyManager) (i : Z) : Proxy :=
  proxies pm !!! Z.to_nat i.

(** *** Properties of the identity rotator *)

Lemma getitem_in_range {A} `{Inhabited A} (l : list A) (i : Z) :
  0 <= i < Z.of_nat (length l) -> Py.getitem l i = Some (l !!! Z.to_nat i).
Proof.
  intros Hi. unfold Py.getitem.
  replace (0 <=? i) with true by (symmetry; apply Z.leb_le; lia).
  replace (i <? Z.of_nat (length l)) with true by (symmetry; apply Z.ltb_lt; lia).
  cbn. apply list_lookup_lookup_total_lt. lia.
Qed.

Lemma truthy_nonempty {A} (l : list A) : l <> [] -> Py.truthy l = true.
Proof. destruct l; [congruence|reflexivity]. Qed.

Lemma pool_size_pos (pm : ProxyManager) :
  proxies pm <> [] -> 0 < Z.of_nat (length (proxies pm)).
Proof. destruct (proxies pm); [congruence|cbn; lia]. Qed.

(** Lines that do not split into four fields add nothing to the pool. *)
Lemma parse_lines_short lines : forall pool,
  Forall (fun line => (length (Py.split ":" (Py.strip line)) < 4)%nat) lines ->
  parse_lines lines pool = (pool, false).
Proof.
  induction lines as [|line rest IH]; intros pool Hall; [reflexivity|].
  inversion Hall as [|? ? Hshort Hrest]; subst. cbn [parse_lines].
  case_bool_decide; [apply IH; exact Hrest|].
  destruct (Py.split ":" (Py.strip line)) as [|p0 [|p1 [|p2 [|p3 ps]]]];
    try (apply IH; exact Hrest).
  cbn in Hshort. lia.
Qed.

(** The loop over lines that each give their share: no [int] raises, and
    the pool grows by the shares in the order of the lines. *)
Lemma parse_lines_gives lines shares :
  Forall2 line_gives lines shares ->
  forall pool, parse_lines lines pool = (pool ++ concat shares, false).
Proof.
  induction 1 as [|line share lines shares Hline _ IH]; intros pool.
  - cbn. rewrite app_nil_r. reflexivity.
  - cbn [parse_lines concat]. destruct Hline as [line Hshort|line p0 p1 p2 p3 more n Hs Hn].
    + cbn [app]. case_bool_decide; [apply IH|].
      destruct (Py.split ":" (Py.strip line)) as [|q0 [|q1 [|q2 [|q3 qs]]]];
        try apply IH.
      cbn in Hshort. lia.
    + case_bool_decide as He; [rewrite He in Hs; discriminate Hs|].
      rewrite Hs, Hn, IH, <- app_assoc. reflexivity.
Qed.

Lemma truthy_length {A} (l : list A) : (0 <? Z.of_nat (length l)) = Py.truthy l.
Proof. destruct l; reflexivity. Qed.

(** C4, as the code has it: the pool is left untouched when the request
    raises or the status is not 200, with [False] returned unless what
    was raised is no [Exception], which reaches the caller.  A 200 answer
    drops the previous pool before the body is read: what the pool holds
    afterwards does not depend on what it held before; a body without a
    single line of four [:]-separated fields (the empty body among them)
    returns [False] and leaves the pool empty; in an ASCII body whose
    lines have fewer than four fields or a port that reads as a number,
    each line of fewer than four fields is passed over by itself and the
    pool becomes the proxies of the other lines, in their order; and
    [True] is returned only with a non-empty new pool. *)
Theorem fetch_proxies_rebuilds_pool (pm : ProxyManager) :
  fetch_proxies pm HttpRaises = (FetchReturns false, pm) /\
  fetch_proxies pm HttpCancelled = (FetchPropagates, pm) /\
  (forall status text, status <> 200 ->
     fetch_proxies pm (HttpResponse status text) = (FetchReturns false, pm)) /\
  (forall pm' text,
     (fetch_proxies pm (HttpResponse 200 text)).1
       = (fetch_proxies pm' (HttpResponse 200 text)).1 /\
     proxies (fetch_proxies pm (HttpResponse 200 text)).2
       = proxies (fetch_proxies pm' (HttpResponse 200 text)).2) /\
  (forall text,
     Forall (fun line => (length (Py.split ":" (Py.strip line)) < 4)%nat)
       (Py.split LF (Py.strip text)) ->
     fetch_proxies pm (HttpResponse 200 text)
       = (FetchReturns false, set_proxies pm [])) /\
  (forall text shares,
     Py.is_ascii text = true ->
     Forall2 line_gives (Py.split LF (Py.strip text)) shares ->
     fetch_proxies pm (HttpResponse 200 text)
       = (FetchReturns (Py.truthy (concat shares)), set_proxies pm (concat shares))) /\
  (forall answer,
     (fetch_proxies pm answer).1 = FetchReturns true ->
     proxies (fetch_proxies pm answer).2 <> [] /\
     exists text, answer = HttpResponse 200 text).
Proof.
  split; [reflexivity|]. split; [reflexivity|]. split; [|split; [|split; [|split]]].
  - intros status text Hne. cbn. apply Z.eqb_neq in Hne. rewrite Hne. reflexivity.
  - intros pm' text. cbn.
    destruct (parse_lines _ _) as [pool [|]]; cbn; auto.
  - intros text Hall. cbn. rewrite (parse_lines_short _ _ Hall). reflexivity.
  - intros text shares _ Hall. cbn.
    rewrite (parse_lines_gives _ _ Hall). cbn [app].
    rewrite truthy_length. reflexivity.
  - intros [| |status text]; cbn; [discriminate|discriminate|].
    destruct (status =? 200) eqn:Hs; cbn; [|discriminate].
    apply Z.eqb_eq in Hs. subst status.
    destruct (parse_lines _ _) as [pool [|]]; cbn; [discriminate|].
    intros Hpos. split; [|eauto]. destruct pool; [discriminate|congruence].
Qed.

(** A second [get_proxy_for_country] finds the state the first one
    left and answers from it. *)
Lemma get_proxy_idempotent (pm : ProxyManager) (c : string) :
  get_proxy_for_country (get_proxy_for_country pm c).2 c
    = get_proxy_for_country pm c.
Proof.
  unfold get_proxy_for_country.
  destruct (Py.truthy (proxies pm)) eqn:Ht; cbn [negb].
  2: { cbn. rewrite Ht. reflexivity. }
  destruct (country_proxy_index pm !! c) as [i|] eqn:Hi.
  - rewrite Hi. destruct (Py.getitem (proxies pm) i) eqn:Hg; cbn;
      rewrite Ht, Hi; cbn; rewrite Hi, Hg; reflexivity.
  - cbn. rewrite lookup_insert_eq.
    destruct (Py.getitem (proxies pm) _) eqn:Hg; cbn;
      rewrite Ht; cbn; rewrite lookup_insert_eq; cbn;
      rewrite lookup_insert_eq, Hg; reflexivity.
Qed.

(** One rotation of a tenant that holds an index inside the pool. *)
Lemma rotate_step (pm : ProxyManager) (c : string) (i : Z) :
  proxies pm <> [] ->
  country_proxy_index pm !! c = Some i ->
  0 <= i < Z.of_nat (length (proxies pm)) ->
  let k := Z.of_nat (length (proxies pm)) in
  let out := rotate_proxy_for_country pm c in
  out.1 = Py.Ok (Some (nth_proxy pm ((i + 1) `mod` k))) /\
  proxies out.2 = proxies pm /\
  country_proxy_index out.2 !! c = Some ((i + 1) `mod` k) /\
  history out.2 c = history pm c ++ [proxy_str (nth_proxy pm i)].
Proof.
  intros Hne Hi Hrange k out. subst out. unfold rotate_proxy_for_country.
  rewrite (truthy_nonempty _ Hne), Hi. cbn [negb].
  rewrite (getitem_in_range _ _ Hrange).
  assert (Hnext : 0 <= (i + 1) `mod` k < k)
    by (apply Z.mod_pos_bound; apply pool_size_pos; exact Hne).
  unfold history, nth_proxy.
  destruct (used_proxies pm !! c) as [hist|] eqn:Hu; cbn; fold k.
  - rewrite Hu. cbn.
    rewrite (getitem_in_range (proxies pm) _ Hnext). cbn.
    rewrite !lookup_insert_eq. cbn. auto.
  - rewrite lookup_insert_eq. cbn.
    rewrite (getitem_in_range (proxies pm) _ Hnext). cbn.
    rewrite !lookup_insert_eq. cbn. auto.
Qed.

(** [n] rotations walk the pool cyclically and log what they leave. *)
Lemma rotate_times_spec (n : nat) : forall (pm : ProxyManager) (c : string) (i : Z),
  proxies pm <> [] ->
  country_proxy_index pm !! c = Some i ->
  0 <= i < Z.of_nat (length (proxies pm)) ->
  let k := Z.of_nat (length (proxies pm)) in
  let run := rotate_times n pm c in
  run.1 = map (fun j : nat => Py.Ok (Some (nth_proxy pm ((i + Z.of_nat (S j)) `mod` k))))
            (seq 0 n) /\
  proxies run.2 = proxies pm /\
  country_proxy_index run.2 !! c = Some ((i + Z.of_nat n) `mod` k) /\
  history run.2 c =
    history pm c ++
    map (fun j : nat => proxy_str (nth_proxy pm ((i + Z.of_nat j) `mod` k))) (seq 0 n).
Proof.
  induction n as [|n IH]; intros pm c i Hne Hi Hrange k run.
  - subst run. cbn. rewrite app_nil_r, Z.add_0_r, Z.mod_small by exact Hrange.
    auto.
  - subst run. cbn [rotate_times].
    destruct (rotate_step pm c i Hne Hi Hrange) as (Hr & Hp & Hi1 & Hh).
    destruct (rotate_proxy_for_country pm c) as [r pm1]. cbn [fst snd] in *.
    fold k in Hr, Hi1.
    assert (Hk : 0 < k) by (apply pool_size_pos; exact Hne).
    assert (Hne1 : proxies pm1 <> []) by (rewrite Hp; exact Hne).
    assert (Hrange1 : 0 <= (i + 1) `mod` k < Z.of_nat (length (proxies pm1)))
      by (rewrite Hp; apply Z.mod_pos_bound; exact Hk).
    destruct (IH pm1 c _ Hne1 Hi1 Hrange1) as (Hrs & Hp2 & Hi2 & Hh2).
    destruct (rotate_times n pm1 c) as [rs pm2]. cbn [fst snd] in *.
    rewrite Hp in Hrs, Hi2, Hh2. fold k in Hrs, Hi2, Hh2.
    assert (Hshift : forall m : nat,
              ((i + 1) `mod` k + Z.of_nat m) `mod` k = (i + Z.of_nat (S m)) `mod` k).
    { intros m. rewrite Z.add_mod_idemp_l by lia. f_equal. lia. }
    split; [|split; [|split]].
    + cbn [seq map]. rewrite Hr, Hrs. change (Z.of_nat 1) with 1. f_equal.
      rewrite <- seq_shift, map_map. apply map_ext. intros j.
      unfold nth_proxy. rewrite Hp, Hshift. reflexivity.
    + rewrite Hp2. exact Hp.
    + rewrite Hi2, Hshift. reflexivity.
    + rewrite Hh2, Hh, <- app_assoc. f_equal. cbn [seq map app].
      change (Z.of_nat 0) with 0.
      rewrite Z.add_0_r, (Z.mod_small i) by exact Hrange. f_equal.
      rewrite <- seq_shift, map_map. apply map_ext. intros j.
      unfold nth_proxy. rewrite Hp, Hshift. reflexivity.
Qed.

(** C8: over a fixed non-empty pool of size [k], a second
    [get_proxy_for_country] for a tenant returns what the first returned
    and changes nothing; and for a tenant assigned index [i], the results
    of [n] successive rotations are the pool entries at
    [(i + 1) mod k], ..., [(i + n) mod k], the tenant's index ends at
    [(i + n) mod k], each rotation appends the identity it leaves to the
    tenant's history, and after [k] rotations the tenant is back on the
    proxy it started from. *)
Theorem rotation_deterministic (pm : ProxyManager) (c : string) :
  proxies pm <> [] ->
  let k := Z.of_nat (length (proxies pm)) in
  get_proxy_for_country (get_proxy_for_country pm c).2 c
    = get_proxy_for_country pm c /\
  (forall i, country_proxy_index pm !! c = Some i -> 0 <= i < k ->
     get_proxy_for_country pm c = (Py.Ok (Some (nth_proxy pm i)), pm) /\
     (forall n : nat,
        let run := rotate_times n pm c in
        (forall j : nat, (j < n)%nat ->
           run.1 !! j
             = Some (Py.Ok (Some (nth_proxy pm ((i + Z.of_nat (S j)) `mod` k))))) /\
        length run.1 = n /\
        proxies run.2 = proxies pm /\
        country_proxy_index run.2 !! c = Some ((i + Z.of_nat n) `mod` k) /\
        history run.2 c =
          history pm c ++
          map (fun j : nat => proxy_str (nth_proxy pm ((i + Z.of_nat j) `mod` k)))
            (seq 0 n)) /\
     (let cycle := rotate_times (length (proxies pm)) pm c in
      country_proxy_index cycle.2 !! c = Some i /\
      (get_proxy_for_country cycle.2 c).1 = (get_proxy_for_country pm c).1)).
Proof.
  intros Hne k. split; [apply get_proxy_idempotent|].
  intros i Hi Hrange.
  assert (Hget : forall pm', proxies pm' = proxies pm ->
            country_proxy_index pm' !! c = Some i ->
            get_proxy_for_country pm' c = (Py.Ok (Some (nth_proxy pm i)), pm')).
  { intros pm' Hp Hi'. unfold get_proxy_for_country.
    rewrite Hp, (truthy_nonempty _ Hne), Hi'. cbn. rewrite Hi', Hp.
    rewrite (getitem_in_range _ _ Hrange). reflexivity. }
  split; [apply Hget; auto|]. split.
  - intros n run.
    destruct (rotate_times_spec n pm c i Hne Hi Hrange) as (Hrs & Hp & Hidx & Hh).
    fold run k in Hrs, Hp, Hidx, Hh.
    split; [|split; [|split; [|split]]]; auto.
    + intros j Hj. rewrite Hrs, list_lookup_fmap, lookup_seq_lt by exact Hj.
      reflexivity.
    + rewrite Hrs, length_map, length_seq. reflexivity.
  - intros cycle.
    destruct (rotate_times_spec (length (proxies pm)) pm c i Hne Hi Hrange)
      as (_ & Hp & Hidx & _).
    fold cycle k in Hp, Hidx.
    assert (Hback : (i + k) `mod` k = i).
    { rewrite <- (Z.mul_1_l k) at 1. rewrite Z.mod_add by lia.
      apply Z.mod_small. exact Hrange. }
    rewrite Hback in Hidx. split; [exact Hidx|].
    rewrite (Hget cycle.2 Hp Hidx), (Hget pm eq_refl Hi). reflexivity.
Qed.

(** C10: rotating a tenant that has no rotation state, over a non-empty
    pool, is a first [get_proxy_for_country]: same result, same manager
    afterwards; it returns the tenant's initial proxy, at index
    [offset mod k], records that index, and leaves the tenant's history
    empty. *)
Theorem rotate_without_state_is_first_get (pm : ProxyManager) (c : string) :
  proxies pm <> [] ->
  country_proxy_index pm !! c = None ->
  let k := Z.of_nat (length (proxies pm)) in
  let out := rotate_proxy_for_country pm c in
  out = get_proxy_for_country pm c /\
  out.1 = Py.Ok (Some (nth_proxy pm (offset_of c `mod` k))) /\
  proxies out.2 = proxies pm /\
  country_proxy_index out.2 !! c = Some (offset_of c `mod` k) /\
  used_proxies out.2 !! c = Some [].
Proof.
  intros Hne Hi k out. subst out. unfold rotate_proxy_for_country.
  rewrite (truthy_nonempty _ Hne), Hi. cbn [negb].
  split; [reflexivity|]. unfold get_proxy_for_country.
  rewrite (truthy_nonempty _ Hne), Hi. cbn [negb]. cbn. fold k.
  rewrite lookup_insert_eq.
  assert (Hrange : 0 <= offset_of c `mod` k < k)
    by (apply Z.mod_pos_bound; apply pool_size_pos; exact Hne).
  rewrite (getitem_in_range _ _ Hrange). cbn.
  rewrite !lookup_insert_eq. auto.
Qed.

(** C4 refuted as stated: a 200 answer with an empty body reports
    failure and leaves the pool of three empty. *)
Lemma empty_body_clears_pool :
  proxies manager3 = pool3 /\
  fetch_proxies manager3 (HttpResponse 200 "")
  = (FetchReturns false, set_proxies manager3 []).
Proof. split; reflexivity. Qed.

(** A body whose second line has no numeric port: the first line is
    already in the pool when [int] raises, and the call reports failure. *)
Example bad_port_leaves_partial_pool :
  fetch_proxies manager3
    (HttpResponse 200 ("10.0.0.9:9000:u:p" +:+ String LF "h:port:u:p"))
  = (FetchReturns false, set_proxies manager3 [mkProxy "10.0.0.9" 9000 "u" "p"]).
Proof. reflexivity. Qed.

(** A body with one well-formed line among malformed ones is a success
    that replaces the pool by that one proxy. *)
Example malformed_lines_are_skipped :
  fetch_proxies manager3
    (HttpResponse 200 ("garbage" +:+ String LF ("10.0.0.9:9000:u:p" +:+ String LF "a:b")))
  = (FetchReturns true, set_proxies manager3 [mkProxy "10.0.0.9" 9000 "u" "p"]).
Proof. reflexivity. Qed.

(** A body of five lines: two proxy records among three lines that are
    none (one of them empty). *)
Definition mixed_body : string :=
  "not a proxy" +:+ String LF
    ("10.0.0.9:9000:u:p" +:+ String LF
       ("a:b:c" +:+ String LF (String LF " 10.0.0.8:8000:v:q:extra "))).

(** C4 on the body above: the pool of three is replaced by the two
    records, in their order. *)
Lemma fetch_proxies_rebuilds_pool_witness :
  fetch_proxies manager3 (HttpResponse 200 mixed_body)
  = (FetchReturns true,
     set_proxies manager3
       [mkProxy "10.0.0.9" 9000 "u" "p"; mkProxy "10.0.0.8" 8000 "v" "q"]).
Proof.
  destruct (fetch_proxies_rebuilds_pool manager3) as (_ & _ & _ & _ & _ & H & _).
  apply (H mixed_body [[]; [mkProxy "10.0.0.9" 9000 "u" "p"]; []; [];
                       [mkProxy "10.0.0.8" 8000 "v" "q"]] eq_refl).
  vm_compute.
  constructor; [apply short_line; vm_compute; lia|].
  constructor; [eapply record_line; reflexivity|].
  constructor; [apply short_line; vm_compute; lia|].
  constructor; [apply short_line; vm_compute; lia|].
  constructor; [eapply record_line; reflexivity|].
  constructor.
Defined.

(** The manager after "dnk" was assigned its first proxy (index 1). *)
Definition manager3_dnk : ProxyManager :=
  (get_proxy_for_country manager3 "dnk").2.

(** C8 on the pool of three: "dnk" starts at index 1; three rotations
    return the entries at 2, 0, 1 and log those at 1, 2, 0. *)
Lemma rotation_deterministic_witness :
  let run := rotate_times 3 manager3_dnk "dnk" in
  (forall j : nat, (j < 3)%nat ->
     run.1 !! j
       = Some (Py.Ok (Some (nth_proxy manager3_dnk ((1 + Z.of_nat (S j)) `mod` 3))))) /\
  length run.1 = 3%nat /\
  proxies run.2 = proxies manager3_dnk /\
  country_proxy_index run.2 !! "dnk" = Some ((1 + Z.of_nat 3) `mod` 3) /\
  history run.2 "dnk" =
    history manager3_dnk "dnk" ++
    map (fun j : nat => proxy_str (nth_proxy manager3_dnk ((1 + Z.of_nat j) `mod` 3)))
      (seq 0 3).
Proof.
  assert (Hne : proxies manager3_dnk <> []) by discriminate.
  destruct (rotation_deterministic manager3_dnk "dnk" Hne) as [_ H].
  destruct (H 1 eq_refl (conj (Z.le_0_1) eq_refl)) as (_ & Hn & _).
  exact (Hn 3%nat).
Defined.

Example rotate_three_times :
  (get_proxy_for_country manager3 "dnk").1
    = Py.Ok (Some (mkProxy "10.0.0.2" 8002 "u2" "p2")) /\
  (rotate_times 3 manager3_dnk "dnk").1
    = [Py.Ok (Some (mkProxy "10.0.0.3" 8003 "u3" "p3"));
       Py.Ok (Some (mkProxy "10.0.0.1" 8001 "u1" "p1"));
       Py.Ok (Some (mkProxy "10.0.0.2" 8002 "u2" "p2"))] /\
  history (rotate_times 3 manager3_dnk "dnk").2 "dnk"
    = ["10.0.0.2:8002"; "10.0.0.3:8003"; "10.0.0.1:8001"].
Proof. repeat split; reflexivity. Qed.

(** C10 on the pool of three: "hrv" has no state, its offset is 2. *)
Lemma rotate_without_state_is_first_get_witness :
  rotate_proxy_for_country manager3 "hrv" = get_proxy_for_country manager3 "hrv" /\
  (rotate_proxy_for_country manager3 "hrv").1
    = Py.Ok (Some (nth_proxy manager3 (offset_of "hrv" `mod` 3))) /\
  proxies (rotate_proxy_for_country manager3 "hrv").2 = proxies manager3 /\
  country_proxy_index (rotate_proxy_for_country manager3 "hrv").2 !! "hrv"
    = Some (offset_of "hrv" `mod` 3) /\
  used_proxies (rotate_proxy_for_country manager3 "hrv").2 !! "hrv" = Some [].
Proof.
  assert (Hne : proxies manager3 <> []) by discriminate.
  exact (rotate_without_state_is_first_get manager3 "hrv" Hne eq_refl).
Defined.

(** *** The rest of the rotator *)

(** [reset_all_rotations] *)
Definition reset_all_rotations (pm : ProxyManager) : ProxyManager :=
  set_used (set_index pm ∅) ∅.

(** [get_proxy_count] *)
Definition get_proxy_count (pm : ProxyManager) : Z := Z.of_nat (length (proxies pm)).

(** [get_current_proxy_info]: it goes through [get_proxy_for_country],
    so it assigns a proxy to a tenant that has none. *)
Definition get_current_proxy_info (pm : ProxyManager) (country_code : string)
    : Py.result (option string) * ProxyManager :=
  match get_proxy_for_country pm country_code with
  | (Py.Ok (Some proxy), pm1) =>
      (Py.Ok (Some (host proxy +:+ ":" +:+ Py.str_int (port proxy))), pm1)
  | (Py.Ok None, pm1) => (Py.Ok None, pm1)
  | (Py.Raise e, pm1) => (Py.Raise e, pm1)
  end.

(** One call of the rotation interface. *)
Inductive Call :=
| CallGet (country_code : string)
| CallRotate (country_code : string)
| CallReset (country_code : string)
| CallResetAll.

(** The call, with what it returns ([None] for the two resets). *)
Definition call (pm : ProxyManager) (c : Call) : Py.result (option Proxy) * ProxyManager :=
  match c with
  | CallGet country_code => get_proxy_for_country pm country_code
  | CallRotate country_code => rotate_proxy_for_country pm country_code
  | CallReset country_code => (Py.Ok None, reset_country_rotation pm country_code)
  | CallResetAll => (Py.Ok None, reset_all_rotations pm)
  end.

(** A sequence of calls: the results in call order and the manager
    left. *)
Fixpoint calls (pm : ProxyManager) (cs : list Call)
    : list (Py.result (option Proxy)) * ProxyManager :=
  match cs with
  | [] => ([], pm)
  | c :: rest =>
      let '(r, pm1) := call pm c in
      let '(rs, pm2) := calls pm1 rest in
      (r :: rs, pm2)
  end.

(** Every tenant's index points into the pool. *)
Definition indices_ok (pm : ProxyManager) : Prop :=
  forall c i, country_proxy_index pm !! c = Some i ->
    0 <= i < Z.of_nat (length (proxies pm)).

(** The tenant a call concerns; a reset of all concerns every one. *)
Definition concerns (c : Call) (country_code : string) : Prop :=
  match c with
  | CallGet c' | CallRotate c' | CallReset c' => c' = country_code
  | CallResetAll => True
  end.

Lemma nth_proxy_in_pool (pm : ProxyManager) (i : Z) :
  0 <= i < Z.of_nat (length (proxies pm)) -> nth_proxy pm i ∈ proxies pm.
Proof.
  intros Hi. unfold nth_proxy. apply list_elem_of_lookup.
  exists (Z.to_nat i). apply list_lookup_lookup_total_lt. lia.
Qed.

(** What one call does over a pool all indices point into. *)
Lemma call_ok (pm : ProxyManager) (c : Call) :
  proxies pm <> [] -> indices_ok pm ->
  proxies (call pm c).2 = proxies pm /\
  indices_ok (call pm c).2 /\
  match c with
  | CallGet _ | CallRotate _ =>
      exists p, (call pm c).1 = Py.Ok (Some p) /\ p ∈ proxies pm
  | _ => (call pm c).1 = Py.Ok None
  end.
Proof.
  intros Hne Hok. set (k := Z.of_nat (length (proxies pm))).
  assert (Hk : 0 < k) by (apply pool_size_pos; exact Hne).
  assert (Hget : forall c0,
            proxies (get_proxy_for_country pm c0).2 = proxies pm /\
            indices_ok (get_proxy_for_country pm c0).2 /\
            exists p, (get_proxy_for_country pm c0).1 = Py.Ok (Some p) /\
                      p ∈ proxies pm).
  { intros c0. unfold get_proxy_for_country.
    rewrite (truthy_nonempty _ Hne). cbn [negb].
    destruct (country_proxy_index pm !! c0) as [i|] eqn:Hi.
    - rewrite Hi, (getitem_in_range _ _ (Hok _ _ Hi)). cbn.
      split; [reflexivity|]. split; [exact Hok|].
      eexists. split; [reflexivity|]. apply nth_proxy_in_pool, (Hok _ _ Hi).
    - cbn. fold k. rewrite lookup_insert_eq.
      assert (Hr : 0 <= offset_of c0 `mod` k < k) by (apply Z.mod_pos_bound; lia).
      rewrite (getitem_in_range _ _ Hr). cbn.
      split; [reflexivity|]. split.
      + intros c' i'. cbn. destruct (decide (c0 = c')) as [->|Hc].
        * rewrite lookup_insert_eq. intros [= <-]. exact Hr.
        * rewrite lookup_insert_ne by exact Hc. apply Hok.
      + eexists. split; [reflexivity|]. apply (nth_proxy_in_pool pm), Hr. }
  destruct c as [c0|c0|c0|]; cbn [call].
  - apply Hget.
  - destruct (country_proxy_index pm !! c0) as [i|] eqn:Hi.
    + destruct (rotate_step pm c0 i Hne Hi (Hok _ _ Hi)) as (Hr & Hp & Hi1 & _).
      fold k in Hr, Hi1.
      assert (Hn : 0 <= (i + 1) `mod` k < k) by (apply Z.mod_pos_bound; lia).
      split; [exact Hp|]. split.
      * intros c' i'. rewrite Hp. destruct (decide (c0 = c')) as [->|Hc].
        -- rewrite Hi1. intros [= <-]. exact Hn.
        -- unfold rotate_proxy_for_country.
           rewrite (truthy_nonempty _ Hne), Hi. cbn [negb].
           rewrite (getitem_in_range _ _ (Hok _ _ Hi)). fold k.
           destruct (used_proxies pm !! c0); cbn;
             rewrite (getitem_in_range (proxies pm) _ Hn); cbn;
             rewrite lookup_insert_ne by exact Hc; apply Hok.
      * eexists. split; [exact Hr|]. apply nth_proxy_in_pool, Hn.
    + replace (rotate_proxy_for_country pm c0) with (get_proxy_for_country pm c0).
      * apply Hget.
      * unfold rotate_proxy_for_country.
        rewrite (truthy_nonempty _ Hne), Hi. reflexivity.
  - cbn. split; [reflexivity|]. split; [|reflexivity].
    intros c' i' Hl. cbn in Hl.
    apply lookup_delete_Some in Hl as [_ Hl]. exact (Hok _ _ Hl).
  - cbn. split; [reflexivity|]. split; [|reflexivity].
    intros c' i' Hl. cbn in Hl. rewrite lookup_empty in Hl. discriminate.
Qed.

(** Over a fixed non-empty pool, starting from a manager whose indices
    point into the pool (a new one has none), no sequence of
    [get_proxy_for_country], [rotate_proxy_for_country] and reset calls
    ever raises or answers "no proxy": each get and each rotate returns a
    proxy of the pool, the pool is never changed, and the indices keep
    pointing into it. *)
Theorem rotation_never_raises (pm : ProxyManager) (cs : list Call) :
  proxies pm <> [] -> indices_ok pm ->
  proxies (calls pm cs).2 = proxies pm /\
  indices_ok (calls pm cs).2 /\
  length (calls pm cs).1 = length cs /\
  forall (n : nat) (c : Call) (r : Py.result (option Proxy)),
    cs !! n = Some c -> (calls pm cs).1 !! n = Some r ->
    match c with
    | CallGet _ | CallRotate _ => exists p, r = Py.Ok (Some p) /\ p ∈ proxies pm
    | _ => r = Py.Ok None
    end.
Proof.
  revert pm. induction cs as [|c cs IH]; intros pm Hne Hok.
  - cbn. split; [reflexivity|]. split; [exact Hok|]. split; [reflexivity|].
    intros n c r Hc. destruct n; discriminate.
  - cbn [calls]. destruct (call_ok pm c Hne Hok) as (Hp & Hok1 & Hr).
    destruct (call pm c) as [r1 pm1]. cbn [fst snd] in *.
    assert (Hne1 : proxies pm1 <> []) by (rewrite Hp; exact Hne).
    destruct (IH pm1 Hne1 Hok1) as (Hp2 & Hok2 & Hlen & Hrs).
    destruct (calls pm1 cs) as [rs pm2]. cbn [fst snd] in *.
    split; [congruence|]. split; [exact Hok2|]. split; [cbn; congruence|].
    intros [|n] c' r'; cbn.
    + intros [= <-] [= <-]. exact Hr.
    + intros Hc' Hr'. specialize (Hrs n c' r' Hc' Hr'). rewrite Hp in Hrs. exact Hrs.
Qed.

Lemma rotation_never_raises_witness :
  let cs := [CallRotate "fra"; CallGet "dnk"; CallRotate "fra"; CallReset "fra";
             CallRotate "bgr"; CallResetAll; CallGet "xyz"] in
  proxies (calls manager3 cs).2 = proxies manager3 /\
  indices_ok (calls manager3 cs).2 /\
  length (calls manager3 cs).1 = length cs /\
  forall (n : nat) (c : Call) (r : Py.result (option Proxy)),
    cs !! n = Some c -> (calls manager3 cs).1 !! n = Some r ->
    match c with
    | CallGet _ | CallRotate _ => exists p, r = Py.Ok (Some p) /\ p ∈ proxies manager3
    | _ => r = Py.Ok None
    end.
Proof.
  intros cs. apply (rotation_never_raises manager3 cs).
  - discriminate.
  - intros c i. cbn. rewrite lookup_empty. discriminate.
Defined.

Lemma proxy_call_frame (pm : ProxyManager) (c : Call) (country_code : string) :
  ~ concerns c country_code ->
  country_proxy_index (call pm c).2 !! country_code
    = country_proxy_index pm !! country_code /\
  used_proxies (call pm c).2 !! country_code = used_proxies pm !! country_code.
Proof.
  assert (Hget : forall c0, c0 <> country_code ->
    country_proxy_index (get_proxy_for_country pm c0).2 !! country_code
      = country_proxy_index pm !! country_code /\
    used_proxies (get_proxy_for_country pm c0).2 !! country_code
      = used_proxies pm !! country_code).
  { intros c0 Hc. unfold get_proxy_for_country.
    destruct (Py.truthy (proxies pm)); cbn [negb]; [|auto].
    destruct (country_proxy_index pm !! c0) as [i|] eqn:Hi.
    - rewrite Hi. destruct (Py.getitem _ _); auto.
    - cbn. rewrite lookup_insert_eq. destruct (Py.getitem _ _); cbn;
        rewrite !lookup_insert_ne by exact Hc; auto. }
  destruct c as [c0|c0|c0|]; cbn [call concerns]; intros Hc.
  - apply Hget. exact Hc.
  - unfold rotate_proxy_for_country.
    destruct (Py.truthy (proxies pm)) eqn:Ht; cbn [negb]; [|auto].
    destruct (country_proxy_index pm !! c0) as [i|] eqn:Hi; [|apply Hget; exact Hc].
    destruct (Py.getitem (proxies pm) i); [|auto].
    destruct (used_proxies pm !! c0); cbn;
      destruct (Py.getitem _ _); cbn; rewrite !lookup_insert_ne by exact Hc; auto.
  - cbn. rewrite !lookup_delete_ne by exact Hc. auto.
  - destruct Hc. exact I.
Qed.

(** The rotation state of a tenant (its index and its history) is
    changed only by calls for that tenant and by [reset_all_rotations]:
    any sequence of gets, rotations and resets for other tenants leaves
    it as it was. *)
Theorem tenants_do_not_interfere (pm : ProxyManager) (cs : list Call)
    (country_code : string) :
  Forall (fun c => ~ concerns c country_code) cs ->
  country_proxy_index (calls pm cs).2 !! country_code
    = country_proxy_index pm !! country_code /\
  used_proxies (calls pm cs).2 !! country_code = used_proxies pm !! country_code.
Proof.
  revert pm. induction cs as [|c cs IH]; intros pm Hall; [auto|].
  inversion Hall as [|? ? Hc Hcs]; subst. cbn [calls].
  destruct (proxy_call_frame pm c country_code Hc) as [Hi Hu].
  destruct (call pm c) as [r pm1]. cbn [snd] in Hi, Hu.
  specialize (IH pm1 Hcs). destruct (calls pm1 cs) as [rs pm2]. cbn [snd] in *.
  destruct IH as [Hi2 Hu2]. split; congruence.
Qed.

Lemma tenants_do_not_interfere_witness :
  let cs := [CallRotate "fra"; CallGet "hrv"; CallRotate "fra"; CallReset "hrv"] in
  country_proxy_index (calls manager3_dnk cs).2 !! "dnk"
    = country_proxy_index manager3_dnk !! "dnk" /\
  used_proxies (calls manager3_dnk cs).2 !! "dnk" = used_proxies manager3_dnk !! "dnk".
Proof.
  intros cs. apply (tenants_do_not_interfere manager3_dnk cs "dnk").
  repeat constructor; discriminate.
Defined.

Lemma fetch_keeps_rotation_state (pm : ProxyManager) (answer : HttpOutcome) :
  country_proxy_index (fetch_proxies pm answer).2 = country_proxy_index pm /\
  used_proxies (fetch_proxies pm answer).2 = used_proxies pm.
Proof.
  destruct answer as [| |status text]; cbn; [auto|auto|].
  destruct (status =? 200); cbn; [|auto].
  destruct (parse_lines _ _) as [pool [|]]; cbn; auto.
Qed.

(** [fetch_proxies] never touches the rotation state.  So when a fetch
    leaves a pool that is not longer than a tenant's stored index, both
    [get_proxy_for_country] and [rotate_proxy_for_country] raise
    [IndexError] for that tenant and change nothing, call after call;
    after [reset_country_rotation] the tenant is assigned its initial
    proxy of the new pool. *)
Theorem stale_index_raises_until_reset (pm : ProxyManager) (answer : HttpOutcome)
    (c : string) (i : Z) :
  let pm' := (fetch_proxies pm answer).2 in
  let k := Z.of_nat (length (proxies pm')) in
  country_proxy_index pm !! c = Some i ->
  proxies pm' <> [] -> k <= i ->
  get_proxy_for_country pm' c = (Py.Raise Py.IndexError, pm') /\
  rotate_proxy_for_country pm' c = (Py.Raise Py.IndexError, pm') /\
  (get_proxy_for_country (reset_country_rotation pm' c) c).1
    = Py.Ok (Some (nth_proxy pm' (offset_of c `mod` k))).
Proof.
  intros pm' k Hi Hne Hle.
  destruct (fetch_keeps_rotation_state pm answer) as [Hidx _].
  fold pm' in Hidx. rewrite <- Hidx in Hi.
  assert (Hk : 0 < k) by (apply pool_size_pos; exact Hne).
  assert (Hg : Py.getitem (proxies pm') i = None).
  { unfold Py.getitem. fold k.
    replace (i <? k) with false by (symmetry; apply Z.ltb_ge; lia).
    replace (i <? 0) with false by (symmetry; apply Z.ltb_ge; lia).
    rewrite !andb_false_r. reflexivity. }
  split; [|split].
  - unfold get_proxy_for_country. rewrite (truthy_nonempty _ Hne), Hi. cbn.
    rewrite Hi, Hg. reflexivity.
  - unfold rotate_proxy_for_country. rewrite (truthy_nonempty _ Hne), Hi. cbn.
    rewrite Hg. reflexivity.
  - unfold get_proxy_for_country, reset_country_rotation.
    cbn [proxies set_used set_index country_proxy_index].
    rewrite (truthy_nonempty _ Hne), lookup_delete_eq. cbn. fold k.
    rewrite lookup_insert_eq.
    assert (Hr : 0 <= offset_of c `mod` k < k) by (apply Z.mod_pos_bound; lia).
    rewrite (getitem_in_range _ _ Hr). reflexivity.
Qed.

(** The manager after "hrv" was assigned its first proxy (index 2). *)
Definition manager3_hrv : ProxyManager :=
  (get_proxy_for_country manager3 "hrv").2.

Lemma stale_index_raises_until_reset_witness :
  let pm' := (fetch_proxies manager3_hrv (HttpResponse 200 "10.0.0.9:9000:u:p")).2 in
  get_proxy_for_country pm' "hrv" = (Py.Raise Py.IndexError, pm') /\
  rotate_proxy_for_country pm' "hrv" = (Py.Raise Py.IndexError, pm') /\
  (get_proxy_for_country (reset_country_rotation pm' "hrv") "hrv").1
    = Py.Ok (Some (nth_proxy pm' (offset_of "hrv" `mod` 1))).
Proof.
  intros pm'.
  apply (stale_index_raises_until_reset manager3_hrv
           (HttpResponse 200 "10.0.0.9:9000:u:p") "hrv" 2).
  - reflexivity.
  - discriminate.
  - discriminate.
Defined.

(** What [get_current_proxy_info] reports for a tenant is what the next
    [rotate_proxy_for_country] files in the tenant's history: the
    "host:port" of the proxy the tenant is on, and asking for it changes
    nothing once the tenant has its index. *)
Theorem history_logs_current_proxy_info (pm : ProxyManager) (c : string) (i : Z) :
  proxies pm <> [] ->
  country_proxy_index pm !! c = Some i ->
  0 <= i < Z.of_nat (length (proxies pm)) ->
  exists info,
    get_current_proxy_info pm c = (Py.Ok (Some info), pm) /\
    history (rotate_proxy_for_country pm c).2 c = history pm c ++ [info].
Proof.
  intros Hne Hi Hrange. exists (proxy_str (nth_proxy pm i)). split.
  - unfold get_current_proxy_info, get_proxy_for_country.
    rewrite (truthy_nonempty _ Hne), Hi. cbn. rewrite Hi.
    rewrite (getitem_in_range _ _ Hrange). reflexivity.
  - apply (rotate_step pm c i Hne Hi Hrange).
Qed.

Lemma history_logs_current_proxy_info_witness :
  exists info,
    get_current_proxy_info manager3_dnk "dnk" = (Py.Ok (Some info), manager3_dnk) /\
    history (rotate_proxy_for_country manager3_dnk "dnk").2 "dnk"
      = history manager3_dnk "dnk" ++ [info].
Proof.
  apply (history_logs_current_proxy_info manager3_dnk "dnk" 1).
  - discriminate.
  - reflexivity.
  - split; [discriminate|reflexivity].
Defined.

End ProxyManager.

(** ** scanner/screen_detector.py *)

Module ScreenDetector.

(** [class ScreenType(Enum)] *)
Inductive ScreenType :=
| UNKNOWN | LOGIN | OTP_VERIFICATION | DASHBOARD | APPOINTMENT_SELECTION
| DATE_SELECTION | TIME_SELECTION | CONFIRMATION | SUCCESS | ERROR
| CAPTCHA | MAINTENANCE | BLOCKED | NO_APPOINTMENT.

#[global] Instance screen_type_eq_dec : EqDecision ScreenType.
Proof. solve_decision. Defined.

(** [@dataclass ScreenInfo]; [metadata] is a dictionary of lists of
    strings ([available_dates] is its only key). *)
Record ScreenInfo := mkScreenInfo {
  screen_type : ScreenType;
  url : string;
  title : string;
  has_captcha : bool;
  has_error : bool;
  error_message : option string;
  available_actions : list string;
  metadata : gmap string (list string)
}.

(** The dictionary literal of [get_next_action], in source order. *)
Definition action_map : list (ScreenType * string) :=
  [(LOGIN, "login");
   (OTP_VERIFICATION, "enter_otp");
   (DASHBOARD, "navigate_to_appointment");
   (DATE_SELECTION, "select_date");
   (TIME_SELECTION, "select_time");
   (CONFIRMATION, "confirm");
   (CAPTCHA, "solve_captcha");
   (ERROR, "handle_error")].

(** [d.get(key)] on a dictionary written as its list of items. *)
Fixpoint dict_get (d : list (ScreenType * string)) (key : ScreenType) : option string :=
  match d with
  | [] => None
  | (k, v) :: rest => if bool_decide (k = key) then Some v else dict_get rest key
  end.

(** [get_next_action] *)
Definition get_next_action (screen_info : ScreenInfo) : option string :=
  dict_get action_map (screen_type screen_info).

(** [is_success_state] *)
Definition is_success_state (screen_info : ScreenInfo) : bool :=
  bool_decide (screen_type screen_info = SUCCESS).

(** [is_error_state] *)
Definition is_error_state (screen_info : ScreenInfo) : bool :=
  bool_decide (screen_type screen_info ∈ [ERROR; BLOCKED; MAINTENANCE]).

(** A screen of a given type with nothing else on it. *)
Definition bare_screen (t : ScreenType) : ScreenInfo :=
  mkScreenInfo t "" "" false false None [] ∅.

(** *** Properties of the classifier's action table *)

(** The keys of the literal are pairwise distinct, so the list of items
    is the dictionary. *)
Lemma action_map_keys_distinct : NoDup (action_map.*1).
Proof. apply (bool_decide_unpack _). reflexivity. Qed.

(** C7 refuted as stated: an ERROR screen has an automatic action. *)
Lemma error_screen_has_action :
  get_next_action (bare_screen ERROR) = Some "handle_error".
Proof. reflexivity. Qed.

(** C7, as the code has it: [get_next_action] depends on the screen type
    alone; it maps OTP_VERIFICATION to "enter_otp", DATE_SELECTION to
    "select_date" and the other keys of its table to their actions, ERROR
    to "handle_error" among them; and it returns [None] exactly for the
    types outside the table: UNKNOWN, BLOCKED and MAINTENANCE, and also
    APPOINTMENT_SELECTION, SUCCESS and NO_APPOINTMENT. *)
Theorem get_next_action_table (s1 s2 : ScreenInfo) :
  (screen_type s1 = screen_type s2 -> get_next_action s1 = get_next_action s2) /\
  get_next_action s1 =
    match screen_type s1 with
    | LOGIN => Some "login"
    | OTP_VERIFICATION => Some "enter_otp"
    | DASHBOARD => Some "navigate_to_appointment"
    | DATE_SELECTION => Some "select_date"
    | TIME_SELECTION => Some "select_time"
    | CONFIRMATION => Some "confirm"
    | CAPTCHA => Some "solve_captcha"
    | ERROR => Some "handle_error"
    | UNKNOWN | BLOCKED | MAINTENANCE
    | APPOINTMENT_SELECTION | SUCCESS | NO_APPOINTMENT => None
    end /\
  (get_next_action s1 = None <->
   screen_type s1 ∈ [UNKNOWN; BLOCKED; MAINTENANCE;
                     APPOINTMENT_SELECTION; SUCCESS; NO_APPOINTMENT]).
Proof.
  unfold get_next_action. split; [intros ->; reflexivity|].
  split; [destruct (screen_type s1); reflexivity|].
  destruct (screen_type s1); split; intros H;
    first [ reflexivity
          | vm_compute in H; discriminate H
          | apply (bool_decide_unpack _); vm_compute; exact I
          | apply (bool_decide_pack _) in H; vm_compute in H; destruct H ].
Qed.

(** C7 on two BLOCKED screens that differ in everything else. *)
Lemma get_next_action_table_witness :
  get_next_action (bare_screen BLOCKED)
    = get_next_action
        (mkScreenInfo BLOCKED "https://visa.example/blocked" "Access denied"
           true true (Some "blocked") ["continue"] ∅).
Proof.
  destruct (get_next_action_table (bare_screen BLOCKED)
              (mkScreenInfo BLOCKED "https://visa.example/blocked" "Access denied"
                 true true (Some "blocked") ["continue"] ∅)) as [H _].
  exact (H eq_refl).
Defined.

End ScreenDetector.

(** ** scanner/availability_checker.py *)

Module AvailabilityChecker.

(** [@dataclass DateSlot] *)
Record DateSlot := mkDateSlot {
  date : string;
  day_name : string;
  slots : list string;
  is_preferred : bool
}.

(** [@dataclass AvailabilityResult]; [checked_at] is the clock reading
    of its default factory. *)
Record AvailabilityResult := mkAvailabilityResult {
  has_availability : bool;
  available_dates : list DateSlot;
  checked_at : Z;
  location : string;
  category : string;
  error : option string
}.

(** [DAY_NAMES_TR], keyed by [datetime.weekday()] (Monday is 0). *)
Definition DAY_NAMES_TR : list (Z * string) :=
  [(0, "Pazartesi"); (1, "Salı"); (2, "Çarşamba");
   (3, "Perşembe"); (4, "Cuma"); (5, "Cumartesi"); (6, "Pazar")].

(** [DAY_NAMES_TR.get(w, "")] *)
Fixpoint names_get (d : list (Z * string)) (w : Z) : string :=
  match d with
  | [] => ""
  | (k, v) :: rest => if k =? w then v else names_get rest w
  end.

(** The fields of [AvailabilityChecker.__init__]. *)
Record AvailabilityChecker := mkAvailabilityChecker {
  preferred_dates : list string;
  preferred_days : list string;
  last_result : option AvailabilityResult
}.

(** [AvailabilityChecker(preferred_dates, preferred_days)]: [x or []]. *)
Definition new_checker (dates days : option (list string)) : AvailabilityChecker :=
  mkAvailabilityChecker (default [] dates) (default [] days) None.

(** *** [datetime.strptime(date_str, "%Y-%m-%d").weekday()]

    The format compiles to the pattern
    [(\d\d\d\d)-(1[0-2]|0[1-9]|[1-9])-(3[0-1]|[1-2]\d|0[1-9]|[1-9]| [1-9])],
    which must match from the start and leave nothing unread.  The digits
    read here are the ASCII ones: this is [strptime] on ASCII date
    strings.  ([\d] and [int] also take the decimal digits Unicode has
    beyond ASCII; what is proved of weekdays is stated for ASCII date
    strings.) *)

Definition dig (c : ascii) : option Z :=
  if Py.is_digit c then Some (Py.digit_val c) else None.

(** The month alternatives, in the pattern's order. *)
Definition month_field (s : string) : option (Z * string) :=
  match s with
  | String "1" (String c r) =>
      match dig c with
      | Some v => if v <=? 2 then Some (10 + v, r) else Some (1, String c r)
      | None => Some (1, String c r)
      end
  | String "0" (String c r) =>
      match dig c with
      | Some v => if 1 <=? v then Some (v, r) else None
      | None => None
      end
  | String c r =>
      match dig c with
      | Some v => if 1 <=? v then Some (v, r) else None
      | None => None
      end
  | EmptyString => None
  end.

(** The day alternatives, in the pattern's order. *)
Definition day_field (s : string) : option (Z * string) :=
  match s with
  | String c r =>
      match dig c, r with
      | Some 3, String c2 r2 =>
          match dig c2 with
          | Some v => if v <=? 1 then Some (30 + v, r2) else Some (3, r)
          | None => Some (3, r)
          end
      | Some 0, String c2 r2 =>
          match dig c2 with
          | Some v => if 1 <=? v then Some (v, r2) else None
          | None => None
          end
      | Some 0, EmptyString => None
      | Some u, String c2 r2 =>
          if u <=? 2 then
            match dig c2 with
            | Some v => Some (10 * u + v, r2)
            | None => Some (u, r)
            end
          else Some (u, r)
      | Some u, EmptyString => Some (u, r)
      | None, String c2 r2 =>
          if bool_decide (c = " "%char) then
            match dig c2 with
            | Some v => if 1 <=? v then Some (v, r2) else None
            | None => None
            end
          else None
      | None, EmptyString => None
      end
  | EmptyString => None
  end.

(** Year, month and day as the pattern reads them. *)
Definition match_ymd (s : string) : option (Z * Z * Z) :=
  match s with
  | String y1 (String y2 (String y3 (String y4 (String "-" r)))) =>
      match dig y1, dig y2, dig y3, dig y4 with
      | Some a, Some b, Some c, Some d =>
          match month_field r with
          | Some (m, String "-" r') =>
              match day_field r' with
              | Some (dd, EmptyString) => Some (1000 * a + 100 * b + 10 * c + d, m, dd)
              | _ => None
              end
          | _ => None
          end
      | _, _, _, _ => None
      end
  | _ => None
  end.

Definition is_leap (y : Z) : bool :=
  (y `mod` 4 =? 0) && (negb (y `mod` 100 =? 0) || (y `mod` 400 =? 0)).

Definition days_in_month (y m : Z) : Z :=
  if m =? 2 then (if is_leap y then 29 else 28)
  else if (m =? 4) || (m =? 6) || (m =? 9) || (m =? 11) then 30
  else 31.

Definition days_before_year (y : Z) : Z :=
  let y1 := y - 1 in y1 * 365 + y1 / 4 - y1 / 100 + y1 / 400.

Fixpoint days_before_month_go (y : Z) (m : nat) : Z :=
  match m with
  | O => 0
  | S m' => days_before_month_go y m' + days_in_month y (Z.of_nat m)
  end.

Definition days_before_month (y m : Z) : Z :=
  days_before_month_go y (Z.to_nat (m - 1)).

(** [date(y, m, d).toordinal()], [None] when the constructor raises. *)
Definition ordinal (y m d : Z) : option Z :=
  if (1 <=? y) && (y <=? 9999) && (1 <=? m) && (m <=? 12) &&
     (1 <=? d) && (d <=? days_in_month y m)
  then Some (days_before_year y + days_before_month y m + d)
  else None.

(** The weekday of a date string, [None] when [strptime] raises. *)
Definition weekday_of (date_str : string) : option Z :=
  match match_ymd date_str with
  | Some (y, m, d) => (fun o => (o + 6) `mod` 7) <$> ordinal y m d
  | None => None
  end.

Example weekdays :
  weekday_of "2025-01-03" = Some 4 /\
  weekday_of "2024-02-29" = Some 3 /\
  weekday_of "2025-02-29" = None /\
  weekday_of "2025-1-6" = Some 0 /\
  weekday_of "2025-01-32" = None /\
  weekday_of "2025-12- 7" = Some 6 /\
  weekday_of "0001-01-01" = Some 0 /\
  weekday_of "03.01.2025" = None.
Proof. repeat split; reflexivity. Qed.

(** *** The page, as far as the checker looks at it *)

(** A call into the browser driver answers or raises. *)
Inductive Probe (A : Type) :=
| Answers (a : A)
| Fails.
Arguments Answers {A} a.
Arguments Fails {A}.

(** One element of [query_selector_all(SELECTORS["available_day"])]:
    what [get_attribute("data-date")] and [text_content()] give. *)
Record DayElement := mkDayElement {
  data_date : Probe (option string);
  text_content : Probe (option string)
}.

(** The page: [inner_text("body")] and the day elements. *)
Record Page := mkPage {
  inner_text_body : Probe string;
  available_day : Probe (list DayElement)
}.

Section WithLower.

(** [str.lower], the library's case mapping. *)
Variable lower : string -> string.

(** [_check_no_availability] *)
Definition _check_no_availability (page : Page) : bool :=
  let no_texts := ["no appointment"; "müsait randevu"; "unavailable"; "dolu"] in
  match inner_text_body page with
  | Answers body => existsb (fun t => Py.str_in t (lower body)) no_texts
  | Fails => false
  end.

(** The label [_collect_available_dates] gives a date string. *)
Definition day_name_of (date_str : string) : string :=
  match weekday_of date_str with
  | Some w => names_get DAY_NAMES_TR w
  | None => ""
  end.

(** The body of the [for day in days] loop: the slot an element adds,
    if any. *)
Definition slot_of_element (day : DayElement) : option DateSlot :=
  match data_date day, text_content day with
  | Answers date_attr, Answers date_text =>
      let fallback :=
        match date_text with
        | Some t => if Py.nonempty t then Py.strip t else ""
        | None => ""
        end in
      let date_str :=
        match date_attr with
        | Some a => if Py.nonempty a then a else fallback
        | None => fallback
        end in
      if Py.nonempty date_str
      then Some (mkDateSlot date_str (day_name_of date_str) [] false)
      else None
  | _, _ => None
  end.

(** [_collect_available_dates] *)
Definition _collect_available_dates (page : Page) : list DateSlot :=
  match available_day page with
  | Answers days => omap slot_of_element days
  | Fails => []
  end.

(** [_is_preferred_date] *)
Definition _is_preferred_date (self : AvailabilityChecker) (date_slot : DateSlot) : bool :=
  if Py.truthy (preferred_dates self) && Py.contains (date date_slot) (preferred_dates self)
  then true
  else if Py.truthy (preferred_days self) && Py.contains (day_name date_slot) (preferred_days self)
  then true
  else negb (Py.truthy (preferred_dates self)) && negb (Py.truthy (preferred_days self)).

Definition set_preferred (d : DateSlot) (b : bool) : DateSlot :=
  mkDateSlot (date d) (day_name d) (slots d) b.

(** [check]: the result and the checker it leaves ([last_result] is set
    on the path that collects dates).  [now] is the clock reading that
    stamps the result. *)
Definition check (self : AvailabilityChecker) (now : Z) (page : Page)
    (location category : string) : AvailabilityResult * AvailabilityChecker :=
  if _check_no_availability page then
    (mkAvailabilityResult false [] now location category None, self)
  else
    let available_dates := _collect_available_dates page in
    let available_dates :=
      map (fun date_slot => set_preferred date_slot (_is_preferred_date self date_slot))
        available_dates in
    let result :=
      mkAvailabilityResult (0 <? Z.of_nat (length available_dates)) available_dates
        now location category None in
    (result,
     mkAvailabilityChecker (preferred_dates self) (preferred_days self) (Some result)).

(** [check_multiple_months] over the pages its successive [check] calls
    see, one per month (the clicks on the next-month control in between
    belong to the driver); every call stamps its result with [now]. *)
Fixpoint check_months (self : AvailabilityChecker) (now : Z) (pages : list Page)
    : list DateSlot * AvailabilityChecker :=
  match pages with
  | [] => ([], self)
  | page :: rest =>
      let '(result, self1) := check self now page "" "" in
      let '(all_dates, self2) := check_months self1 now rest in
      (available_dates result ++ all_dates, self2)
  end.

Definition check_multiple_months (self : AvailabilityChecker) (now : Z)
    (pages : list Page) : AvailabilityResult * AvailabilityChecker :=
  let '(all_dates, self') := check_months self now pages in
  (mkAvailabilityResult (0 <? Z.of_nat (length all_dates)) all_dates now "" "" None,
   self').

(** Where a [DateSlot] of the checker comes from: a [check] on some page
    or a [check_multiple_months] over some pages. *)
Definition produced (self : AvailabilityChecker) (slot : DateSlot) : Prop :=
  (exists now page location category,
     slot ∈ available_dates (check self now page location category).1) \/
  (exists now pages,
     slot ∈ available_dates (check_multiple_months self now pages).1).

(** *** Properties of the availability evaluator *)

Lemma no_label_is_friday (w : Z) : names_get DAY_NAMES_TR w <> "Friday".
Proof.
  unfold DAY_NAMES_TR. cbn [names_get].
  repeat (destruct (_ =? w); [discriminate|]). discriminate.
Qed.

Lemma day_name_of_not_friday (d : string) : day_name_of d <> "Friday".
Proof.
  unfold day_name_of. destruct (weekday_of d); [apply no_label_is_friday|discriminate].
Qed.

(** Every collected slot carries the label computed from its date. *)
Lemma collected_label (page : Page) (d : DateSlot) :
  d ∈ _collect_available_dates page -> day_name d = day_name_of (date d).
Proof.
  unfold _collect_available_dates. destruct (available_day page) as [days|].
  - intros Hin. apply list_elem_of_omap in Hin as (el & _ & Hs).
    unfold slot_of_element in Hs.
    destruct (data_date el), (text_content el); try discriminate.
    destruct (Py.nonempty _); [|discriminate]. injection Hs as <-. reflexivity.
  - intros Hin. inversion Hin.
Qed.

(** The slots of a [check] are the collected ones, each tagged by
    [_is_preferred_date]. *)
Lemma check_slots self now page location category slot :
  slot ∈ available_dates (check self now page location category).1 ->
  exists d, d ∈ _collect_available_dates page /\
            slot = set_preferred d (_is_preferred_date self d).
Proof.
  unfold check. destruct (_check_no_availability page); cbn.
  - intros Hin. inversion Hin.
  - intros Hin. apply list_elem_of_fmap in Hin as (d & -> & Hd). eauto.
Qed.

Lemma check_keeps_preferences self now page location category :
  preferred_dates (check self now page location category).2 = preferred_dates self /\
  preferred_days (check self now page location category).2 = preferred_days self.
Proof. unfold check. destruct (_check_no_availability page); auto. Qed.

Lemma check_months_slots pages : forall self now slot,
  slot ∈ (check_months self now pages).1 ->
  exists page d, d ∈ _collect_available_dates page /\
                 slot = set_preferred d (_is_preferred_date self d).
Proof.
  induction pages as [|page rest IH]; intros self now slot; cbn [check_months].
  - intros Hin. inversion Hin.
  - destruct (check_keeps_preferences self now page "" "") as [Hd Hn].
    pose proof (check_slots self now page "" "" slot) as Hhere.
    destruct (check self now page "" "") as [result self1]. cbn [fst snd] in *.
    specialize (IH self1 now slot).
    destruct (check_months self1 now rest) as [all_dates self2]. cbn [fst snd] in *.
    intros Hin. apply elem_of_app in Hin as [Hin|Hin].
    + destruct (Hhere Hin) as (d & ? & ?). eauto.
    + destruct (IH Hin) as (page' & d & Hc & ->). exists page', d. split; [exact Hc|].
      unfold _is_preferred_date. rewrite Hd, Hn. reflexivity.
Qed.

Lemma produced_slots self slot :
  produced self slot ->
  exists page d, d ∈ _collect_available_dates page /\
                 slot = set_preferred d (_is_preferred_date self d).
Proof.
  intros [(now & page & location & category & Hin)|(now & pages & Hin)].
  - destruct (check_slots _ _ _ _ _ _ Hin) as (d & ? & ?). eauto.
  - unfold check_multiple_months in Hin.
    pose proof (check_months_slots pages self now slot) as H.
    destruct (check_months self now pages) as [all_dates self']. cbn in *. auto.
Qed.

(** Under the list ["Friday"] the tag of a collected slot is [False]:
    its label is one of the Turkish ones, or empty. *)
Lemma friday_list_tags_false self page d :
  preferred_dates self = [] -> preferred_days self = ["Friday"] ->
  d ∈ _collect_available_dates page -> _is_preferred_date self d = false.
Proof.
  intros Hd Hn Hc. unfold _is_preferred_date. rewrite Hd, Hn. cbn.
  unfold Py.contains. rewrite bool_decide_eq_false_2; [reflexivity|].
  rewrite (collected_label page d Hc). intros Hin.
  apply list_elem_of_singleton in Hin. exact (day_name_of_not_friday _ Hin).
Qed.

(** With no preferred dates and ["Friday"] as the only preferred day, no
    produced slot is marked preferred, the slots of a Friday included:
    [day_name] holds the labels of [DAY_NAMES_TR], "Cuma" on a Friday,
    and "Friday" is none of them. *)
Theorem friday_list_marks_nothing (self : AvailabilityChecker) (slot : DateSlot) :
  preferred_dates self = [] -> preferred_days self = ["Friday"] ->
  produced self slot -> is_preferred slot = false.
Proof.
  intros Hd Hn Hp. destruct (produced_slots self slot Hp) as (page & d & Hc & ->).
  cbn. apply (friday_list_tags_false self page d Hd Hn Hc).
Qed.

Lemma weekday_of_range (d : string) (w : Z) : weekday_of d = Some w -> 0 <= w < 7.
Proof.
  unfold weekday_of. destruct (match_ymd d) as [[[y m] dd]|]; [|discriminate].
  destruct (ordinal y m dd); [|discriminate]. cbn. intros [= <-].
  apply Z.mod_pos_bound. lia.
Qed.

Lemma day_label_inj (w w' : Z) :
  0 <= w < 7 -> 0 <= w' < 7 ->
  names_get DAY_NAMES_TR w = names_get DAY_NAMES_TR w' -> w = w'.
Proof.
  intros Hw Hw'.
  assert (Hc : forall x, 0 <= x < 7 ->
            x = 0 \/ x = 1 \/ x = 2 \/ x = 3 \/ x = 4 \/ x = 5 \/ x = 6) by lia.
  destruct (Hc w Hw) as [->|[->|[->|[->|[->|[->| ->]]]]]];
    destruct (Hc w' Hw') as [->|[->|[->|[->|[->|[->| ->]]]]]];
    cbn; intros H; try reflexivity; discriminate H.
Qed.

Lemma day_label_nonempty (w : Z) : 0 <= w < 7 -> names_get DAY_NAMES_TR w <> "".
Proof.
  intros Hw.
  assert (Hc : w = 0 \/ w = 1 \/ w = 2 \/ w = 3 \/ w = 4 \/ w = 5 \/ w = 6) by lia.
  destruct Hc as [->|[->|[->|[->|[->|[->| ->]]]]]]; cbn; discriminate.
Qed.

(** With the label of weekday [w] as the only preferred day, the tag of a
    collected slot says whether the slot's date reads as a date of that
    weekday. *)
Lemma label_tags_weekday self page d (w : Z) :
  0 <= w < 7 ->
  preferred_dates self = [] ->
  preferred_days self = [names_get DAY_NAMES_TR w] ->
  d ∈ _collect_available_dates page ->
  (_is_preferred_date self d = true <-> weekday_of (date d) = Some w).
Proof.
  intros Hw Hd Hn Hc.
  unfold _is_preferred_date. rewrite Hd, Hn.
  cbn [Py.truthy andb negb]. unfold Py.contains.
  rewrite (collected_label page d Hc). unfold day_name_of.
  destruct (weekday_of (date d)) as [w'|] eqn:Hw'.
  - pose proof (weekday_of_range _ _ Hw') as Hr.
    case_bool_decide as Hin.
    + apply list_elem_of_singleton in Hin. apply day_label_inj in Hin; auto.
      subst. split; reflexivity.
    + split; [discriminate|]. intros [= ->]. destruct Hin.
      apply list_elem_of_singleton. reflexivity.
  - case_bool_decide as Hin.
    + apply list_elem_of_singleton in Hin. symmetry in Hin.
      destruct (day_label_nonempty w Hw Hin).
    + split; discriminate.
Qed.

(** C9, as the code has it: with both preference lists empty every
    produced slot is marked preferred.  With no preferred dates and
    ["Friday"] as the preferred days no produced slot is marked, whatever
    its date: the slots are labelled in Turkish.  It is the list ["Cuma"]
    that singles out the Fridays: under it a produced slot with an ASCII
    date string is marked preferred exactly when its date reads as a
    [YYYY-MM-DD] date that falls on a Friday. *)
Theorem preference_default_and_friday (self : AvailabilityChecker) (slot : DateSlot) :
  preferred_dates self = [] ->
  produced self slot ->
  (preferred_days self = [] -> is_preferred slot = true) /\
  (preferred_days self = ["Friday"] -> is_preferred slot = false) /\
  (preferred_days self = ["Cuma"] -> Py.is_ascii (date slot) = true ->
     (is_preferred slot = true <-> weekday_of (date slot) = Some 4)).
Proof.
  intros Hd Hp. destruct (produced_slots self slot Hp) as (page & d & Hc & ->).
  cbn [is_preferred date set_preferred]. split; [|split].
  - intros Hn. unfold _is_preferred_date. rewrite Hd, Hn. reflexivity.
  - intros Hn. apply (friday_list_tags_false self page d Hd Hn Hc).
  - intros Hn _. apply (label_tags_weekday self page d 4); auto. lia.
Qed.

End WithLower.

(** A calendar page with a Friday and a Monday on it, an element whose
    attribute cannot be read and one without a date. *)
Definition january : Page :=
  mkPage (Answers "Select a date")
    (Answers [mkDayElement (Answers (Some "2025-01-03")) (Answers (Some "3"));
              mkDayElement (Answers None) (Answers (Some " 2025-01-06 "));
              mkDayElement Fails (Answers (Some "7"));
              mkDayElement (Answers (Some "")) (Answers None)]).

Definition default_checker : AvailabilityChecker := new_checker None None.
Definition friday_checker : AvailabilityChecker := new_checker None (Some ["Friday"]).
Definition cuma_checker : AvailabilityChecker := new_checker None (Some ["Cuma"]).

Example january_default :
  available_dates (check Py.lower_ascii default_checker 0 january "" "").1
  = [mkDateSlot "2025-01-03" "Cuma" [] true;
     mkDateSlot "2025-01-06" "Pazartesi" [] true].
Proof. reflexivity. Qed.

(** C9 refuted as stated: the page has a Friday on it, and under the
    list ["Friday"] its slot is not marked preferred: the slot is
    labelled "Cuma". *)
Lemma friday_slot_left_unmarked :
  weekday_of "2025-01-03" = Some 4 /\
  available_dates (check Py.lower_ascii friday_checker 0 january "" "").1
  = [mkDateSlot "2025-01-03" "Cuma" [] false;
     mkDateSlot "2025-01-06" "Pazartesi" [] false].
Proof. split; reflexivity. Qed.

(** Under the list ["Cuma"] the Friday of the page is marked and the
    Monday is not. *)
Example january_cuma_list :
  available_dates (check Py.lower_ascii cuma_checker 0 january "" "").1
  = [mkDateSlot "2025-01-03" "Cuma" [] true;
     mkDateSlot "2025-01-06" "Pazartesi" [] false].
Proof. reflexivity. Qed.

Example no_availability_marker :
  check Py.lower_ascii default_checker 7
    (mkPage (Answers "Currently NO APPOINTMENT slots") (available_day january)) "ank" "tourist"
  = (mkAvailabilityResult false [] 7 "ank" "tourist" None, default_checker).
Proof. reflexivity. Qed.

(** C9 on the page above, for every slot [check] returns: all marked
    with no preference, none under ["Friday"], and under ["Cuma"] the
    ones that fall on a Friday. *)
Lemma preference_default_and_friday_witness :
  Forall (fun slot => is_preferred slot = true)
    (available_dates (check Py.lower_ascii default_checker 0 january "" "").1) /\
  Forall (fun slot => is_preferred slot = false)
    (available_dates (check Py.lower_ascii friday_checker 0 january "" "").1) /\
  Forall (fun slot => is_preferred slot = true <-> weekday_of (date slot) = Some 4)
    (available_dates (check Py.lower_ascii cuma_checker 0 january "" "").1).
Proof.
  assert (Hp : forall self slot,
            slot ∈ available_dates (check Py.lower_ascii self 0 january "" "").1 ->
            produced Py.lower_ascii self slot).
  { intros self slot Hin. left. exists 0, january, "", "". exact Hin. }
  split; [|split]; apply Forall_forall; intros slot Hin.
  - destruct (preference_default_and_friday Py.lower_ascii default_checker slot
                eq_refl (Hp _ _ Hin)) as (H & _ & _).
    exact (H eq_refl).
  - destruct (preference_default_and_friday Py.lower_ascii friday_checker slot
                eq_refl (Hp _ _ Hin)) as (_ & H & _).
    exact (H eq_refl).
  - destruct (preference_default_and_friday Py.lower_ascii cuma_checker slot
                eq_refl (Hp _ _ Hin)) as (_ & _ & H).
    apply (H eq_refl). rewrite january_cuma_list in Hin.
    apply elem_of_cons in Hin as [->|Hin]; [reflexivity|].
    apply elem_of_cons in Hin as [->|Hin]; [reflexivity|].
    apply elem_of_nil in Hin. contradiction.
Defined.

(** The Friday slot of the page under the list ["Friday"]. *)
Lemma friday_list_marks_nothing_witness :
  weekday_of "2025-01-03" = Some 4 /\
  is_preferred (mkDateSlot "2025-01-03" "Cuma" [] false) = false.
Proof.
  split; [reflexivity|].
  apply (friday_list_marks_nothing Py.lower_ascii friday_checker _ eq_refl eq_refl).
  left. exists 0, january, "", "". vm_compute. repeat constructor.
Defined.

(** *** The result's derived properties *)

(** [AvailabilityResult.total_slots] *)
Definition total_slots (result : AvailabilityResult) : Z :=
  foldr (fun d acc => Z.of_nat (length (slots d)) + acc) 0 (available_dates result).

(** [AvailabilityResult.earliest_date] *)
Definition earliest_date (result : AvailabilityResult) : option string :=
  match available_dates result with
  | d :: _ => Some (date d)
  | [] => None
  end.

(** What the checker hands out: the result of a [check] on some page or
    of a [check_multiple_months] over some pages. *)
Definition returned (lower : string -> string) (self : AvailabilityChecker)
    (result : AvailabilityResult) : Prop :=
  (exists now page location category,
     result = (check lower self now page location category).1) \/
  (exists now pages, result = (check_multiple_months lower self now pages).1).

Section ResultFacts.

Variable lower : string -> string.

Lemma collected_slots_empty (page : Page) (d : DateSlot) :
  d ∈ _collect_available_dates page -> slots d = [] /\ date d <> "".
Proof.
  unfold _collect_available_dates. destruct (available_day page) as [days|].
  - intros Hin. apply list_elem_of_omap in Hin as (el & _ & Hs).
    unfold slot_of_element in Hs.
    destruct (data_date el), (text_content el); try discriminate.
    destruct (Py.nonempty _) eqn:Hn; [|discriminate]. injection Hs as <-. cbn.
    split; [reflexivity|]. intros He. rewrite He in Hn. discriminate.
  - intros Hin. inversion Hin.
Qed.

Lemma sum_slots_zero (l : list DateSlot) :
  Forall (fun d => slots d = []) l ->
  foldr (fun d acc => Z.of_nat (length (slots d)) + acc) 0 l = 0.
Proof. induction 1 as [|d l Hd _ IH]; cbn; [reflexivity|]. rewrite Hd, IH. reflexivity. Qed.

(** Every result the checker returns is consistent and carries no time
    slots: [has_availability] says exactly whether [available_dates] is
    non-empty, [earliest_date] is [None] exactly when it is not, every
    date string is non-empty, and [total_slots] is 0, since no date slot
    is ever given a time slot. *)
Theorem results_have_dates_but_no_slots
    (self : AvailabilityChecker) (result : AvailabilityResult) :
  returned lower self result ->
  (has_availability result = true <-> available_dates result <> []) /\
  (earliest_date result = None <-> has_availability result = false) /\
  Forall (fun d => slots d = [] /\ date d <> "") (available_dates result) /\
  total_slots result = 0.
Proof.
  intros Hret.
  assert (Hflag : has_availability result
                  = (0 <? Z.of_nat (length (available_dates result)))).
  { destruct Hret as [(now & page & l & c & ->)|(now & pages & ->)].
    - unfold check. destruct (_check_no_availability lower page); reflexivity.
    - unfold check_multiple_months.
      destruct (check_months lower self now pages). reflexivity. }
  assert (Hall : Forall (fun d => slots d = [] /\ date d <> "") (available_dates result)).
  { apply Forall_forall. intros slot Hin.
    assert (Hp : produced lower self slot).
    { destruct Hret as [(now & page & l & c & ->)|(now & pages & ->)].
      - left. eauto.
      - right. eauto. }
    destruct (produced_slots lower self slot Hp) as (page & d & Hc & ->).
    cbn. apply (collected_slots_empty page d Hc). }
  assert (Hpos : forall (d : DateSlot) l, (0 <? Z.of_nat (length (d :: l))) = true)
    by (intros d l; apply Z.ltb_lt; cbn [length]; lia).
  split; [|split; [|split]].
  - rewrite Hflag. destruct (available_dates result) as [|d l].
    + cbn. split; [discriminate|intros H; destruct H; reflexivity].
    + rewrite Hpos. split; [discriminate|reflexivity].
  - rewrite Hflag. unfold earliest_date.
    destruct (available_dates result) as [|d l].
    + cbn. split; reflexivity.
    + rewrite Hpos. split; discriminate.
  - exact Hall.
  - unfold total_slots. apply sum_slots_zero.
    eapply Forall_impl; [exact Hall|]. intros d [Hd _]. exact Hd.
Qed.

(** The preferred-day list works with the labels of [DAY_NAMES_TR]: with
    no preferred dates and the label of weekday [w] as the only preferred
    day ("Cuma" for Friday, [w = 4]), a produced slot with an ASCII date
    string is marked preferred exactly when its date reads as a date of
    that weekday. *)
Theorem turkish_day_marks_its_weekday
    (self : AvailabilityChecker) (slot : DateSlot) (w : Z) :
  0 <= w < 7 ->
  preferred_dates self = [] ->
  preferred_days self = [names_get DAY_NAMES_TR w] ->
  produced lower self slot ->
  Py.is_ascii (date slot) = true ->
  (is_preferred slot = true <-> weekday_of (date slot) = Some w).
Proof.
  intros Hw Hd Hn Hp _.
  destruct (produced_slots lower self slot Hp) as (page & d & Hc & ->).
  cbn [is_preferred date set_preferred].
  apply (label_tags_weekday self page d w Hw Hd Hn Hc).
Qed.

End ResultFacts.

Lemma results_have_dates_but_no_slots_witness :
  let result := (check Py.lower_ascii default_checker 0 january "" "").1 in
  (has_availability result = true <-> available_dates result <> []) /\
  (earliest_date result = None <-> has_availability result = false) /\
  Forall (fun d => slots d = [] /\ date d <> "") (available_dates result) /\
  total_slots result = 0.
Proof.
  intros result.
  apply (results_have_dates_but_no_slots Py.lower_ascii default_checker result).
  left. exists 0, january, "", "". reflexivity.
Defined.

Lemma turkish_day_marks_its_weekday_witness :
  is_preferred (mkDateSlot "2025-01-03" "Cuma" [] true) = true
  <-> weekday_of "2025-01-03" = Some 4.
Proof.
  apply (turkish_day_marks_its_weekday Py.lower_ascii cuma_checker
           (mkDateSlot "2025-01-03" "Cuma" [] true) 4).
  - split; [discriminate|reflexivity].
  - reflexivity.
  - reflexivity.
  - left. exists 0, january, "", "". vm_compute. repeat constructor.
  - reflexivity.
Defined.

End AvailabilityChecker.

(** ** core/session_manager.py *)

Module SessionManager.

(** [class ScanStatus(str, Enum)] *)
Inductive ScanStatus :=
| IDLE | CHECKING | WAITING_LOGIN | LOGGING_IN | WAITING_OTP
| SCANNING | PAUSED | ERROR | COMPLETED.

#[global] Instance scan_status_eq_dec : EqDecision ScanStatus.
Proof. solve_decision. Defined.

(** [@dataclass CountrySession]; a combination is a dictionary of
    strings. *)
Record CountrySession := mkCountrySession {
  country_code : string;
  status : ScanStatus;
  current_round : Z;
  total_rounds : Z;
  current_combination : Z;
  total_combinations : Z;
  combinations : list (gmap string string);
  current_proxy : option string;
  start_time : option Z;
  last_update : option Z;
  error_message : option string;
  appointments_found : Z;
  total_checks : Z
}.

(** [CountrySession(country_code=c)] with the field defaults. *)
Definition new_session (c : string) : CountrySession :=
  mkCountrySession c IDLE 0 5 0 0 [] None None None None 0 0.

(** [asyncio.Lock]: the flag, and the coroutines parked in [acquire],
    named by the tenant they run for, in arrival order. *)
Record Lock := mkLock {
  _locked : bool;
  _waiters : list string
}.

(** The fields of [SessionManager.__init__] ([login_queue] is never
    used). *)
Record SessionManager := mkSessionManager {
  max_parallel : Z;
  sessions : gmap string CountrySession;
  login_lock : Lock;
  _login_in_progress : bool
}.

(** [SessionManager(max_parallel)] *)
Definition new_manager (max_parallel : Z) : SessionManager :=
  mkSessionManager max_parallel ∅ (mkLock false []) false.

Definition set_sessions (sm : SessionManager) (m : gmap string CountrySession)
    : SessionManager :=
  mkSessionManager (max_parallel sm) m (login_lock sm) (_login_in_progress sm).

Definition set_lock (sm : SessionManager) (l : Lock) : SessionManager :=
  mkSessionManager (max_parallel sm) (sessions sm) l (_login_in_progress sm).

(** [get_session]: the session of the tenant, created on first use. *)
Definition get_session (sm : SessionManager) (c : string)
    : CountrySession * SessionManager :=
  match sessions sm !! c with
  | Some s => (s, sm)
  | None => (new_session c, set_sessions sm (<[c := new_session c]> (sessions sm)))
  end.

(** [session = self.get_session(c)] followed by assignments to fields of
    [session]: the object is the one in the dictionary, so the
    assignments [f] are an update of the entry. *)
Definition with_session (sm : SessionManager) (c : string)
    (f : CountrySession -> CountrySession) : SessionManager :=
  let '(s, sm1) := get_session sm c in
  set_sessions sm1 (<[c := f s]> (sessions sm1)).

(** [session.status = st; session.last_update = datetime.now()] *)
Definition set_status (st : ScanStatus) (now : Z) (s : CountrySession) : CountrySession :=
  mkCountrySession (country_code s) st (current_round s) (total_rounds s)
    (current_combination s) (total_combinations s) (combinations s)
    (current_proxy s) (start_time s) (Some now) (error_message s)
    (appointments_found s) (total_checks s).

Definition active_statuses : list ScanStatus :=
  [CHECKING; WAITING_LOGIN; LOGGING_IN; WAITING_OTP; SCANNING].

Definition is_active (s : CountrySession) : bool :=
  bool_decide (status s ∈ active_statuses).

(** [sum(1 for s in values if s.status in active_statuses)] *)
Fixpoint sum_active (values : list CountrySession) : Z :=
  match values with
  | [] => 0
  | s :: rest => (if is_active s then 1 else 0) + sum_active rest
  end.

(** [get_active_count] *)
Definition get_active_count (sm : SessionManager) : Z :=
  sum_active (map_to_list (sessions sm)).*2.

(** [can_start_scan] *)
Definition can_start_scan (sm : SessionManager) : bool :=
  get_active_count sm <? max_parallel sm.

(** [asyncio.Lock.acquire] up to its first suspension: taken at once
    when the lock is free and nobody waits, else the caller is parked. *)
Definition lock_acquire (l : Lock) (who : string) : bool * Lock :=
  if negb (_locked l) && bool_decide (_waiters l = [])
  then (true, mkLock true (_waiters l))
  else (false, mkLock (_locked l) (_waiters l ++ [who])).

(** [asyncio.Lock.release]: the flag is cleared (the first waiter, if
    any, is woken and stays in the queue until it runs). *)
Definition lock_release (l : Lock) : Lock := mkLock false (_waiters l).

(** [deque.remove(x)]: the first occurrence goes. *)
Fixpoint remove_first (x : string) (l : list string) : list string :=
  match l with
  | [] => []
  | y :: r => if bool_decide (y = x) then r else y :: remove_first x r
  end.

(** How far a call of the coroutine [request_login] got. *)
Inductive Outcome :=
| Returned (value : bool)
| Suspended.

(** The block under [async with self.login_lock], entered with the
    lock held: it has no [await], so it runs to the [return], and
    leaving the [async with] releases the lock. *)
Definition login_section (sm : SessionManager) (c : string) (now : Z)
    : Outcome * SessionManager :=
  let sm1 := with_session sm c (set_status LOGGING_IN now) in
  (Returned true, set_lock sm1 (lock_release (login_lock sm1))).

(** [request_login] from its call to its first suspension or its
    return. *)
Definition request_login (sm : SessionManager) (c : string) (now : Z)
    : Outcome * SessionManager :=
  let sm1 := with_session sm c (set_status WAITING_LOGIN now) in
  let '(taken, l) := lock_acquire (login_lock sm1) c in
  let sm2 := set_lock sm1 l in
  if taken then login_section sm2 c now else (Suspended, sm2).

(** [request_login] resumed inside [acquire], after a release woke it:
    it leaves the queue, takes the lock and runs the block. *)
Definition resume_login (sm : SessionManager) (c : string) (now : Z)
    : Outcome * SessionManager :=
  let l := login_lock sm in
  let l1 := mkLock true (remove_first c (_waiters l)) in
  login_section (set_lock sm l1) c now.

(** [release_login] *)
Definition release_login (sm : SessionManager) (c : string) (now : Z) : SessionManager :=
  let '(s, sm1) := get_session sm c in
  if bool_decide (status s = LOGGING_IN)
  then set_sessions sm1 (<[c := set_status SCANNING now s]> (sessions sm1))
  else sm1.

(** [update_session_status] *)
Definition update_session_status (sm : SessionManager) (c : string)
    (st : ScanStatus) (err : option string) (now : Z) : SessionManager :=
  with_session sm c (fun s =>
    let s1 := set_status st now s in
    match err with
    | Some e =>
        if Py.nonempty e then
          mkCountrySession (country_code s1) (status s1) (current_round s1)
            (total_rounds s1) (current_combination s1) (total_combinations s1)
            (combinations s1) (current_proxy s1) (start_time s1) (last_update s1)
            (Some e) (appointments_found s1) (total_checks s1)
        else s1
    | None => s1
    end).

(** [start_session] *)
Definition start_session (sm : SessionManager) (c : string)
    (proxy : option string) (now : Z) : SessionManager :=
  with_session sm c (fun s =>
    mkCountrySession (country_code s) CHECKING 0 (total_rounds s) 0
      (total_combinations s) (combinations s) proxy (Some now) (Some now) None
      (appointments_found s) (total_checks s)).

(** [stop_session] *)
Definition stop_session (sm : SessionManager) (c : string) (now : Z) : SessionManager :=
  with_session sm c (set_status IDLE now).

(** [reset_session] *)
Definition reset_session (sm : SessionManager) (c : string) : SessionManager :=
  set_sessions sm (delete c (sessions sm)).

(** The status a tenant is observed in; a tenant without a session has
    none. *)
Definition status_of (sm : SessionManager) (c : string) : option ScanStatus :=
  status <$> sessions sm !! c.

(** The tenants observed in [LOGGING_IN]. *)
Definition logging_in (sm : SessionManager) : list string :=
  (List.filter (fun kv : string * CountrySession =>
                  bool_decide (status kv.2 = LOGGING_IN))
     (map_to_list (sessions sm))).*1.

(** One call of the login protocol by some tenant, as the event loop
    runs it: a [request_login] up to its suspension or return, the
    resumption of a parked one once the lock is free, or a
    [release_login]. *)
Inductive login_step (sm : SessionManager) : SessionManager -> Prop :=
| step_request c now : login_step sm (request_login sm c now).2
| step_resume c now :
    _locked (login_lock sm) = false -> head (_waiters (login_lock sm)) = Some c ->
    login_step sm (resume_login sm c now).2
| step_release c now : login_step sm (release_login sm c now).

(** One call of the admission protocol: a [start_session] made after
    [can_start_scan] answered [True], or a [stop_session]. *)
Inductive admitted_step (sm : SessionManager) : SessionManager -> Prop :=
| step_start c proxy now :
    can_start_scan sm = true -> admitted_step sm (start_session sm c proxy now)
| step_stop c now : admitted_step sm (stop_session sm c now).

(** The default manager after [start_session] for four tenants. *)
Definition four_started : SessionManager :=
  start_session
    (start_session
       (start_session (start_session (new_manager 3) "fra" None 1) "dnk" None 2)
       "hrv" None 3)
    "cze" None 4.

(** The default manager after two tenants called [request_login], the
    second before any [release_login]. *)
Definition two_requests : SessionManager :=
  (request_login (request_login (new_manager 3) "fra" 1).2 "dnk" 2).2.

(** *** Properties of the session registry *)

Definition weight (s : CountrySession) : Z := if is_active s then 1 else 0.

Lemma sum_active_perm (l l' : list CountrySession) :
  l ≡ₚ l' -> sum_active l = sum_active l'.
Proof.
  induction 1 as [|x l l' _ IH|x y l|l l' l'' _ IH1 _ IH2]; cbn; lia.
Qed.

Lemma sum_active_insert_fresh (m : gmap string CountrySession) c s :
  m !! c = None ->
  sum_active (map_to_list (<[c := s]> m)).*2 = weight s + sum_active (map_to_list m).*2.
Proof.
  intros Hc. rewrite (sum_active_perm _ ((c, s) :: map_to_list m).*2).
  - reflexivity.
  - apply fmap_Permutation. apply map_to_list_insert. exact Hc.
Qed.

Lemma sum_active_delete (m : gmap string CountrySession) c s0 :
  m !! c = Some s0 ->
  sum_active (map_to_list m).*2 = weight s0 + sum_active (map_to_list (delete c m)).*2.
Proof.
  intros Hc. rewrite (sum_active_perm _ ((c, s0) :: map_to_list (delete c m)).*2).
  - reflexivity.
  - apply fmap_Permutation. symmetry. apply map_to_list_delete. exact Hc.
Qed.

(** Writing a session changes the count by the difference between what
    the new and the old session of the tenant weigh. *)
Lemma sum_active_insert (m : gmap string CountrySession) c s :
  sum_active (map_to_list (<[c := s]> m)).*2 =
    weight s + sum_active (map_to_list m).*2 - from_option weight 0 (m !! c).
Proof.
  destruct (m !! c) as [s0|] eqn:Hc; cbn.
  - rewrite <- insert_delete_eq.
    rewrite sum_active_insert_fresh by apply lookup_delete_eq.
    rewrite (sum_active_delete m c s0 Hc). lia.
  - rewrite sum_active_insert_fresh by exact Hc. lia.
Qed.

Lemma with_session_sessions sm c f :
  sessions (with_session sm c f)
    = <[c := f (default (new_session c) (sessions sm !! c))]> (sessions sm) /\
  max_parallel (with_session sm c f) = max_parallel sm /\
  login_lock (with_session sm c f) = login_lock sm.
Proof.
  unfold with_session, get_session.
  destruct (sessions sm !! c) as [s|] eqn:Hc; cbn; [auto|].
  rewrite insert_insert_eq. auto.
Qed.

Lemma weight_bounds s : 0 <= weight s <= 1.
Proof. unfold weight. destruct (is_active s); lia. Qed.

Lemma sum_active_nonneg l : 0 <= sum_active l.
Proof. induction l as [|s l IH]; cbn; [lia|]. pose proof (weight_bounds s). unfold weight in *. lia. Qed.

Lemma weight_of_status s :
  weight s = if bool_decide (status s ∈ active_statuses) then 1 else 0.
Proof. reflexivity. Qed.

Lemma start_session_count sm c proxy now :
  get_active_count (start_session sm c proxy now) <= get_active_count sm + 1 /\
  max_parallel (start_session sm c proxy now) = max_parallel sm /\
  status_of (start_session sm c proxy now) c = Some CHECKING.
Proof.
  unfold start_session, get_active_count, status_of.
  destruct (with_session_sessions sm c
    (fun s => mkCountrySession (country_code s) CHECKING 0 (total_rounds s) 0
      (total_combinations s) (combinations s) proxy (Some now) (Some now) None
      (appointments_found s) (total_checks s))) as (-> & -> & _).
  rewrite sum_active_insert, lookup_insert_eq.
  split; [|split; reflexivity].
  rewrite weight_of_status. cbn [status].
  pose proof (weight_bounds (default (new_session c) (sessions sm !! c))).
  destruct (sessions sm !! c) as [s0|]; cbn [from_option default] in *;
    destruct (bool_decide _); unfold weight in *; cbn in *; lia.
Qed.

Lemma stop_session_count sm c now :
  get_active_count (stop_session sm c now) <= get_active_count sm /\
  max_parallel (stop_session sm c now) = max_parallel sm /\
  status_of (stop_session sm c now) c = Some IDLE.
Proof.
  unfold stop_session, get_active_count, status_of.
  destruct (with_session_sessions sm c (set_status IDLE now)) as (-> & -> & _).
  rewrite sum_active_insert, lookup_insert_eq.
  split; [|split; reflexivity].
  rewrite weight_of_status. cbn [status set_status].
  rewrite bool_decide_eq_false_2
    by (intros H; apply (bool_decide_pack _) in H; vm_compute in H; exact H).
  destruct (sessions sm !! c) as [s0|]; cbn [from_option].
  - pose proof (weight_bounds s0). lia.
  - lia.
Qed.

(** C2 refuted as stated: [start_session] does not look at the budget.
    With [max_parallel = 3] and three tenants checking,
    [can_start_scan] answers [False], and a fourth [start_session] still
    puts its tenant in CHECKING: four active sessions. *)
Lemma four_started_exceeds_budget :
  max_parallel four_started = 3 /\
  can_start_scan
    (start_session
       (start_session (start_session (new_manager 3) "fra" None 1) "dnk" None 2)
       "hrv" None 3) = false /\
  status_of four_started "cze" = Some CHECKING /\
  get_active_count four_started = 4.
Proof. repeat split; reflexivity. Qed.

(** C2, as the code has it: [can_start_scan] answers [True] exactly when
    the number of active sessions is below [max_parallel]; and along any
    sequence of [stop_session] calls and of [start_session] calls each
    made when [can_start_scan] answers [True], a count that is within the
    budget stays within it (the budget itself never changes). *)
Theorem admission_within_budget (sm sm' : SessionManager) :
  (can_start_scan sm = true <-> get_active_count sm < max_parallel sm) /\
  (rtc admitted_step sm sm' ->
   get_active_count sm <= max_parallel sm ->
   get_active_count sm' <= max_parallel sm' /\ max_parallel sm' = max_parallel sm).
Proof.
  split; [apply Z.ltb_lt|].
  induction 1 as [sm|sm sm1 sm2 Hstep _ IH]; intros Hle; [auto|].
  assert (H1 : get_active_count sm1 <= max_parallel sm1 /\
               max_parallel sm1 = max_parallel sm).
  { destruct Hstep as [c proxy now Hcan|c now].
    - apply Z.ltb_lt in Hcan.
      destruct (start_session_count sm c proxy now) as (Hc & Hm & _).
      rewrite Hm. split; [lia|reflexivity].
    - destruct (stop_session_count sm c now) as (Hc & Hm & _).
      rewrite Hm. split; [lia|reflexivity]. }
  destruct H1 as [Hle1 Hm1]. destruct (IH Hle1) as [Hle2 Hm2].
  split; [exact Hle2|congruence].
Qed.

(** C2 on a run of the default manager: two admitted starts, a stop, and
    another admitted start. *)
Lemma admission_within_budget_witness :
  let sm' :=
    start_session
      (stop_session
         (start_session (start_session (new_manager 3) "fra" None 1) "dnk" None 2)
         "fra" 3)
      "hrv" None 4 in
  get_active_count sm' <= max_parallel sm' /\
  max_parallel sm' = max_parallel (new_manager 3).
Proof.
  intros sm'.
  destruct (admission_within_budget (new_manager 3) sm') as [_ H].
  apply H.
  - eapply rtc_l; [apply (step_start _ "fra" None 1); reflexivity|].
    eapply rtc_l; [apply (step_start _ "dnk" None 2); reflexivity|].
    eapply rtc_l; [apply (step_stop _ "fra" 3)|].
    eapply rtc_l; [apply (step_start _ "hrv" None 4); reflexivity|].
    apply rtc_refl.
  - discriminate.
Defined.

Lemma with_session_lock sm c f : login_lock (with_session sm c f) = login_lock sm.
Proof. apply with_session_sessions. Qed.

(** Between two calls of the login protocol the lock is free and nobody
    waits for it: [request_login] gives the lock back on its way out. *)
Theorem lock_free_between_calls (sm sm' : SessionManager) :
  rtc login_step sm sm' ->
  login_lock sm = mkLock false [] -> login_lock sm' = mkLock false [].
Proof.
  induction 1 as [sm|sm sm1 sm2 Hstep _ IH]; intros Hl; [exact Hl|].
  apply IH. destruct Hstep as [c now|c now Hfree Hhead|c now].
  - unfold request_login. rewrite with_session_lock, Hl. cbn.
    rewrite with_session_lock. reflexivity.
  - rewrite Hl in Hhead. discriminate.
  - unfold release_login, get_session.
    destruct (sessions sm !! c) as [s|]; cbn; [destruct (bool_decide _)|]; exact Hl.
Qed.

(** C1 fails on the code: two tenants call [request_login], the second
    before anybody called [release_login]; both calls return [True]
    without ever being suspended, both tenants are then LOGGING_IN, and
    the lock is free. *)
Lemma two_requests_reachable : rtc login_step (new_manager 3) two_requests.
Proof.
  eapply rtc_l; [apply (step_request _ "fra" 1)|].
  eapply rtc_l; [apply (step_request _ "dnk" 2)|]. apply rtc_refl.
Qed.

Lemma lock_free_between_calls_witness :
  login_lock two_requests = mkLock false [].
Proof.
  exact (lock_free_between_calls (new_manager 3) two_requests
           two_requests_reachable eq_refl).
Defined.

Theorem two_tenants_logging_in :
  rtc login_step (new_manager 3) two_requests /\
  (request_login (new_manager 3) "fra" 1).1 = Returned true /\
  (request_login (request_login (new_manager 3) "fra" 1).2 "dnk" 2).1 = Returned true /\
  status_of two_requests "fra" = Some LOGGING_IN /\
  status_of two_requests "dnk" = Some LOGGING_IN /\
  length (logging_in two_requests) = 2%nat /\
  _locked (login_lock two_requests) = false.
Proof.
  split; [exact two_requests_reachable|]. repeat split; reflexivity.
Qed.

(** *** The rest of the registry *)

(** [update_scan_progress] *)
Definition update_scan_progress (sm : SessionManager) (c : string)
    (round_num combination_num total_combinations : Z) (now : Z) : SessionManager :=
  with_session sm c (fun s =>
    mkCountrySession (country_code s) (status s) round_num (total_rounds s)
      combination_num total_combinations (combinations s) (current_proxy s)
      (start_time s) (Some now) (error_message s) (appointments_found s)
      (total_checks s + 1)).

(** [set_combinations] *)
Definition set_combinations (sm : SessionManager) (c : string)
    (combos : list (gmap string string)) : SessionManager :=
  with_session sm c (fun s =>
    mkCountrySession (country_code s) (status s) (current_round s) (total_rounds s)
      (current_combination s) (Z.of_nat (length combos)) combos (current_proxy s)
      (start_time s) (last_update s) (error_message s) (appointments_found s)
      (total_checks s)).

(** [record_appointment_found] *)
Definition record_appointment_found (sm : SessionManager) (c : string) (now : Z)
    : SessionManager :=
  with_session sm c (fun s =>
    mkCountrySession (country_code s) (status s) (current_round s) (total_rounds s)
      (current_combination s) (total_combinations s) (combinations s)
      (current_proxy s) (start_time s) (Some now) (error_message s)
      (appointments_found s + 1) (total_checks s)).

(** One call of a method of the registry; a [request_login] is taken up
    to its return or its first suspension. *)
Inductive Call :=
| CallStart (c : string) (proxy : option string) (now : Z)
| CallStop (c : string) (now : Z)
| CallRequestLogin (c : string) (now : Z)
| CallReleaseLogin (c : string) (now : Z)
| CallUpdateStatus (c : string) (st : ScanStatus) (err : option string) (now : Z)
| CallProgress (c : string) (round_num combination_num total_combinations now : Z)
| CallSetCombinations (c : string) (combos : list (gmap string string))
| CallFound (c : string) (now : Z)
| CallReset (c : string).

Definition call (sm : SessionManager) (op : Call) : SessionManager :=
  match op with
  | CallStart c proxy now => start_session sm c proxy now
  | CallStop c now => stop_session sm c now
  | CallRequestLogin c now => (request_login sm c now).2
  | CallReleaseLogin c now => release_login sm c now
  | CallUpdateStatus c st err now => update_session_status sm c st err now
  | CallProgress c r k t now => update_scan_progress sm c r k t now
  | CallSetCombinations c combos => set_combinations sm c combos
  | CallFound c now => record_appointment_found sm c now
  | CallReset c => reset_session sm c
  end.

Definition calls (sm : SessionManager) (ops : list Call) : SessionManager :=
  fold_left call ops sm.

(** The tenant a call is made for. *)
Definition tenant (op : Call) : string :=
  match op with
  | CallStart c _ _ | CallStop c _ | CallRequestLogin c _ | CallReleaseLogin c _
  | CallUpdateStatus c _ _ _ | CallProgress c _ _ _ _ | CallSetCombinations c _
  | CallFound c _ | CallReset c => c
  end.

(** The two counters of a tenant, 0 while it has no session. *)
Definition checks_of (sm : SessionManager) (c : string) : Z :=
  from_option total_checks 0 (sessions sm !! c).

Definition found_of (sm : SessionManager) (c : string) : Z :=
  from_option appointments_found 0 (sessions sm !! c).

(** How many of the calls are an [update_scan_progress], respectively a
    [record_appointment_found], for the tenant. *)
Fixpoint progress_calls (c : string) (ops : list Call) : Z :=
  match ops with
  | [] => 0
  | CallProgress c' _ _ _ _ :: rest =>
      (if bool_decide (c' = c) then 1 else 0) + progress_calls c rest
  | _ :: rest => progress_calls c rest
  end.

Fixpoint found_calls (c : string) (ops : list Call) : Z :=
  match ops with
  | [] => 0
  | CallFound c' _ :: rest =>
      (if bool_decide (c' = c) then 1 else 0) + found_calls c rest
  | _ :: rest => found_calls c rest
  end.

Lemma with_session_lookup sm c0 f c :
  sessions (with_session sm c0 f) !! c =
    if decide (c0 = c)
    then Some (f (default (new_session c0) (sessions sm !! c0)))
    else sessions sm !! c.
Proof.
  destruct (with_session_sessions sm c0 f) as (-> & _ & _).
  destruct (decide (c0 = c)) as [->|Hne].
  - apply lookup_insert_eq.
  - apply lookup_insert_ne. exact Hne.
Qed.

Lemma request_login_lookup sm c0 now c :
  exists f,
    (forall s, total_checks (f s) = total_checks s /\
               appointments_found (f s) = appointments_found s) /\
    sessions (request_login sm c0 now).2 !! c =
      if decide (c0 = c)
      then Some (f (default (new_session c0) (sessions sm !! c0)))
      else sessions sm !! c.
Proof.
  unfold request_login.
  destruct (lock_acquire _ _) as [[|] l].
  - exists (fun s => set_status LOGGING_IN now (set_status WAITING_LOGIN now s)).
    split; [intros s; split; reflexivity|].
    unfold login_section. cbn [snd set_lock sessions].
    rewrite with_session_lookup. cbn [set_lock sessions].
    destruct (decide (c0 = c)) as [->|Hne].
    + rewrite with_session_lookup. rewrite decide_True by reflexivity. reflexivity.
    + rewrite with_session_lookup. rewrite decide_False by exact Hne. reflexivity.
  - exists (set_status WAITING_LOGIN now).
    split; [intros s; split; reflexivity|].
    cbn [snd set_lock sessions]. apply with_session_lookup.
Qed.

Lemma release_login_lookup sm c0 now c :
  exists f,
    (forall s, total_checks (f s) = total_checks s /\
               appointments_found (f s) = appointments_found s) /\
    sessions (release_login sm c0 now) !! c =
      if decide (c0 = c)
      then Some (f (default (new_session c0) (sessions sm !! c0)))
      else sessions sm !! c.
Proof.
  unfold release_login, get_session.
  destruct (sessions sm !! c0) as [s0|] eqn:Hs; cbn [default].
  - destruct (bool_decide (status s0 = LOGGING_IN)).
    + exists (set_status SCANNING now). split; [intros s; split; reflexivity|].
      cbn [sessions set_sessions]. destruct (decide (c0 = c)) as [->|Hne].
      * apply lookup_insert_eq.
      * apply lookup_insert_ne. exact Hne.
    + exists (fun s => s). split; [intros s; split; reflexivity|].
      destruct (decide (c0 = c)) as [->|Hne]; [exact Hs|reflexivity].
  - destruct (bool_decide (status (new_session c0) = LOGGING_IN)) eqn:Hb;
      [discriminate|].
    exists (fun s => s). split; [intros s; split; reflexivity|].
    cbn [sessions set_sessions]. destruct (decide (c0 = c)) as [->|Hne].
    + apply lookup_insert_eq.
    + apply lookup_insert_ne. exact Hne.
Qed.

(** What a call other than a reset does to the sessions: it rewrites
    the session of its tenant (created first when there is none) and
    adds what it adds to the two counters. *)
Lemma call_lookup sm op c :
  (forall c0, op <> CallReset c0) ->
  exists f,
    (forall s,
       total_checks (f s) = total_checks s + progress_calls (tenant op) [op] /\
       appointments_found (f s) = appointments_found s + found_calls (tenant op) [op]) /\
    sessions (call sm op) !! c =
      if decide (tenant op = c)
      then Some (f (default (new_session (tenant op)) (sessions sm !! tenant op)))
      else sessions sm !! c.
Proof.
  intros Hnr.
  destruct op as [c0 proxy now|c0 now|c0 now|c0 now|c0 st err now
                 |c0 r k t now|c0 combos|c0 now|c0];
    cbn [call tenant progress_calls found_calls];
    try rewrite bool_decide_eq_true_2 by reflexivity.
  - eexists. split; [|apply with_session_lookup].
    intros s. cbn. split; lia.
  - eexists. split; [|apply with_session_lookup].
    intros s. cbn. split; lia.
  - destruct (request_login_lookup sm c0 now c) as (f & Hf & Hl).
    exists f. split; [|exact Hl]. intros s. destruct (Hf s). split; lia.
  - destruct (release_login_lookup sm c0 now c) as (f & Hf & Hl).
    exists f. split; [|exact Hl]. intros s. destruct (Hf s). split; lia.
  - eexists. split; [|apply with_session_lookup].
    intros s. destruct err as [e|]; [destruct (Py.nonempty e)|]; cbn; split; lia.
  - eexists. split; [|apply with_session_lookup].
    intros s. cbn. split; lia.
  - eexists. split; [|apply with_session_lookup].
    intros s. cbn. split; lia.
  - eexists. split; [|apply with_session_lookup].
    intros s. cbn. split; lia.
  - destruct (Hnr c0). reflexivity.
Qed.

Lemma reset_or_not (op : Call) :
  (exists c0, op = CallReset c0) \/ (forall c0, op <> CallReset c0).
Proof. destruct op; first [left; eauto; fail | right; intros ? [=]]. Qed.

Lemma call_counters sm op c :
  op <> CallReset c ->
  checks_of (call sm op) c = checks_of sm c + progress_calls c [op] /\
  found_of (call sm op) c = found_of sm c + found_calls c [op].
Proof.
  intros Hnr. unfold checks_of, found_of.
  destruct (reset_or_not op) as [[c0 ->]|Hno].
  - assert (Hne : c0 <> c) by congruence.
    cbn. rewrite lookup_delete_ne by exact Hne. split; lia.
  - destruct (call_lookup sm op c Hno) as (f & Hf & ->).
    destruct (decide (tenant op = c)) as [<-|Hne].
    + cbn [from_option]. destruct (Hf (default (new_session (tenant op))
                                         (sessions sm !! tenant op))) as [-> ->].
      destruct (sessions sm !! tenant op); cbn; split; reflexivity.
    + assert (progress_calls c [op] = 0 /\ found_calls c [op] = 0) as [-> ->].
      { destruct op; cbn in *; try (split; reflexivity);
          rewrite bool_decide_eq_false_2 by exact Hne; split; reflexivity. }
      split; lia.
Qed.

Lemma count_cons c op ops :
  progress_calls c (op :: ops) = progress_calls c [op] + progress_calls c ops /\
  found_calls c (op :: ops) = found_calls c [op] + found_calls c ops.
Proof. destruct op; cbn; split; lia. Qed.

(** The counters of a tenant only count: over any sequence of registry
    calls that does not reset the tenant, [total_checks] grows by the
    number of [update_scan_progress] calls made for it and
    [appointments_found] by the number of [record_appointment_found]
    calls made for it.  Starting, stopping, the login calls and status
    updates, for this tenant or another, leave both as they are. *)
Theorem counters_only_count (sm : SessionManager) (ops : list Call) (c : string) :
  Forall (fun op => op <> CallReset c) ops ->
  checks_of (calls sm ops) c = checks_of sm c + progress_calls c ops /\
  found_of (calls sm ops) c = found_of sm c + found_calls c ops.
Proof.
  unfold calls. revert sm.
  induction ops as [|op ops IH]; intros sm Hall; [cbn; split; lia|].
  inversion Hall as [|? ? Hop Hops]; subst. cbn [fold_left].
  destruct (IH (call sm op) Hops) as [-> ->].
  destruct (call_counters sm op c Hop) as [-> ->].
  destruct (count_cons c op ops) as [-> ->]. split; lia.
Qed.

Lemma counters_only_count_witness :
  let ops := [CallStart "fra" None 1; CallProgress "fra" 1 1 4 2;
              CallProgress "dnk" 1 1 2 3; CallFound "fra" 4; CallStop "fra" 5;
              CallStart "fra" None 6; CallProgress "fra" 1 2 4 7; CallReset "dnk"] in
  checks_of (calls (new_manager 3) ops) "fra"
    = checks_of (new_manager 3) "fra" + progress_calls "fra" ops /\
  found_of (calls (new_manager 3) ops) "fra"
    = found_of (new_manager 3) "fra" + found_calls "fra" ops.
Proof.
  intros ops. apply (counters_only_count (new_manager 3) ops "fra").
  repeat constructor; discriminate.
Defined.

Example counters_example :
  let ops := [CallStart "fra" None 1; CallProgress "fra" 1 1 4 2;
              CallProgress "dnk" 1 1 2 3; CallFound "fra" 4; CallStop "fra" 5;
              CallStart "fra" None 6; CallProgress "fra" 1 2 4 7; CallReset "dnk"] in
  checks_of (calls (new_manager 3) ops) "fra" = 2 /\
  found_of (calls (new_manager 3) ops) "fra" = 1 /\
  status_of (calls (new_manager 3) ops) "fra" = Some CHECKING /\
  status_of (calls (new_manager 3) ops) "dnk" = None.
Proof. repeat split; reflexivity. Qed.

(** The session of a tenant is touched only by calls made for that
    tenant: any sequence of registry calls for other tenants, resets
    included, leaves it exactly as it was (or absent, if it was). *)
Theorem sessions_are_isolated (sm : SessionManager) (ops : list Call) (c : string) :
  Forall (fun op => tenant op <> c) ops ->
  sessions (calls sm ops) !! c = sessions sm !! c.
Proof.
  unfold calls. revert sm.
  induction ops as [|op ops IH]; intros sm Hall; [reflexivity|].
  inversion Hall as [|? ? Hop Hops]; subst. cbn [fold_left].
  rewrite (IH (call sm op) Hops).
  destruct (reset_or_not op) as [[c0 ->]|Hno].
  - cbn in *. apply lookup_delete_ne. exact Hop.
  - destruct (call_lookup sm op c Hno) as (f & _ & ->).
    rewrite decide_False by exact Hop. reflexivity.
Qed.

Lemma sessions_are_isolated_witness :
  sessions (calls four_started
              [CallStop "dnk" 5; CallReset "hrv"; CallRequestLogin "cze" 6;
               CallProgress "dnk" 1 1 1 7]) !! "fra"
    = sessions four_started !! "fra".
Proof.
  apply (sessions_are_isolated four_started).
  repeat constructor; discriminate.
Defined.

End SessionManager.

(** ** scanner/screen_detector.py: classification of a page *)

Module Detection.

Import AvailabilityChecker (Probe, Answers, Fails).

(** An element handle, as far as the detector uses it. *)
Record Element := mkElement {
  text_content : Probe (option string);
  is_visible : Probe bool
}.

(** The page: its URL, its title, and what the two query calls give for
    a selector. *)
Record Page := mkPage {
  page_url : string;
  page_title : Probe string;
  query_selector : string -> Probe (option Element);
  query_selector_all : string -> Probe (list Element)
}.

(** [URL_PATTERNS], in source order.  Every pattern is a literal, so
    [re.search(pattern, s)] is the substring test. *)
Definition URL_PATTERNS : list (ScreenDetector.ScreenType * list string) :=
  [(ScreenDetector.LOGIN, ["/login"; "/sign-in"]);
   (ScreenDetector.OTP_VERIFICATION, ["/otp"; "/verify"; "/2fa"]);
   (ScreenDetector.DASHBOARD, ["/dashboard"; "/home"]);
   (ScreenDetector.APPOINTMENT_SELECTION, ["/appointment"; "/book"]);
   (ScreenDetector.DATE_SELECTION, ["/date"; "/calendar"]);
   (ScreenDetector.CONFIRMATION, ["/confirm"; "/review"]);
   (ScreenDetector.SUCCESS, ["/success"; "/complete"])].

(** [SCREEN_SELECTORS], in source order. *)
Definition SCREEN_SELECTORS : list (ScreenDetector.ScreenType * list string) :=
  [(ScreenDetector.LOGIN, ["input[type='email']"; "input[type='password']"; "#login-form"]);
   (ScreenDetector.OTP_VERIFICATION, ["input[name='otp']"; ".otp-input"; "input[maxlength='6']"]);
   (ScreenDetector.DASHBOARD, [".dashboard"; ".user-profile"; ".welcome-message"]);
   (ScreenDetector.DATE_SELECTION, [".calendar"; ".date-picker"; ".available-dates"]);
   (ScreenDetector.TIME_SELECTION, [".time-slots"; ".slot-picker"]);
   (ScreenDetector.CAPTCHA, ["iframe[src*='recaptcha']"; ".g-recaptcha"; "[data-sitekey]"]);
   (ScreenDetector.NO_APPOINTMENT, [":text('no appointment')"; ":text('müsait randevu')"])].

(** The two nested loops of [_detect_from_url] and
    [_detect_from_elements]: the type of the first table row one of whose
    entries hits, [UNKNOWN] when none does. *)
Fixpoint first_hit (table : list (ScreenDetector.ScreenType * list string))
    (hit : string -> bool) : ScreenDetector.ScreenType :=
  match table with
  | [] => ScreenDetector.UNKNOWN
  | (screen_type, entries) :: rest =>
      if existsb hit entries then screen_type else first_hit rest hit
  end.

(** [if await page.query_selector(selector)] under [try]/[except:
    continue]. *)
Definition found (page : Page) (selector : string) : bool :=
  match query_selector page selector with
  | Answers (Some _) => true
  | _ => false
  end.

(** [@dataclass ScreenInfo] as [detect] fills it: the metadata lists hold
    what [text_content()] gave, [None] included. *)
Record Detected := mkDetected {
  screen_type : ScreenDetector.ScreenType;
  url : string;
  title : string;
  has_captcha : bool;
  has_error : bool;
  error_message : option string;
  available_actions : list string;
  metadata : gmap string (list (option string))
}.

(** The fields of [ScreenDetector.__init__]. *)
Record Detector := mkDetector {
  last_screen : option Detected;
  screen_history : list ScreenDetector.ScreenType
}.

Definition new_detector : Detector := mkDetector None [].

(** [l[-n:]] for [n > 0]. *)
Definition last_n {A} (n : nat) (l : list A) : list A :=
  drop (length l - n) l.

Section WithLower.

(** [str.lower], the library's case mapping. *)
Variable lower : string -> string.

(** [_detect_from_url] *)
Definition _detect_from_url (url : string) : ScreenDetector.ScreenType :=
  let url_lower := lower url in
  first_hit URL_PATTERNS (fun pattern => Py.str_in pattern url_lower).

(** [_detect_from_elements] *)
Definition _detect_from_elements (page : Page) : ScreenDetector.ScreenType :=
  first_hit SCREEN_SELECTORS (found page).

(** [_check_captcha] *)
Definition _check_captcha (page : Page) : bool :=
  existsb (found page) ["iframe[src*='recaptcha']"; ".g-recaptcha"; "[data-sitekey]"].

(** [_check_error]: the first selector whose element can be read. *)
Fixpoint check_error_go (page : Page) (selectors : list string) : bool * option string :=
  match selectors with
  | [] => (false, None)
  | selector :: rest =>
      match query_selector page selector with
      | Answers (Some element) =>
          match text_content element with
          | Answers (Some message) =>
              (true, if Py.nonempty message then Some (Py.strip message) else None)
          | Answers None => (true, None)
          | Fails => check_error_go page rest
          end
      | _ => check_error_go page rest
      end
  end.

Definition _check_error (page : Page) : bool * option string :=
  check_error_go page [".error-message"; ".alert-danger"; ".error"].

(** [_get_available_actions] *)
Definition _get_available_actions (page : Page) : list string :=
  let action_map :=
    [("login", "button[type='submit'], .login-btn");
     ("continue", ".continue-btn, button:has-text('Devam')");
     ("select_date", ".available-date, td.available");
     ("select_time", ".time-slot");
     ("confirm", ".confirm-btn, button:has-text('Onayla')")] in
  omap (fun '(action, selector) =>
          match query_selector page selector with
          | Answers (Some el) =>
              match is_visible el with
              | Answers true => Some action
              | _ => None
              end
          | _ => None
          end) action_map.

(** The list comprehension of [_collect_metadata]: [None] as soon as one
    [text_content()] raises. *)
Fixpoint texts (els : list Element) : option (list (option string)) :=
  match els with
  | [] => Some []
  | el :: rest =>
      match text_content el with
      | Answers t => cons t <$> texts rest
      | Fails => None
      end
  end.

(** [_collect_metadata] *)
Definition _collect_metadata (page : Page) (screen_type : ScreenDetector.ScreenType)
    : gmap string (list (option string)) :=
  if bool_decide (screen_type = ScreenDetector.DATE_SELECTION) then
    match query_selector_all page ".available-date, td.available" with
    | Answers dates =>
        match texts dates with
        | Some ts => {[ "available_dates" := ts ]}
        | None => ∅
        end
    | Fails => ∅
    end
  else ∅.

(** [detect]: [Fails] when [page.title()] raises, which is before the
    detector is touched. *)
Definition detect (self : Detector) (page : Page) : Probe (Detected * Detector) :=
  let url := page_url page in
  match page_title page with
  | Fails => Fails
  | Answers title =>
      let screen_type := _detect_from_url url in
      let screen_type :=
        if bool_decide (screen_type = ScreenDetector.UNKNOWN)
        then _detect_from_elements page else screen_type in
      let has_captcha := _check_captcha page in
      let '(has_error, error_message) := _check_error page in
      let actions := _get_available_actions page in
      let metadata := _collect_metadata page screen_type in
      let screen_info :=
        mkDetected screen_type url title has_captcha has_error error_message
          actions metadata in
      let history := screen_history self ++ [screen_type] in
      let history :=
        if (50 <? length history)%nat then last_n 50 history else history in
      Answers (screen_info, mkDetector (Some screen_info) history)
  end.

End WithLower.

(** A login page reached over a URL that says nothing, with an error
    banner on it. *)
Definition login_page : Page :=
  mkPage "https://visa.vfsglobal.com/tur/tr/ltu/apply-visa" (Answers "VFS")
    (fun selector =>
       if bool_decide (selector = "input[type='password']")
       then Answers (Some (mkElement (Answers None) (Answers true)))
       else if bool_decide (selector = ".alert-danger")
       then Answers (Some (mkElement (Answers (Some " Invalid credentials ")) (Answers true)))
       else Answers None)
    (fun _ => Answers []).

Example detect_login_page :
  detect Py.lower_ascii new_detector login_page =
    Answers
      (mkDetected ScreenDetector.LOGIN "https://visa.vfsglobal.com/tur/tr/ltu/apply-visa"
         "VFS" false true (Some "Invalid credentials") [] ∅,
       mkDetector
         (Some (mkDetected ScreenDetector.LOGIN
                  "https://visa.vfsglobal.com/tur/tr/ltu/apply-visa"
                  "VFS" false true (Some "Invalid credentials") [] ∅))
         [ScreenDetector.LOGIN]).
Proof. reflexivity. Qed.

(** *** Properties of the classification *)

Lemma first_hit_in_table table hit :
  first_hit table hit = ScreenDetector.UNKNOWN \/ first_hit table hit ∈ table.*1.
Proof.
  induction table as [|[t entries] rest IH]; cbn; [auto|].
  destruct (existsb hit entries).
  - right. apply list_elem_of_here.
  - destruct IH as [IH|IH]; [auto|]. right. apply list_elem_of_further. exact IH.
Qed.

Lemma last_n_length {A} (n : nat) (l : list A) : (length (last_n n l) <= n)%nat.
Proof. unfold last_n. rewrite length_drop. lia. Qed.

Section DetectionFacts.

Variable lower : string -> string.

(** The type [detect] settles on. *)
Lemma detect_type self page d self' :
  detect lower self page = Answers (d, self') ->
  screen_type d =
    (if bool_decide (_detect_from_url lower (page_url page) = ScreenDetector.UNKNOWN)
     then _detect_from_elements page else _detect_from_url lower (page_url page)) /\
  last_screen self' = Some d /\
  screen_history self' =
    (if (50 <? length (screen_history self ++ [screen_type d]))%nat
     then last_n 50 (screen_history self ++ [screen_type d])
     else screen_history self ++ [screen_type d]).
Proof.
  unfold detect. destruct (page_title page) as [t|]; [|discriminate].
  destruct (_check_error page) as [he em]. intros [= <- <-]. cbn. auto.
Qed.

(** No page is ever classified as ERROR, BLOCKED or MAINTENANCE: the
    type [detect] returns comes from the URL table or the selector table
    (or is UNKNOWN), and neither table has a row for those three.  So
    [is_error_state] is [False] and [get_next_action] is never
    "handle_error" on what [detect] returns. *)
Theorem detect_never_reports_error_screens
    (self : Detector) (page : Page) (d : Detected) (self' : Detector) :
  detect lower self page = Answers (d, self') ->
  (screen_type d ∉ [ScreenDetector.ERROR; ScreenDetector.BLOCKED;
                    ScreenDetector.MAINTENANCE]) /\
  forall si : ScreenDetector.ScreenInfo,
    ScreenDetector.screen_type si = screen_type d ->
    ScreenDetector.is_error_state si = false /\
    ScreenDetector.get_next_action si <> Some "handle_error".
Proof.
  intros Hd. destruct (detect_type self page d self' Hd) as (Ht & _ & _).
  assert (Hin : screen_type d = ScreenDetector.UNKNOWN \/
                screen_type d ∈ (URL_PATTERNS ++ SCREEN_SELECTORS).*1).
  { rewrite Ht, fmap_app. case_bool_decide as Hu.
    - destruct (first_hit_in_table SCREEN_SELECTORS (found page)) as [Hun|Hin];
        [left; exact Hun|right; apply elem_of_app; right; exact Hin].
    - destruct (first_hit_in_table URL_PATTERNS
                  (fun pattern => Py.str_in pattern (lower (page_url page))))
        as [Hun|Hin]; [contradiction|right; apply elem_of_app; left; exact Hin]. }
  clear Ht Hd. revert Hin. generalize (screen_type d). intros t Hin.
  assert (Hcases : (t ∉ [ScreenDetector.ERROR; ScreenDetector.BLOCKED;
                         ScreenDetector.MAINTENANCE]) /\
                   ScreenDetector.dict_get ScreenDetector.action_map t
                     <> Some "handle_error").
  { destruct Hin as [->|Hin].
    - split; [|intros H; vm_compute in H; discriminate H].
      intros Hbad. apply (bool_decide_pack _) in Hbad. vm_compute in Hbad. exact Hbad.
    - cbn in Hin.
      repeat (apply elem_of_cons in Hin as [->|Hin]);
        try (apply elem_of_nil in Hin; destruct Hin);
        (split; [|intros H; vm_compute in H; discriminate H]);
        intros Hbad; apply (bool_decide_pack _) in Hbad; vm_compute in Hbad;
        exact Hbad. }
  destruct Hcases as [Hnot Hact]. split; [exact Hnot|].
  intros si Hsi. unfold ScreenDetector.is_error_state, ScreenDetector.get_next_action.
  rewrite Hsi. split; [apply bool_decide_eq_false_2; exact Hnot|exact Hact].
Qed.

(** The trail of classifications is a window: after any [detect] that
    returns, [screen_history] has at most 50 entries and ends with the
    type just returned, every entry before it comes from the trail as it
    was, in order, and [last_screen] is the result. *)
Theorem history_window_bounded
    (self : Detector) (page : Page) (d : Detected) (self' : Detector) :
  detect lower self page = Answers (d, self') ->
  (length (screen_history self') <= 50)%nat /\
  last (screen_history self') = Some (screen_type d) /\
  (exists dropped, dropped ++ screen_history self' = screen_history self ++ [screen_type d]) /\
  last_screen self' = Some d.
Proof.
  intros Hd. destruct (detect_type self page d self' Hd) as (_ & Hl & Hh).
  rewrite Hh. set (h := screen_history self ++ [screen_type d]).
  destruct (50 <? length h)%nat eqn:Hlong.
  - apply Nat.ltb_lt in Hlong. split; [apply last_n_length|]. split.
    + unfold last_n. subst h. rewrite length_app in *. cbn [length] in *.
      rewrite drop_app_le by lia. apply last_snoc.
    + split; [|exact Hl]. exists (take (length h - 50) h). apply take_drop.
  - apply Nat.ltb_ge in Hlong. split; [exact Hlong|]. split.
    + subst h. apply last_snoc.
    + split; [|exact Hl]. exists []. reflexivity.
Qed.

End DetectionFacts.

Lemma detect_never_reports_error_screens_witness :
  (ScreenDetector.LOGIN ∉ [ScreenDetector.ERROR; ScreenDetector.BLOCKED;
                           ScreenDetector.MAINTENANCE]) /\
  forall si : ScreenDetector.ScreenInfo,
    ScreenDetector.screen_type si = ScreenDetector.LOGIN ->
    ScreenDetector.is_error_state si = false /\
    ScreenDetector.get_next_action si <> Some "handle_error".
Proof.
  exact (detect_never_reports_error_screens Py.lower_ascii new_detector login_page
           _ _ eq_refl).
Defined.

(** A detector whose trail already holds fifty entries. *)
Definition full_detector : Detector :=
  mkDetector None (replicate 50 ScreenDetector.UNKNOWN).

Lemma history_window_bounded_witness :
  let self' := mkDetector
    (Some (mkDetected ScreenDetector.LOGIN "https://visa.vfsglobal.com/tur/tr/ltu/apply-visa"
             "VFS" false true (Some "Invalid credentials") [] ∅))
    (replicate 49 ScreenDetector.UNKNOWN ++ [ScreenDetector.LOGIN]) in
  (length (screen_history self') <= 50)%nat /\
  last (screen_history self') = Some ScreenDetector.LOGIN /\
  (exists dropped,
     dropped ++ screen_history self'
       = screen_history full_detector ++ [ScreenDetector.LOGIN]) /\
  last_screen self' =
    Some (mkDetected ScreenDetector.LOGIN "https://visa.vfsglobal.com/tur/tr/ltu/apply-visa"
            "VFS" false true (Some "Invalid credentials") [] ∅).
Proof.
  intros self'.
  exact (history_window_bounded Py.lower_ascii full_detector login_page _ self' eq_refl).
Defined.

End Detection.

(** ** auth/sms_webhook.py *)

Module SmsWebhook.

(** [@dataclass OTPCode]; [received_at] in microseconds. *)
Record OTPCode := mkOTPCode {
  code : string;
  sender : string;
  received_at : Z;
  used : bool
}.

(** [SMSOTPStore]: its one field, [codes]. *)
Definition SMSOTPStore := list OTPCode.

(** [timedelta(seconds=300)] *)
Definition max_age : Z := 300 * 1000000.

(** Six digits at the start of [s], with what follows them. *)
Definition six_digits (s : string) : option (string * string) :=
  match s with
  | String a (String b (String c (String d (String e (String f rest))))) =>
      if Py.is_digit a && Py.is_digit b && Py.is_digit c &&
         Py.is_digit d && Py.is_digit e && Py.is_digit f
      then Some (String a (String b (String c (String d (String e (String f ""))))),
                 rest)
      else None
  | _ => None
  end.

(** A word boundary before what [rest] starts with, after a word
    character. *)
Definition ends_word (rest : string) : bool :=
  match rest with
  | EmptyString => true
  | String c _ => negb (Py.is_word c)
  end.

(** [re.search(r'\b(\d{6})\b', s)] on ASCII text, scanning from the left;
    [after_word] says that the character before [s] is a word
    character. *)
Fixpoint search_code (after_word : bool) (s : string) : option string :=
  match s with
  | EmptyString => None
  | String c r =>
      let here :=
        if after_word then None
        else match six_digits s with
             | Some (digits, rest) => if ends_word rest then Some digits else None
             | None => None
             end in
      match here with
      | Some digits => Some digits
      | None => search_code (Py.is_word c) r
      end
  end.

(** [extract_otp] *)
Definition extract_otp (message : string) : option string :=
  search_code false message.

(** [clear_old_codes] *)
Definition clear_old_codes (store : SMSOTPStore) (now : Z) : SMSOTPStore :=
  let cutoff := now - max_age in
  List.filter (fun c => cutoff <? received_at c) store.

(** [add_sms]: [now] is the clock read by [clear_old_codes], [received]
    the one that stamps the code. *)
Definition add_sms (store : SMSOTPStore) (now received : Z) (sender message : string)
    : option string * SMSOTPStore :=
  let store1 := clear_old_codes store now in
  match extract_otp message with
  | Some otp => (Some otp, store1 ++ [mkOTPCode otp sender received false])
  | None => (None, store1)
  end.

(** [max(unused, key=lambda x: x.received_at)]: the first of the entries
    with the greatest key. *)
Fixpoint max_by_received (best : OTPCode) (l : list OTPCode) : OTPCode :=
  match l with
  | [] => best
  | x :: rest =>
      if received_at best <? received_at x then max_by_received x rest
      else max_by_received best rest
  end.

(** [get_latest_code] *)
Definition get_latest_code (store : SMSOTPStore) (now : Z) : option string * SMSOTPStore :=
  let store1 := clear_old_codes store now in
  let unused := List.filter (fun c => negb (used c)) store1 in
  match unused with
  | [] => (None, store1)
  | first :: rest => (Some (code (max_by_received first rest)), store1)
  end.

(** [mark_as_used] *)
Definition mark_as_used (store : SMSOTPStore) (value : string) : SMSOTPStore :=
  map (fun c => if bool_decide (code c = value)
                then mkOTPCode (code c) (sender c) (received_at c) true else c) store.

(** [clear_all] *)
Definition clear_all (store : SMSOTPStore) : SMSOTPStore := [].

(** [SMSWebhookHandler.process_sms]: the [otp] of the answer and the
    store. *)
Definition process_sms (store : SMSOTPStore) (now received : Z)
    (from_number sender_field : option string) (message : string)
    : option string * SMSOTPStore :=
  let truthy o := match o with Some s => Py.nonempty s | None => false end in
  let sender :=
    if truthy from_number then default "" from_number
    else if truthy sender_field then default "" sender_field
    else "Unknown" in
  add_sms store now received sender message.

(** What the pattern of [extract_otp] asks of a match: [d] is six digits,
    no word character stands right before it (after [pre]) and none right
    after it (at the head of [post]). *)
Fixpoint all_digits (s : string) : bool :=
  match s with
  | EmptyString => true
  | String c r => Py.is_digit c && all_digits r
  end.

Fixpoint after_word (start : bool) (pre : string) : bool :=
  match pre with
  | EmptyString => start
  | String c r => after_word (Py.is_word c) r
  end.

Definition standalone_code (message pre d post : string) : Prop :=
  message = pre +:+ d +:+ post /\
  String.length d = 6%nat /\
  all_digits d = true /\
  after_word false pre = false /\
  ends_word post = true.

(** A store with an old used code and two fresh ones. *)
Definition inbox : SMSOTPStore :=
  [ mkOTPCode "111111" "VFS" 0 true;
    mkOTPCode "222222" "VFS" (200 * 1000000) false;
    mkOTPCode "333333" "VFS" (400 * 1000000) false ].

Section SmsFacts.

Lemma six_digits_spec (s d rest : string) :
  six_digits s = Some (d, rest) ->
  s = d +:+ rest /\ String.length d = 6%nat /\ all_digits d = true.
Proof.
  destruct s as [|a [|b [|c [|e [|f [|g r]]]]]]; try discriminate.
  cbn [six_digits].
  destruct (Py.is_digit a) eqn:Ha; [|discriminate].
  destruct (Py.is_digit b) eqn:Hb; [|discriminate].
  destruct (Py.is_digit c) eqn:Hc; [|discriminate].
  destruct (Py.is_digit e) eqn:He; [|discriminate].
  destruct (Py.is_digit f) eqn:Hf; [|discriminate].
  destruct (Py.is_digit g) eqn:Hg; [|discriminate].
  cbn [andb]. intros [= <- <-].
  split; [reflexivity|]. split; [reflexivity|].
  cbn [all_digits]. rewrite Ha, Hb, Hc, He, Hf, Hg. reflexivity.
Qed.

Lemma six_digits_complete (d rest : string) :
  String.length d = 6%nat -> all_digits d = true ->
  six_digits (d +:+ rest) = Some (d, rest).
Proof.
  destruct d as [|a [|b [|c [|e [|f [|g [|h r]]]]]]]; try discriminate.
  intros _. cbn [all_digits]. rewrite !andb_true_iff.
  intros (Ha & Hb & Hc & He & Hf & Hg & _).
  change (six_digits (String a (String b (String c (String e (String f (String g rest))))))
          = Some (String a (String b (String c (String e (String f (String g ""))))), rest)).
  cbn [six_digits]. rewrite Ha, Hb, Hc, He, Hf, Hg. reflexivity.
Qed.

Lemma digits_start_word (d rest : string) :
  String.length d = 6%nat -> all_digits d = true ->
  exists c r, d +:+ rest = String c r /\ Py.is_word c = true.
Proof.
  destruct d as [|a d]; [discriminate|]. intros _. cbn [all_digits].
  rewrite andb_true_iff. intros [Ha _]. exists a, (d +:+ rest). split; [reflexivity|].
  unfold Py.is_digit in Ha. unfold Py.is_word. rewrite Ha. reflexivity.
Qed.

Lemma search_code_sound (s : string) : forall (start : bool) (d : string),
  search_code start s = Some d ->
  exists pre post,
    s = pre +:+ d +:+ post /\ String.length d = 6%nat /\ all_digits d = true /\
    after_word start pre = false /\ ends_word post = true /\
    forall pre' d' post',
      s = pre' +:+ d' +:+ post' -> String.length d' = 6%nat -> all_digits d' = true ->
      after_word start pre' = false -> ends_word post' = true ->
      (String.length pre <= String.length pre')%nat.
Proof.
  induction s as [|c r IH]; intros start d; [discriminate|].
  cbn [search_code].
  destruct start.
  - intros H. destruct (IH _ _ H) as (pre & post & -> & Hlen & Hd & Haw & Hew & Hleft).
    exists (String c pre), post. repeat (split; [assumption || reflexivity|]).
    intros pre' d' post' Heq Hlen' Hd' Haw' Hew'.
    destruct pre' as [|c' pre']; [discriminate Haw'|].
    injection Heq as <- Heq. cbn [String.length].
    apply le_n_S. eapply Hleft; eauto.
  - destruct (six_digits (String c r)) as [[digits rest]|] eqn:Hsix.
    + destruct (ends_word rest) eqn:Hrest.
      * intros [= <-]. apply six_digits_spec in Hsix as (Heq & Hlen & Hd).
        exists EmptyString, rest. cbn [after_word String.length].
        repeat (split; [assumption || reflexivity|]). intros; lia.
      * intros H. destruct (IH _ _ H) as (pre & post & -> & Hlen & Hd & Haw & Hew & Hleft).
        exists (String c pre), post. repeat (split; [assumption || reflexivity|]).
        intros pre' d' post' Heq Hlen' Hd' Haw' Hew'.
        destruct pre' as [|c' pre'].
        { change (EmptyString +:+ d' +:+ post') with (d' +:+ post') in Heq.
          rewrite Heq, (six_digits_complete _ _ Hlen' Hd') in Hsix.
          injection Hsix as <- <-. congruence. }
        injection Heq as <- Heq. cbn [String.length].
        apply le_n_S. eapply Hleft; eauto.
    + intros H. destruct (IH _ _ H) as (pre & post & -> & Hlen & Hd & Haw & Hew & Hleft).
      exists (String c pre), post. repeat (split; [assumption || reflexivity|]).
      intros pre' d' post' Heq Hlen' Hd' Haw' Hew'.
      destruct pre' as [|c' pre'].
      { change (EmptyString +:+ d' +:+ post') with (d' +:+ post') in Heq.
        rewrite Heq, (six_digits_complete _ _ Hlen' Hd') in Hsix. discriminate. }
      injection Heq as <- Heq. cbn [String.length].
      apply le_n_S. eapply Hleft; eauto.
Qed.

Lemma search_code_complete (pre : string) : forall (start : bool) (d post : string),
  String.length d = 6%nat -> all_digits d = true ->
  after_word start pre = false -> ends_word post = true ->
  search_code start (pre +:+ d +:+ post) <> None.
Proof.
  induction pre as [|c pre IH]; intros start d post Hlen Hd Haw Hew.
  - cbn [after_word] in Haw. subst start.
    change (EmptyString +:+ d +:+ post) with (d +:+ post).
    destruct (digits_start_word d post Hlen Hd) as (c & r & Heq & _).
    pose proof (six_digits_complete d post Hlen Hd) as Hsix.
    rewrite Heq in *. cbn [search_code]. rewrite Hsix, Hew. discriminate.
  - change (String c pre +:+ d +:+ post) with (String c (pre +:+ d +:+ post)).
    cbn [search_code].
    destruct (if start then None else _) as [digits|]; [discriminate|].
    apply IH; assumption.
Qed.

(** On ASCII text [extract_otp] returns a code exactly when the text
    holds a run of six digits with no letter, digit or underscore right
    before or right after it, and the code it returns is the first such
    run; a longer run of digits is never cut down to a code. *)
Theorem extract_otp_first_standalone_code (message : string) :
  Py.is_ascii message = true ->
  match extract_otp message with
  | Some d =>
      exists pre post,
        standalone_code message pre d post /\
        forall pre' d' post',
          standalone_code message pre' d' post' ->
          (String.length pre <= String.length pre')%nat
  | None => forall pre d post, ~ standalone_code message pre d post
  end.
Proof.
  intros _. unfold extract_otp.
  destruct (search_code false message) as [d|] eqn:H.
  - destruct (search_code_sound _ _ _ H) as (pre & post & Heq & Hlen & Hd & Haw & Hew & Hleft).
    exists pre, post. split; [repeat split; assumption|].
    intros pre' d' post' (Heq' & Hlen' & Hd' & Haw' & Hew'). eapply Hleft; eauto.
  - intros pre d post (Heq & Hlen & Hd & Haw & Hew). subst message.
    exact (search_code_complete _ _ _ _ Hlen Hd Haw Hew H).
Qed.

Lemma max_by_received_spec (l : list OTPCode) : forall best,
  max_by_received best l ∈ best :: l /\
  forall x, x ∈ best :: l -> received_at x <= received_at (max_by_received best l).
Proof.
  induction l as [|y l IH]; intros best; cbn [max_by_received].
  - split; [apply list_elem_of_here|].
    intros x Hx. apply elem_of_cons in Hx as [->|Hx]; [lia|].
    apply elem_of_nil in Hx. contradiction.
  - destruct (received_at best <? received_at y) eqn:Hlt.
    + apply Z.ltb_lt in Hlt. destruct (IH y) as [Hin Hmax]. split.
      * apply list_elem_of_further. exact Hin.
      * intros x Hx. apply elem_of_cons in Hx as [->|Hx].
        -- specialize (Hmax y (list_elem_of_here _ _)). lia.
        -- apply Hmax. exact Hx.
    + apply Z.ltb_ge in Hlt. destruct (IH best) as [Hin Hmax]. split.
      * apply elem_of_cons in Hin as [Hin|Hin].
        -- rewrite Hin. apply list_elem_of_here.
        -- do 2 apply list_elem_of_further. exact Hin.
      * intros x Hx. apply elem_of_cons in Hx as [->|Hx]; [apply Hmax, list_elem_of_here|].
        apply elem_of_cons in Hx as [->|Hx].
        -- specialize (Hmax best (list_elem_of_here _ _)). lia.
        -- apply Hmax. apply list_elem_of_further. exact Hx.
Qed.

Lemma unused_fresh (store : SMSOTPStore) (now : Z) (e : OTPCode) :
  e ∈ List.filter (fun c => negb (used c)) (clear_old_codes store now) <->
  e ∈ store /\ used e = false /\ now - max_age < received_at e.
Proof.
  unfold clear_old_codes.
  rewrite !list_elem_of_In, !filter_In, <- !list_elem_of_In.
  rewrite negb_true_iff, Z.ltb_lt. tauto.
Qed.

Lemma latest_code_shape (store : SMSOTPStore) (now : Z) :
  match (get_latest_code store now).1 with
  | Some c => exists e, e ∈ store /\ code e = c /\ used e = false
  | None => True
  end.
Proof.
  unfold get_latest_code.
  pose proof (unused_fresh store now) as Hiff.
  destruct (List.filter _ (clear_old_codes store now)) as [|first rest]; cbn [fst];
    [exact I|].
  destruct (max_by_received_spec rest first) as [Hin _].
  exists (max_by_received first rest).
  apply Hiff in Hin as (Hin & Hu & _). auto.
Qed.

(** [get_latest_code] answers with the code of an entry that is
    unused and younger than 300 seconds, and no unused entry of that age is
    newer; it answers [None] exactly when the store has no such entry. *)
Theorem latest_code_is_newest_fresh_unused (store : SMSOTPStore) (now : Z) :
  match (get_latest_code store now).1 with
  | Some c =>
      exists e, e ∈ store /\ code e = c /\ used e = false /\
        now - max_age < received_at e /\
        forall e', e' ∈ store -> used e' = false -> now - max_age < received_at e' ->
          received_at e' <= received_at e
  | None =>
      forall e, e ∈ store -> used e = true \/ received_at e <= now - max_age
  end.
Proof.
  unfold get_latest_code.
  pose proof (unused_fresh store now) as Hiff.
  destruct (List.filter _ (clear_old_codes store now)) as [|first rest]; cbn [fst].
  - intros e He. destruct (used e) eqn:Hu; [left; reflexivity|right].
    destruct (Z.le_gt_cases (received_at e) (now - max_age)) as [|Hlt]; [assumption|].
    exfalso. apply (elem_of_nil e). apply Hiff. repeat split; [assumption..|lia].
  - destruct (max_by_received_spec rest first) as [Hin Hmax].
    exists (max_by_received first rest).
    apply Hiff in Hin as (Hin & Hu & Hf).
    repeat (split; [assumption || reflexivity|]).
    intros e' He' Hu' Hf'. apply Hmax, Hiff. auto.
Qed.

Lemma max_by_received_last (l : list OTPCode) : forall best x,
  (forall y, y ∈ best :: l -> received_at y < received_at x) ->
  max_by_received best (l ++ [x]) = x.
Proof.
  induction l as [|y l IH]; intros best x H; cbn [app max_by_received].
  - specialize (H best (list_elem_of_here _ _)).
    apply Z.ltb_lt in H. rewrite H. reflexivity.
  - destruct (received_at best <? received_at y).
    + apply IH. intros z Hz. apply H, list_elem_of_further, Hz.
    + apply IH. intros z Hz. apply H. apply elem_of_cons in Hz as [->|Hz].
      * apply list_elem_of_here.
      * do 2 apply list_elem_of_further. exact Hz.
Qed.

(** A text message that carries a code, stored at a time later than
    every entry already in the store, is what [get_latest_code] answers
    for the next 300 seconds, whatever else the store holds. *)
Theorem added_code_is_latest (store : SMSOTPStore) (now received : Z)
    (sender message d : string) (later : Z) :
  (add_sms store now received sender message).1 = Some d ->
  (forall e, e ∈ store -> received_at e < received) ->
  later - max_age < received ->
  (get_latest_code (add_sms store now received sender message).2 later).1 = Some d.
Proof.
  unfold add_sms. destruct (extract_otp message) as [otp|]; [|discriminate].
  cbn [fst snd]. intros [= ->] Hold Hfresh.
  unfold get_latest_code.
  set (new := mkOTPCode d sender received false).
  assert (Hfilter : List.filter (fun c => negb (used c))
            (clear_old_codes (clear_old_codes store now ++ [new]) later)
          = List.filter (fun c => negb (used c))
              (clear_old_codes (clear_old_codes store now) later) ++ [new]).
  { unfold clear_old_codes at 1. rewrite List.filter_app. cbn [List.filter received_at new].
    apply Z.ltb_lt in Hfresh. rewrite Hfresh.
    rewrite List.filter_app. reflexivity. }
  rewrite Hfilter.
  assert (Hlt : forall y,
    y ∈ List.filter (fun c => negb (used c))
          (clear_old_codes (clear_old_codes store now) later) ->
    received_at y < received_at new).
  { intros y Hy. apply unused_fresh in Hy as (Hy & _ & _).
    unfold clear_old_codes in Hy.
    rewrite list_elem_of_In, filter_In, <- list_elem_of_In in Hy.
    apply Hold, Hy. }
  destruct (List.filter _ (clear_old_codes (clear_old_codes store now) later))
    as [|first rest]; cbn [app fst].
  - reflexivity.
  - rewrite (max_by_received_last rest first new Hlt). reflexivity.
Qed.

Lemma marked_entries_used (store : SMSOTPStore) (value : string) (e : OTPCode) :
  e ∈ mark_as_used store value -> code e = value -> used e = true.
Proof.
  unfold mark_as_used. intros He Hc.
  apply list_elem_of_fmap in He as (c & -> & _).
  destruct (bool_decide (code c = value)) eqn:Hb; [reflexivity|].
  apply bool_decide_eq_false in Hb. contradiction.
Qed.

(** Once a code is marked as used, [get_latest_code] does not answer
    with it, at whatever time it is asked: it answers with another code or
    with none. *)
Theorem used_code_is_not_returned (store : SMSOTPStore) (value : string) (now : Z) :
  match (get_latest_code (mark_as_used store value) now).1 with
  | Some c => c <> value
  | None => True
  end.
Proof.
  pose proof (latest_code_shape (mark_as_used store value) now) as H.
  destruct ((get_latest_code (mark_as_used store value) now).1) as [c|]; [|exact I].
  destruct H as (e & He & Hc & Hu). intros ->.
  rewrite (marked_entries_used _ _ _ He Hc) in Hu. discriminate.
Qed.

End SmsFacts.

Lemma extract_otp_first_standalone_code_witness :
  Py.is_ascii "Your VFS code is 123456. Ref 1234567" = true /\
  match extract_otp "Your VFS code is 123456. Ref 1234567" with
  | Some d =>
      exists pre post,
        standalone_code "Your VFS code is 123456. Ref 1234567" pre d post /\
        forall pre' d' post',
          standalone_code "Your VFS code is 123456. Ref 1234567" pre' d' post' ->
          (String.length pre <= String.length pre')%nat
  | None =>
      forall pre d post,
        ~ standalone_code "Your VFS code is 123456. Ref 1234567" pre d post
  end.
Proof.
  split; [reflexivity|].
  apply (extract_otp_first_standalone_code "Your VFS code is 123456. Ref 1234567").
  reflexivity.
Defined.

Lemma added_code_is_latest_witness :
  (get_latest_code
     (add_sms inbox (450 * 1000000) (450 * 1000000) "VFS" "code 444444").2
     (700 * 1000000)).1 = Some "444444".
Proof.
  apply (added_code_is_latest inbox (450 * 1000000) (450 * 1000000) "VFS"
           "code 444444" "444444" (700 * 1000000)).
  - reflexivity.
  - intros e He. unfold inbox in He.
    repeat (apply elem_of_cons in He as [->|He]; [vm_compute; reflexivity|]).
    apply elem_of_nil in He. contradiction.
  - vm_compute. reflexivity.
Defined.

Example seven_digits_are_no_code :
  extract_otp "ref 1234567" = None /\ extract_otp "a123456" = None /\
  extract_otp "12345 123456-7" = Some "123456".
Proof. repeat split; reflexivity. Qed.

Example latest_code_ties_go_to_the_older :
  (get_latest_code
     [mkOTPCode "111111" "A" 5 false; mkOTPCode "222222" "B" 5 false] 6).1
  = Some "111111".
Proof. reflexivity. Qed.

End SmsWebhook.

(** ** utils/helpers.py *)

Module Helpers.

(** What awaiting the wrapped coroutine does: it returns, it raises an
    [Exception], or it raises something [except Exception] lets through
    (a cancellation, a keyboard interrupt). *)
Inductive Outcome (T E : Type) :=
| Returns (v : T)
| RaisesException (e : E)
| RaisesOther (e : E).
Arguments Returns {T E} v.
Arguments RaisesException {T E} e.
Arguments RaisesOther {T E} e.

(** How a call of the wrapper ends; [RaisedTypeError] is [raise None]. *)
Inductive Final (T E : Type) :=
| Returned (v : T)
| Raised (e : E)
| RaisedTypeError.
Arguments Returned {T E} v.
Arguments Raised {T E} e.
Arguments RaisedTypeError {T E}.

(** A call of the wrapper as seen from outside: how it ended, how often it
    awaited the wrapped function, and the delays it slept, in order. *)
Record Run (T E Delay : Type) := mkRun {
  result : Final T E;
  awaited : nat;
  sleeps : list Delay
}.
Arguments mkRun {T E Delay} result awaited sleeps.
Arguments result {T E Delay} r.
Arguments awaited {T E Delay} r.
Arguments sleeps {T E Delay} r.

Section Retry.

Context {T E Delay : Type}.

(** The product of two floats, [current_delay *= backoff]. *)
Variable fmul : Delay -> Delay -> Delay.

(** The outcome of the wrapped function at its n-th await, from 0. *)
Variable func : nat -> Outcome T E.

(** The [for attempt in range(max_attempts)] loop of [retry]'s wrapper and
    the [raise last_exception] after it; [todo] attempts are left. *)
Fixpoint retry_loop (todo attempt : nat) (max_attempts : Z) (backoff : Delay)
    (last_exception : option E) (current_delay : Delay) (slept : list Delay)
    : Run T E Delay :=
  match todo with
  | O =>
      mkRun (match last_exception with Some e => Raised e | None => RaisedTypeError end)
            attempt slept
  | S todo' =>
      match func attempt with
      | Returns v => mkRun (Returned v) (S attempt) slept
      | RaisesOther e => mkRun (Raised e) (S attempt) slept
      | RaisesException e =>
          if Z.of_nat attempt <? max_attempts - 1
          then retry_loop todo' (S attempt) max_attempts backoff (Some e)
                 (fmul current_delay backoff) (slept ++ [current_delay])
          else retry_loop todo' (S attempt) max_attempts backoff (Some e)
                 current_delay slept
      end
  end.

(** [retry(max_attempts, delay, backoff)(func)(...)] *)
Definition retry (max_attempts : Z) (delay backoff : Delay) : Run T E Delay :=
  retry_loop (Z.to_nat max_attempts) 0 max_attempts backoff None delay [].

(** [delay], [delay * backoff], [delay * backoff * backoff], ...: the
    first [n] of them. *)
Definition backoff_delays (delay backoff : Delay) (n : nat) : list Delay :=
  map (fun i => Nat.iter i (fun d => fmul d backoff) delay) (seq 0 n).

End Retry.

(** [mask_sensitive] *)
Definition mask_sensitive (text : string) (visible_chars : Z) : string :=
  if negb (Py.nonempty text) || (Py.len text <=? visible_chars)
  then if Py.nonempty text then Py.repeat_char "*" (Py.len text) else ""
  else Py.slice_to text visible_chars +:+
       Py.repeat_char "*" (Py.len text - visible_chars).

(** [mask_email]; [split_once] is [None] exactly when ["@" not in email],
    which the empty address is a case of. *)
Definition mask_email (email : string) : string :=
  match Py.split_once "@" email with
  | None => mask_sensitive email 4
  | Some (local, domain) =>
      let masked_local :=
        if Py.len local <=? 2 then Py.repeat_char "*" (Py.len local)
        else Py.slice_to local 1 +:+ Py.repeat_char "*" (Py.len local - 2) +:+
             Py.slice_from local (-1) in
      masked_local +:+ "@" +:+ domain
  end.

(** [[:\s]*]: the colons and white space at the head of [s] skipped. *)
Fixpoint skip_separators (s : string) : string :=
  match s with
  | String c r =>
      if bool_decide (c = ":"%char) || Py.is_space c then skip_separators r else s
  | EmptyString => EmptyString
  end.

(** The patterns [code[:\s]*(\d{6})] and its like at the head of [s],
    case ignored; [keyword] is in lower case. *)
Definition keyword_here (keyword s : string) : option string :=
  if Py.startswith (Py.lower_ascii s) keyword
  then match SmsWebhook.six_digits (skip_separators (Py.drop (String.length keyword) s)) with
       | Some (digits, _) => Some digits
       | None => None
       end
  else None.

(** [re.search(keyword + r'[:\s]*(\d{6})', s, re.IGNORECASE)] on ASCII
    text. *)
Fixpoint search_keyword (keyword s : string) : option string :=
  match keyword_here keyword s with
  | Some digits => Some digits
  | None =>
      match s with
      | String _ r => search_keyword keyword r
      | EmptyString => None
      end
  end.

(** The [patterns] of [extract_otp_from_text], each as its search. *)
Definition patterns : list (string -> option string) :=
  [ SmsWebhook.search_code false;
    search_keyword "code";
    search_keyword "otp";
    search_keyword "verification" ].

(** [extract_otp_from_text] *)
Fixpoint first_match (searches : list (string -> option string)) (text : string)
    : option string :=
  match searches with
  | [] => None
  | search :: rest =>
      match search text with
      | Some digits => Some digits
      | None => first_match rest text
      end
  end.

Definition extract_otp_from_text (text : string) : option string :=
  first_match patterns text.

(** [re.sub(r'\s+', ' ', s)]; [in_run] says that the character before [s]
    is white space, already replaced. *)
Fixpoint collapse (in_run : bool) (s : string) : string :=
  match s with
  | EmptyString => EmptyString
  | String c r =>
      if Py.is_space c
      then if in_run then collapse true r else String " " (collapse true r)
      else String c (collapse false r)
  end.

(** [clean_text] *)
Definition clean_text (text : string) : string :=
  if negb (Py.nonempty text) then ""
  else Py.strip (collapse false text).

(** [truncate] *)
Definition truncate (text : string) (max_length : Z) (suffix : string) : string :=
  if negb (Py.nonempty text) || (Py.len text <=? max_length) then text
  else Py.slice_to text (max_length - Py.len suffix) +:+ suffix.

(** A wrapped function that fails twice and then returns 7. *)
Definition flaky (n : nat) : Outcome Z string :=
  match n with
  | O => RaisesException "timeout"
  | S O => RaisesException "reset"
  | _ => Returns 7
  end.

(** A wrapped function that fails every time, with the number of the
    await as its error. *)
Definition failing (n : nat) : Outcome Z nat := RaisesException n.

Section RetryFacts.

Context {T E Delay : Type}.
Variable fmul : Delay -> Delay -> Delay.
Variable func : nat -> Outcome T E.

Lemma backoff_delays_S (delay backoff : Delay) (n : nat) :
  backoff_delays fmul delay backoff (S n)
  = delay :: backoff_delays fmul (fmul delay backoff) backoff n.
Proof.
  unfold backoff_delays. rewrite <- cons_seq, <- seq_shift. cbn [map].
  f_equal. rewrite List.map_map. apply List.map_ext. intros i.
  exact (Nat.iter_succ_r i (fun d => fmul d backoff) delay).
Qed.

Lemma retry_loop_success (errors : nat -> E) (max_attempts : Z) (backoff : Delay) (v : T) :
  forall (k todo attempt : nat) (last : option E) (current : Delay) (slept : list Delay),
  (k < todo)%nat ->
  Z.of_nat (attempt + todo) <= max_attempts ->
  (forall j, (j < k)%nat -> func (attempt + j) = RaisesException (errors (attempt + j)%nat)) ->
  func (attempt + k) = Returns v ->
  retry_loop fmul func todo attempt max_attempts backoff last current slept
  = mkRun (Returned v) (S (attempt + k)) (slept ++ backoff_delays fmul current backoff k).
Proof.
  induction k as [|k IH]; intros todo attempt last current slept Hk Hmax Herr Hok;
    (destruct todo as [|todo]; [lia|]); cbn [retry_loop].
  - rewrite Nat.add_0_r in Hok. rewrite Hok, Nat.add_0_r.
    unfold backoff_delays. cbn. rewrite app_nil_r. reflexivity.
  - pose proof (Herr 0%nat ltac:(lia)) as H0. rewrite Nat.add_0_r in H0. rewrite H0.
    assert (Hlt : (Z.of_nat attempt <? max_attempts - 1) = true) by (apply Z.ltb_lt; lia).
    rewrite Hlt.
    rewrite (IH todo (S attempt) _ _ _); try lia.
    + rewrite backoff_delays_S, <- app_assoc. cbn [app].
      replace (S attempt + k)%nat with (attempt + S k)%nat by lia. reflexivity.
    + intros j Hj. replace (S attempt + j)%nat with (attempt + S j)%nat by lia.
      apply Herr. lia.
    + replace (S attempt + k)%nat with (attempt + S k)%nat by lia. exact Hok.
Qed.

Lemma retry_loop_failure (errors : nat -> E) (max_attempts : Z) (backoff : Delay) :
  forall (todo attempt : nat) (last : option E) (current : Delay) (slept : list Delay),
  Z.of_nat (attempt + todo) = max_attempts ->
  (forall j, (j < todo)%nat -> func (attempt + j) = RaisesException (errors (attempt + j)%nat)) ->
  retry_loop fmul func todo attempt max_attempts backoff last current slept
  = mkRun (match todo with
           | O => match last with Some e => Raised e | None => RaisedTypeError end
           | S t => Raised (errors (attempt + t)%nat)
           end)
          (attempt + todo)
          (slept ++ backoff_delays fmul current backoff (todo - 1)).
Proof.
  induction todo as [|todo IH]; intros attempt last current slept Hmax Herr;
    cbn [retry_loop].
  - rewrite Nat.add_0_r. unfold backoff_delays. cbn. rewrite app_nil_r. reflexivity.
  - pose proof (Herr 0%nat ltac:(lia)) as H0. rewrite Nat.add_0_r in H0. rewrite H0.
    assert (Hnext : forall j, (j < todo)%nat ->
              func (S attempt + j) = RaisesException (errors (S attempt + j)%nat)).
    { intros j Hj. replace (S attempt + j)%nat with (attempt + S j)%nat by lia.
      apply Herr. lia. }
    destruct (Z.of_nat attempt <? max_attempts - 1) eqn:Hlt.
    + apply Z.ltb_lt in Hlt. destruct todo as [|todo]; [lia|].
      rewrite (IH (S attempt) _ _ _ ltac:(lia) Hnext).
      replace (S (S todo) - 1)%nat with (S todo) by lia.
      replace (S todo - 1)%nat with todo by lia.
      rewrite backoff_delays_S, <- app_assoc. cbn [app].
      replace (S attempt + todo)%nat with (attempt + S todo)%nat by lia.
      replace (S attempt + S todo)%nat with (attempt + S (S todo))%nat by lia.
      reflexivity.
    + apply Z.ltb_ge in Hlt. destruct todo as [|todo]; [|lia].
      cbn [retry_loop]. unfold backoff_delays. cbn. rewrite app_nil_r.
      rewrite Nat.add_0_r. replace (attempt + 1)%nat with (S attempt) by lia.
      reflexivity.
Qed.

(** While the wrapped function raises [Exception]s, [retry] awaits it
    again, up to [max_attempts] times: its first success within that many
    awaits is what the wrapper returns, the function is not awaited again,
    and before each new await the wrapper has slept [delay], then
    [delay * backoff], and so on. *)
Theorem retry_returns_first_success (max_attempts : Z) (delay backoff : Delay)
    (errors : nat -> E) (k : nat) (v : T) :
  Z.of_nat k < max_attempts ->
  (forall j, (j < k)%nat -> func j = RaisesException (errors j)) ->
  func k = Returns v ->
  retry fmul func max_attempts delay backoff
  = mkRun (Returned v) (S k) (backoff_delays fmul delay backoff k).
Proof.
  intros Hk Herr Hok. unfold retry.
  rewrite (retry_loop_success errors max_attempts backoff v k); cbn [app plus]; auto; lia.
Qed.

(** When every await raises an [Exception], [retry] awaits the wrapped
    function [max_attempts] times, sleeps between two awaits but not after
    the last, and raises the last exception; with [max_attempts] of zero or
    less it awaits nothing and ends in the [TypeError] of [raise None]. *)
Theorem retry_gives_up_with_last_exception (max_attempts : Z) (delay backoff : Delay)
    (errors : nat -> E) :
  (forall j, Z.of_nat j < max_attempts -> func j = RaisesException (errors j)) ->
  retry fmul func max_attempts delay backoff
  = mkRun (if max_attempts <=? 0 then RaisedTypeError
           else Raised (errors (Z.to_nat max_attempts - 1)%nat))
          (Z.to_nat max_attempts)
          (backoff_delays fmul delay backoff (Z.to_nat max_attempts - 1)).
Proof.
  intros Herr. unfold retry.
  destruct (max_attempts <=? 0) eqn:Hle.
  - apply Z.leb_le in Hle. replace (Z.to_nat max_attempts) with 0%nat by lia.
    reflexivity.
  - apply Z.leb_gt in Hle.
    rewrite (retry_loop_failure errors max_attempts backoff); cbn [app plus].
    + destruct (Z.to_nat max_attempts) as [|t] eqn:Ht; [lia|].
      replace (S t - 1)%nat with t by lia. reflexivity.
    + lia.
    + intros j Hj. apply Herr. lia.
Qed.

End RetryFacts.

Lemma retry_returns_first_success_witness :
  retry Z.mul flaky 3 1 2 = mkRun (Returned 7) 3%nat [1; 2].
Proof.
  apply (retry_returns_first_success Z.mul flaky 3 1 2
           (fun j => match j with O => "timeout" | _ => "reset" end) 2 7).
  - lia.
  - intros [|[|j]] Hj; [reflexivity|reflexivity|lia].
  - reflexivity.
Defined.

Lemma retry_gives_up_with_last_exception_witness :
  retry Z.mul failing 3 1 2 = mkRun (Raised 2%nat) 3%nat [1; 2].
Proof.
  apply (retry_gives_up_with_last_exception Z.mul failing 3 1 2 (fun j => j)).
  intros j _. reflexivity.
Defined.

Example retry_lets_cancellation_through :
  retry Z.mul (fun _ => RaisesOther "cancelled" : Outcome Z string) 3 1 2
  = mkRun (Raised "cancelled") 1%nat [].
Proof. reflexivity. Qed.

Section TextFacts.

Lemma len_append (s t : string) : Py.len (s +:+ t) = Py.len s + Py.len t.
Proof.
  unfold Py.len. induction s as [|c s IH]; [reflexivity|].
  change (String c s +:+ t) with (String c (s +:+ t)). cbn [String.length].
  rewrite !Nat2Z.inj_succ, IH. lia.
Qed.

Lemma len_nonneg (s : string) : 0 <= Py.len s.
Proof. unfold Py.len. lia. Qed.

Lemma len_repeat_char (c : ascii) (n : Z) : Py.len (Py.repeat_char c n) = Z.max 0 n.
Proof.
  unfold Py.len, Py.repeat_char.
  assert (H : forall k, String.length (Nat.iter k (String c) EmptyString) = k).
  { induction k as [|k IH]; [reflexivity|].
    rewrite Nat.iter_succ. cbn [String.length]. rewrite IH. reflexivity. }
  rewrite H. lia.
Qed.

Lemma length_take (n : nat) : forall s,
  String.length (Py.take n s) = Nat.min n (String.length s).
Proof.
  induction n as [|n IH]; intros [|c s]; cbn [Py.take String.length Nat.min]; try reflexivity.
  f_equal. apply IH.
Qed.

Lemma len_slice_to (s : string) (k : Z) :
  Py.len (Py.slice_to s k)
  = if k <? 0 then Z.max 0 (Py.len s + k) else Z.min k (Py.len s).
Proof.
  unfold Py.slice_to, Py.len.
  destruct (k <? 0) eqn:Hk; rewrite length_take;
    [apply Z.ltb_lt in Hk | apply Z.ltb_ge in Hk]; lia.
Qed.

Lemma nonempty_len (s : string) : Py.nonempty s = false <-> Py.len s = 0.
Proof.
  destruct s; unfold Py.len; cbn [Py.nonempty String.length]; split;
    intros; try reflexivity; try discriminate; lia.
Qed.

(** With [visible_chars] not negative, [mask_sensitive] gives a text of
    the length of its argument. *)
Theorem mask_sensitive_keeps_length (text : string) (visible_chars : Z) :
  Py.is_ascii text = true ->
  0 <= visible_chars ->
  Py.len (mask_sensitive text visible_chars) = Py.len text.
Proof.
  intros _ Hv. unfold mask_sensitive.
  pose proof (len_nonneg text) as Hlen.
  destruct (negb (Py.nonempty text) || (Py.len text <=? visible_chars)) eqn:Hc.
  - destruct (Py.nonempty text) eqn:Hne.
    + rewrite len_repeat_char. lia.
    + apply nonempty_len in Hne. rewrite Hne. reflexivity.
  - apply orb_false_iff in Hc as [_ Hc]. apply Z.leb_gt in Hc.
    rewrite len_append, len_repeat_char, len_slice_to.
    assert (Hk : (visible_chars <? 0) = false) by (apply Z.ltb_ge; lia).
    rewrite Hk. lia.
Qed.

Lemma split_once_spec (sep : ascii) (local domain : string) :
  Py.str_in (String sep "") local = false ->
  Py.split_once sep (local +:+ String sep domain) = Some (local, domain).
Proof.
  induction local as [|c local IH]; intros Hno.
  - change (EmptyString +:+ String sep domain) with (String sep domain).
    cbn [Py.split_once]. rewrite bool_decide_eq_true_2 by reflexivity. reflexivity.
  - change (String c local +:+ String sep domain)
      with (String c (local +:+ String sep domain)).
    cbn [Py.split_once]. cbn [Py.str_in Py.startswith] in Hno.
    apply orb_false_iff in Hno as [Hc Hno].
    replace (Py.startswith local "") with true in Hc by (destruct local; reflexivity).
    rewrite andb_true_r in Hc.
    destruct (bool_decide (c = sep)) eqn:Hcs.
    + apply bool_decide_eq_true in Hcs. subst c.
      rewrite bool_decide_eq_true_2 in Hc by reflexivity. discriminate.
    + rewrite (IH Hno). reflexivity.
Qed.

(** [mask_email] keeps the length of an address and everything from its
    first [@] on: only the part before it is replaced, by a text of the
    same length. *)
Theorem mask_email_keeps_length_and_domain (local domain : string) :
  Py.is_ascii (local +:+ "@" +:+ domain) = true ->
  Py.str_in "@" local = false ->
  exists masked,
    mask_email (local +:+ "@" +:+ domain) = masked +:+ "@" +:+ domain /\
    Py.len masked = Py.len local.
Proof.
  intros _ Hno. unfold mask_email.
  change ("@" +:+ domain) with (String "@" domain).
  rewrite (split_once_spec "@" local domain Hno).
  eexists. split; [reflexivity|].
  pose proof (len_nonneg local) as Hlen.
  destruct (Py.len local <=? 2) eqn:Hc.
  - rewrite len_repeat_char. lia.
  - apply Z.leb_gt in Hc.
    rewrite !len_append, len_repeat_char, len_slice_to.
    unfold Py.slice_from. cbn [Z.ltb Z.compare].
    change (1 <? 0) with false. cbv iota.
    assert (Hd : forall n s, String.length (Py.drop n s) = (String.length s - n)%nat).
    { induction n as [|n IH]; intros [|c s]; cbn [Py.drop String.length]; try lia.
      rewrite IH. lia. }
    unfold Py.len at 3. rewrite Hd. unfold Py.len in *. lia.
Qed.

(** When the suffix is no longer than [max_length], what [truncate]
    returns is no longer than [max_length]. *)
Theorem truncate_within_max_length (text : string) (max_length : Z) (suffix : string) :
  Py.is_ascii text = true ->
  Py.is_ascii suffix = true ->
  Py.len suffix <= max_length ->
  Py.len (truncate text max_length suffix) <= max_length.
Proof.
  intros _ _ Hs. unfold truncate.
  pose proof (len_nonneg suffix) as Hsuf.
  destruct (negb (Py.nonempty text) || (Py.len text <=? max_length)) eqn:Hc.
  - apply orb_true_iff in Hc as [Hc|Hc].
    + apply negb_true_iff, nonempty_len in Hc. lia.
    + apply Z.leb_le in Hc. exact Hc.
  - rewrite len_append, len_slice_to.
    assert (Hk : (max_length - Py.len suffix <? 0) = false) by (apply Z.ltb_ge; lia).
    rewrite Hk. lia.
Qed.

End TextFacts.

Lemma mask_sensitive_keeps_length_witness :
  Py.len (mask_sensitive "hunter2-token" 4) = Py.len "hunter2-token".
Proof.
  apply (mask_sensitive_keeps_length "hunter2-token" 4); [reflexivity|lia].
Defined.

Lemma mask_email_keeps_length_and_domain_witness :
  exists masked,
    mask_email ("hakan" +:+ "@" +:+ "mail.example") = masked +:+ "@" +:+ "mail.example" /\
    Py.len masked = Py.len "hakan".
Proof.
  apply (mask_email_keeps_length_and_domain "hakan" "mail.example"); reflexivity.
Defined.

Lemma truncate_within_max_length_witness :
  Py.len (truncate "no appointment slots are open" 10 "...") <= 10.
Proof.
  apply (truncate_within_max_length "no appointment slots are open" 10 "...");
    [reflexivity|reflexivity|vm_compute; discriminate].
Defined.

Example helper_mask_examples :
  mask_sensitive "hunter2-token" 4 = "hunt*********" /\
  mask_sensitive "abc" 4 = "***" /\
  mask_sensitive "abcdef" (-2) = "abcd********" /\
  mask_email "hakan@mail.example" = "h***n@mail.example" /\
  mask_email "ab@mail.example" = "**@mail.example" /\
  mask_email "no-at-sign" = "no-a******".
Proof. repeat split; reflexivity. Qed.

Example truncate_with_long_suffix_grows :
  truncate "abcdefgh" 2 "..." = "abcdefg...".
Proof. reflexivity. Qed.

(** White space as [clean_text] leaves it: every white-space character
    is a blank, and the character after it is not white space. *)
Definition starts_space (s : string) : bool :=
  match s with
  | String c _ => Py.is_space c
  | EmptyString => false
  end.

Fixpoint single_spaced (s : string) : bool :=
  match s with
  | EmptyString => true
  | String c r =>
      (if Py.is_space c then bool_decide (c = " "%char) && negb (starts_space r) else true)
      && single_spaced r
  end.

Section CleanFacts.

Lemma collapse_single (s : string) : forall in_run,
  single_spaced (collapse in_run s) = true /\
  (in_run = true -> starts_space (collapse in_run s) = false).
Proof.
  induction s as [|c r IH]; intros in_run; cbn [collapse].
  - split; reflexivity.
  - destruct (Py.is_space c) eqn:Hc.
    + destruct (IH true) as [Hs Hh]. destruct in_run.
      * split; [exact Hs|intros _; apply Hh; reflexivity].
      * split; [|discriminate].
        cbn [single_spaced]. change (Py.is_space " ") with true. cbv iota.
        rewrite bool_decide_eq_true_2 by reflexivity.
        rewrite Hh by reflexivity. rewrite Hs. reflexivity.
    + destruct (IH false) as [Hs _]. split.
      * cbn [single_spaced]. rewrite Hc, Hs. reflexivity.
      * intros _. cbn [starts_space]. exact Hc.
Qed.

Lemma single_spaced_tail (c : ascii) (r : string) :
  single_spaced (String c r) = true -> single_spaced r = true.
Proof. cbn [single_spaced]. intros H. apply andb_true_iff in H as [_ H]. exact H. Qed.

Lemma lstrip_single (white : ascii -> bool) (s : string) :
  single_spaced s = true -> single_spaced (Py.lstrip_by white s) = true.
Proof.
  induction s as [|c r IH]; intros H; cbn [Py.lstrip_by]; [reflexivity|].
  destruct (white c); [apply IH, (single_spaced_tail _ _ H)|exact H].
Qed.

Lemma rstrip_head (white : ascii -> bool) (s : string) (c : ascii) (t : string) :
  Py.rstrip_by white s = String c t -> exists r, s = String c r.
Proof.
  destruct s as [|a r]; cbn [Py.rstrip_by]; [discriminate|].
  destruct (Py.rstrip_by white r); [destruct (white a)|];
    intros [= <- _] || discriminate; eauto.
Qed.

Lemma rstrip_single (white : ascii -> bool) (s : string) :
  single_spaced s = true -> single_spaced (Py.rstrip_by white s) = true.
Proof.
  induction s as [|c r IH]; intros H; cbn [Py.rstrip_by]; [reflexivity|].
  pose proof (single_spaced_tail _ _ H) as Hr. specialize (IH Hr).
  cbn [single_spaced] in H. apply andb_true_iff in H as [Hc _].
  destruct (Py.rstrip_by white r) as [|c' t] eqn:Ht.
  - destruct (white c); [reflexivity|].
    cbn [single_spaced starts_space]. destruct (Py.is_space c); [|reflexivity].
    apply andb_true_iff in Hc as [-> _]. reflexivity.
  - destruct (rstrip_head _ _ _ _ Ht) as [r0 ->].
    cbn [single_spaced starts_space] in *. rewrite Hc. exact IH.
Qed.

Lemma lstrip_no_space (s : string) : starts_space (Py.lstrip_by Py.is_space s) = false.
Proof.
  induction s as [|c r IH]; cbn [Py.lstrip_by]; [reflexivity|].
  destruct (Py.is_space c) eqn:Hc; [exact IH|]. cbn [starts_space]. exact Hc.
Qed.

Lemma rstrip_no_space (white : ascii -> bool) (s : string) :
  starts_space s = false -> starts_space (Py.rstrip_by white s) = false.
Proof.
  destruct s as [|c r]; cbn [Py.rstrip_by]; [reflexivity|]. cbn [starts_space]. intros Hc.
  destruct (Py.rstrip_by white r); [destruct (white c)|]; cbn [starts_space];
    reflexivity || exact Hc.
Qed.

Lemma rstrip_idem (white : ascii -> bool) (s : string) :
  Py.rstrip_by white (Py.rstrip_by white s) = Py.rstrip_by white s.
Proof.
  induction s as [|c r IH]; cbn [Py.rstrip_by]; [reflexivity|].
  destruct (Py.rstrip_by white r) as [|c' t] eqn:Ht.
  - destruct (white c) eqn:Hc; [reflexivity|]. cbn [Py.rstrip_by]. rewrite Hc. reflexivity.
  - cbn [Py.rstrip_by] in *. rewrite IH. reflexivity.
Qed.

Lemma lstrip_id (s : string) :
  starts_space s = false -> Py.lstrip_by Py.is_space s = s.
Proof.
  destruct s as [|c r]; cbn [Py.lstrip_by starts_space]; [reflexivity|].
  intros ->. reflexivity.
Qed.

Lemma collapse_id (s : string) : forall in_run,
  single_spaced s = true -> (in_run = true -> starts_space s = false) ->
  collapse in_run s = s.
Proof.
  induction s as [|c r IH]; intros in_run Hs Hh; cbn [collapse]; [reflexivity|].
  pose proof (single_spaced_tail _ _ Hs) as Hr.
  cbn [single_spaced] in Hs. apply andb_true_iff in Hs as [Hc _].
  cbn [starts_space] in Hh.
  destruct (Py.is_space c) eqn:Hsp.
  - destruct in_run; [specialize (Hh eq_refl); discriminate|].
    apply andb_true_iff in Hc as [Hc Hn].
    apply bool_decide_eq_true in Hc. apply negb_true_iff in Hn. subst c.
    rewrite (IH true Hr (fun _ => Hn)). reflexivity.
  - rewrite (IH false Hr); [reflexivity|discriminate].
Qed.

(** What [clean_text] returns is clean: all its white space is single
    blanks between other characters, none at either end, and cleaning it
    again changes nothing. *)
Theorem clean_text_is_idempotent (text : string) :
  Py.is_ascii text = true ->
  clean_text (clean_text text) = clean_text text /\
  single_spaced (clean_text text) = true /\
  Py.strip (clean_text text) = clean_text text.
Proof.
  intros _.
  assert (Hnorm : single_spaced (clean_text text) = true /\
                  starts_space (clean_text text) = false /\
                  Py.rstrip_by Py.is_space (clean_text text) = clean_text text).
  { unfold clean_text. destruct (negb (Py.nonempty text)); [repeat split|].
    unfold Py.strip. split; [|split].
    - apply rstrip_single, lstrip_single, collapse_single.
    - apply rstrip_no_space, lstrip_no_space.
    - apply rstrip_idem. }
  destruct Hnorm as (Hs & Hh & Hr).
  assert (Hstrip : Py.strip (clean_text text) = clean_text text).
  { unfold Py.strip. rewrite (lstrip_id _ Hh). exact Hr. }
  split; [|split; assumption].
  unfold clean_text at 1.
  destruct (Py.nonempty (clean_text text)) eqn:Hne; cbn [negb].
  - rewrite (collapse_id _ false Hs) by discriminate. exact Hstrip.
  - destruct (clean_text text); [reflexivity|discriminate].
Qed.

End CleanFacts.

Section ExtractFacts.

Lemma str_append_assoc (a b c : string) : (a +:+ b) +:+ c = a +:+ (b +:+ c).
Proof.
  induction a as [|x a IH]; [reflexivity|].
  change (String x a +:+ b) with (String x (a +:+ b)).
  change (String x (a +:+ b) +:+ c) with (String x ((a +:+ b) +:+ c)).
  rewrite IH. reflexivity.
Qed.

Lemma drop_suffix (n : nat) : forall s, exists pre, s = pre +:+ Py.drop n s.
Proof.
  induction n as [|n IH]; intros s.
  - exists EmptyString. destruct s; reflexivity.
  - destruct s as [|c r]; [exists EmptyString; reflexivity|].
    destruct (IH r) as [pre Hpre]. exists (String c pre). cbn [Py.drop].
    change (String c pre +:+ Py.drop n r) with (String c (pre +:+ Py.drop n r)).
    rewrite <- Hpre. reflexivity.
Qed.

Lemma skip_suffix (s : string) : exists pre, s = pre +:+ skip_separators s.
Proof.
  induction s as [|c r IH]; [exists EmptyString; reflexivity|].
  cbn [skip_separators].
  destruct (bool_decide (c = ":"%char) || Py.is_space c); [|exists EmptyString; reflexivity].
  destruct IH as [pre Hpre]. exists (String c pre).
  change (String c pre +:+ skip_separators r) with (String c (pre +:+ skip_separators r)).
  rewrite <- Hpre. reflexivity.
Qed.

(** Six digits cut out of [text]. *)
Definition digits_of (text d : string) : Prop :=
  String.length d = 6%nat /\ SmsWebhook.all_digits d = true /\
  exists pre post, text = pre +:+ d +:+ post.

Lemma keyword_here_sound (keyword s d : string) :
  keyword_here keyword s = Some d -> digits_of s d.
Proof.
  unfold keyword_here. destruct (Py.startswith _ _); [|discriminate].
  destruct (SmsWebhook.six_digits _) as [[digits rest]|] eqn:Hsix; [|discriminate].
  intros [= ->]. apply SmsWebhook.six_digits_spec in Hsix as (Heq & Hlen & Hd).
  split; [exact Hlen|]. split; [exact Hd|].
  destruct (drop_suffix (String.length keyword) s) as [p1 H1].
  destruct (skip_suffix (Py.drop (String.length keyword) s)) as [p2 H2].
  exists (p1 +:+ p2), rest. rewrite str_append_assoc, <- Heq, <- H2. exact H1.
Qed.

Lemma search_keyword_sound (keyword s d : string) :
  search_keyword keyword s = Some d -> digits_of s d.
Proof.
  induction s as [|c r IH].
  - cbn [search_keyword]. destruct (keyword_here keyword "") eqn:Hk; [|discriminate].
    intros [= ->]. apply (keyword_here_sound _ _ _ Hk).
  - cbn [search_keyword]. destruct (keyword_here keyword (String c r)) eqn:Hk.
    + intros [= ->]. apply (keyword_here_sound _ _ _ Hk).
    + intros H. destruct (IH H) as (Hlen & Hd & pre & post & ->).
      split; [exact Hlen|]. split; [exact Hd|]. exists (String c pre), post. reflexivity.
Qed.

(** Whatever [extract_otp_from_text] returns is six digits cut out of the
    text; it returns the code of [SMSOTPStore.extract_otp] whenever that
    one finds a code, and it finds none only when that one finds none. *)
Theorem extract_otp_from_text_gives_six_digits (text : string) :
  Py.is_ascii text = true ->
  match extract_otp_from_text text with
  | Some d => digits_of text d /\
              (forall d', SmsWebhook.extract_otp text = Some d' -> d' = d)
  | None => SmsWebhook.extract_otp text = None
  end.
Proof.
  intros _. unfold extract_otp_from_text, patterns, SmsWebhook.extract_otp.
  cbn [first_match].
  destruct (SmsWebhook.search_code false text) as [d|] eqn:H1.
  - split; [|intros d' [= ->]; reflexivity].
    destruct (SmsWebhook.search_code_sound _ _ _ H1) as (pre & post & Heq & Hlen & Hd & _).
    split; [exact Hlen|]. split; [exact Hd|]. eauto.
  - destruct (search_keyword "code" text) as [d|] eqn:H2;
      [split; [apply (search_keyword_sound _ _ _ H2)|discriminate]|].
    destruct (search_keyword "otp" text) as [d|] eqn:H3;
      [split; [apply (search_keyword_sound _ _ _ H3)|discriminate]|].
    destruct (search_keyword "verification" text) as [d|] eqn:H4;
      [split; [apply (search_keyword_sound _ _ _ H4)|discriminate]|].
    reflexivity.
Qed.

End ExtractFacts.

Lemma clean_text_is_idempotent_witness :
  clean_text (clean_text "  Randevu   bulundu  ") = clean_text "  Randevu   bulundu  " /\
  single_spaced (clean_text "  Randevu   bulundu  ") = true /\
  Py.strip (clean_text "  Randevu   bulundu  ") = clean_text "  Randevu   bulundu  ".
Proof.
  apply (clean_text_is_idempotent "  Randevu   bulundu  "). reflexivity.
Defined.

Lemma extract_otp_from_text_gives_six_digits_witness :
  match extract_otp_from_text "OTP:1234567" with
  | Some d => digits_of "OTP:1234567" d /\
              (forall d', SmsWebhook.extract_otp "OTP:1234567" = Some d' -> d' = d)
  | None => SmsWebhook.extract_otp "OTP:1234567" = None
  end.
Proof.
  apply (extract_otp_from_text_gives_six_digits "OTP:1234567"). reflexivity.
Defined.

Example keyword_patterns_cut_longer_numbers :
  extract_otp_from_text "OTP:1234567" = Some "123456" /\
  SmsWebhook.extract_otp "OTP:1234567" = None /\
  extract_otp_from_text "barcode 9876543" = Some "987654" /\
  clean_text "  Randevu   bulundu  " = "Randevu bulundu".
Proof. repeat split; reflexivity. Qed.

End Helpers.

(** ** notifications/notifier.py *)

Module Notifier.

Import AvailabilityChecker (Probe, Answers, Fails).

Inductive NotificationType :=
| INFO | SUCCESS | WARNING | ERROR | APPOINTMENT_FOUND | OTP_REQUIRED
| LOGIN_SUCCESS | LOGIN_FAILED | SCAN_STARTED | SCAN_STOPPED.

#[global] Instance NotificationType_eq_dec : EqDecision NotificationType.
Proof. solve_decision. Defined.

Inductive NotificationPriority := LOW | NORMAL | HIGH | URGENT.

(** [l[k:]] for a list: a negative bound counts from the end. *)
Definition list_from {A} (l : list A) (k : Z) : list A :=
  if k <? 0 then drop (Z.to_nat (Z.of_nat (length l) + k)) l
  else drop (Z.to_nat k) l.

Section WithAny.

(** The values of the [data] dictionary. *)
Context {Any : Type}.

(** [@dataclass Notification]; [timestamp] in microseconds, [screenshot]
    as its bytes. *)
Record Notification := mkNotification {
  type : NotificationType;
  title : string;
  message : string;
  priority : NotificationPriority;
  timestamp : Z;
  data : gmap string Any;
  screenshot : option string
}.

(** [NotificationChannel]: what its two methods answer; [Fails] is a
    [send] that raises.  [is_enabled] is called outside the [try] and is
    taken to answer. *)
Record NotificationChannel := mkChannel {
  is_enabled : bool;
  send : Notification -> Probe bool
}.

(** A callback, by whether it raises on a notification; what else it does
    is outside the notifier. *)
Definition Callback : Type := Notification -> Probe unit.

Record Notifier := mkNotifier {
  channels : list NotificationChannel;
  history : list Notification;
  max_history : Z;
  callbacks : list Callback
}.

(** [Notifier.__init__] *)
Definition new_notifier : Notifier := mkNotifier [] [] 100 [].

Definition set_history (self : Notifier) (h : list Notification) : Notifier :=
  mkNotifier (channels self) h (max_history self) (callbacks self).

(** [add_channel] *)
Definition add_channel (self : Notifier) (channel : NotificationChannel) : Notifier :=
  mkNotifier (channels self ++ [channel]) (history self) (max_history self)
    (callbacks self).

(** [add_callback] *)
Definition add_callback (self : Notifier) (callback : Callback) : Notifier :=
  mkNotifier (channels self) (history self) (max_history self)
    (callbacks self ++ [callback]).

(** The loop over the channels of [notify]: the value of [success] after
    it. *)
Fixpoint send_all (chans : list NotificationChannel) (notification : Notification)
    (success : bool) : bool :=
  match chans with
  | [] => success
  | channel :: rest =>
      if is_enabled channel
      then match send channel notification with
           | Answers true => send_all rest notification true
           | Answers false => send_all rest notification success
           | Fails => send_all rest notification success
           end
      else send_all rest notification success
  end.

(** [notify]: the answer and the notifier after it; [now] is the clock
    read for the timestamp.  The callbacks run between the two steps and
    whatever they raise is dropped. *)
Definition notify (self : Notifier) (now : Z) (type : NotificationType)
    (title message : string) (priority : NotificationPriority)
    (data : option (gmap string Any)) (screenshot : option string)
    : bool * Notifier :=
  let notification :=
    mkNotification type title message priority now (default ∅ data) screenshot in
  let history1 := history self ++ [notification] in
  let history2 :=
    if max_history self <? Z.of_nat (length history1)
    then list_from history1 (- max_history self)
    else history1 in
  (send_all (channels self) notification false, set_history self history2).

(** [get_history] *)
Definition get_history (self : Notifier) (type_filter : option NotificationType)
    (limit : Z) : list Notification :=
  let history :=
    match type_filter with
    | Some t => List.filter (fun n => bool_decide (type n = t)) (history self)
    | None => history self
    end in
  list_from history (- limit).

(** The arguments of one call of [notify]. *)
Record Request := mkRequest {
  req_now : Z;
  req_type : NotificationType;
  req_title : string;
  req_message : string;
  req_priority : NotificationPriority;
  req_data : option (gmap string Any);
  req_screenshot : option string
}.

Definition notification_of (r : Request) : Notification :=
  mkNotification (req_type r) (req_title r) (req_message r) (req_priority r)
    (req_now r) (default ∅ (req_data r)) (req_screenshot r).

Definition notify_request (self : Notifier) (r : Request) : bool * Notifier :=
  notify self (req_now r) (req_type r) (req_title r) (req_message r)
    (req_priority r) (req_data r) (req_screenshot r).

(** One call after another, the answers dropped. *)
Definition notify_all (self : Notifier) (requests : list Request) : Notifier :=
  fold_left (fun st r => (notify_request st r).2) requests self.

End WithAny.

Arguments Notification : clear implicits.
Arguments NotificationChannel : clear implicits.
Arguments Notifier : clear implicits.
Arguments Request : clear implicits.


(** A channel that is switched off, one that raises, one that declines and
    one that accepts. *)
Definition off_channel : NotificationChannel string := mkChannel false (fun _ => Answers true).
Definition broken_channel : NotificationChannel string := mkChannel true (fun _ => Fails).
Definition declining_channel : NotificationChannel string :=
  mkChannel true (fun _ => Answers false).
Definition accepting_channel : NotificationChannel string :=
  mkChannel true (fun _ => Answers true).

Definition request (n : Z) (t : NotificationType) : Request string :=
  mkRequest n t "title" "message" NORMAL None None.

(** A notifier that keeps two notifications, and three requests. *)
Definition small_notifier : Notifier string := mkNotifier [] [] 2 [].

Definition three_requests : list (Request string) :=
  [request 1 INFO; request 2 ERROR; request 3 INFO].

Section NotifierFacts.

Context {Any : Type}.

Lemma send_all_spec (notification : Notification Any) (chans : list (NotificationChannel Any)) :
  forall success,
  send_all chans notification success = true <->
  success = true \/
  exists channel, channel ∈ chans /\ is_enabled channel = true /\
                  send channel notification = Answers true.
Proof.
  induction chans as [|c rest IH]; intros success; cbn [send_all].
  - split; [auto|]. intros [H|(ch & Hin & _)]; [exact H|].
    apply elem_of_nil in Hin. contradiction.
  - assert (Hskip : (send_all rest notification success = true <->
              success = true \/
              exists channel, channel ∈ c :: rest /\ is_enabled channel = true /\
                              send channel notification = Answers true) \/
            (is_enabled c = true /\ send c notification = Answers true)).
    { destruct (is_enabled c) eqn:He; [destruct (send c notification) as [[|]|] eqn:Hs|];
        [right; auto| | |]; left; rewrite IH; split;
        (intros [H|(ch & Hin & Hen & Hsend)]; [left; exact H|right]);
        try (exists ch; split; [apply list_elem_of_further, Hin|auto]);
        apply elem_of_cons in Hin as [->|Hin]; try congruence; eauto. }
    destruct (is_enabled c) eqn:He.
    + destruct (send c notification) as [[|]|] eqn:Hs.
      * rewrite IH. split; [|auto]. intros _. right. exists c.
        split; [apply list_elem_of_here|auto].
      * destruct Hskip as [H|[_ H]]; [exact H|discriminate].
      * destruct Hskip as [H|[_ H]]; [exact H|discriminate].
    + destruct Hskip as [H|[H _]]; [exact H|discriminate].
Qed.

(** [notify] answers [True] exactly when some enabled channel took the
    notification and said so: a channel that is switched off, that
    declines or that raises does not count, and does not keep a later
    channel from counting. *)
Theorem notify_succeeds_iff_a_channel_accepts (self : Notifier Any) (r : Request Any) :
  (notify_request self r).1 = true <->
  exists channel, channel ∈ channels self /\ is_enabled channel = true /\
                  send channel (notification_of r) = Answers true.
Proof.
  unfold notify_request, notify. cbn [fst].
  change (mkNotification _ _ _ _ _ _ _) with (notification_of r).
  rewrite send_all_spec. split; [intros [H|H]; [discriminate|exact H]|auto].
Qed.

Lemma list_from_last {A} (l : list A) (m : Z) :
  0 < m -> list_from l (- m) = drop (length l - Z.to_nat m) l.
Proof.
  intros Hm. unfold list_from.
  assert (H : (- m <? 0) = true) by (apply Z.ltb_lt; lia). rewrite H.
  f_equal. lia.
Qed.

Lemma last_of_last {A} (m : nat) (a b : list A) :
  drop (length (drop (length a - m) a ++ b) - m) (drop (length a - m) a ++ b)
  = drop (length (a ++ b) - m) (a ++ b).
Proof.
  rewrite <- (drop_app_le a b (length a - m)) by lia.
  rewrite drop_drop, length_drop, !length_app. f_equal. lia.
Qed.

Lemma notify_history (self : Notifier Any) (r : Request Any) :
  0 < max_history self ->
  history (notify_request self r).2
  = list_from (history self ++ [notification_of r]) (- max_history self) /\
  max_history (notify_request self r).2 = max_history self.
Proof.
  intros Hm. unfold notify_request, notify. cbn [snd set_history history max_history].
  change (mkNotification _ _ _ _ _ _ _) with (notification_of r).
  split; [|reflexivity].
  destruct (max_history self <? _) eqn:Hc; [reflexivity|].
  apply Z.ltb_ge in Hc. rewrite list_from_last by exact Hm.
  replace (length (history self ++ [notification_of r]) - Z.to_nat (max_history self))%nat
    with 0%nat by lia.
  reflexivity.
Qed.

(** With a positive [max_history] and a history within it, the history
    after any number of calls of [notify] is the newest [max_history] of
    the notifications, those held before and those made since, in the
    order they were made: the oldest are dropped first and the history
    stays within [max_history]. *)
Theorem history_keeps_the_newest (requests : list (Request Any)) :
  forall self : Notifier Any,
  0 < max_history self ->
  Z.of_nat (length (history self)) <= max_history self ->
  history (notify_all self requests)
  = list_from (history self ++ map notification_of requests) (- max_history self) /\
  Z.of_nat (length (history (notify_all self requests))) <= max_history self.
Proof.
  induction requests as [|r rest IH]; intros self Hm Hlen.
  - cbn [notify_all fold_left map]. rewrite app_nil_r, list_from_last by exact Hm.
    replace (length (history self) - Z.to_nat (max_history self))%nat with 0%nat by lia.
    split; [reflexivity|exact Hlen].
  - change (notify_all self (r :: rest))
      with (notify_all (notify_request self r).2 rest).
    destruct (notify_history self r Hm) as [Hh Hmax].
    assert (Hlen1 : Z.of_nat (length (history (notify_request self r).2))
                    <= max_history (notify_request self r).2).
    { rewrite Hmax, Hh, list_from_last by exact Hm. rewrite length_drop. lia. }
    destruct (IH (notify_request self r).2 ltac:(rewrite Hmax; exact Hm) Hlen1)
      as [Heq Hle].
    rewrite Hmax in Heq, Hle. split; [|exact Hle].
    rewrite Heq, Hh, !list_from_last by exact Hm.
    rewrite last_of_last. cbn [map]. rewrite <- app_assoc. reflexivity.
Qed.


End NotifierFacts.

Lemma notify_succeeds_iff_a_channel_accepts_witness :
  (notify_request
     (mkNotifier [off_channel; broken_channel; accepting_channel; declining_channel]
        [] 100 [])
     (request 1 APPOINTMENT_FOUND)).1 = true.
Proof.
  apply (notify_succeeds_iff_a_channel_accepts
           (mkNotifier [off_channel; broken_channel; accepting_channel; declining_channel]
              [] 100 [])
           (request 1 APPOINTMENT_FOUND)).
  exists accepting_channel. split; [|split; reflexivity].
  do 2 apply list_elem_of_further. apply list_elem_of_here.
Defined.

Lemma history_keeps_the_newest_witness :
  history (notify_all small_notifier three_requests)
  = list_from (history small_notifier ++ map notification_of three_requests)
      (- max_history small_notifier) /\
  Z.of_nat (length (history (notify_all small_notifier three_requests)))
  <= max_history small_notifier.
Proof.
  apply (history_keeps_the_newest three_requests small_notifier);
    [reflexivity|discriminate].
Defined.


Example history_examples :
  map timestamp (history (notify_all small_notifier three_requests)) = [2; 3] /\
  map timestamp (get_history (notify_all small_notifier three_requests) None 1) = [3] /\
  map timestamp (get_history (notify_all small_notifier three_requests) None 0) = [2; 3] /\
  map timestamp (get_history (notify_all small_notifier three_requests) (Some INFO) 20) = [3] /\
  map timestamp
    (history (notify_all (mkNotifier [] [] 0 [] : Notifier string) three_requests))
  = [1; 2; 3].
Proof. repeat split; reflexivity. Qed.

Example notify_without_accepting_channel :
  (notify_request (mkNotifier [off_channel; broken_channel; declining_channel] [] 100 [])
     (request 1 ERROR)).1 = false.
Proof. reflexivity. Qed.

End Notifier.
